(** * TrustiPay user app: the wallet workflow of [src/App.tsx]

    The component keeps its whole state in [useState] cells and changes it only
    inside event handlers, timer callbacks and effect clean-ups.  The
    development below embeds
    - the JavaScript values the handlers compute with: strings as sequences of
      Latin-1 code units ([string]) and numbers as IEEE-754 binary64 values
      ([spec_float] at precision 53);
    - the cells as one record [AppState] and every handler as a function on it;
    - the event loop as a step function over the events the rendered controls,
      the timers and the camera promise can raise.  *)

From Stdlib Require Import ZArith List String Ascii Bool Lia.
From Stdlib Require Import Floats.SpecFloat.
Import ListNotations.
Open Scope Z_scope.

(** ** Strings *)

Module JsString.

(** Code units that [String.prototype.trim] strips (WhiteSpace and
    LineTerminator, as far as they are Latin-1): TAB, LF, VT, FF, CR, SP, NBSP. *)
Definition isWhiteSpace (c : ascii) : bool :=
  let n := N_of_ascii c in
  ((9 <=? n) && (n <=? 13) || (n =? 32) || (n =? 160))%N.

Fixpoint trimStart (s : string) : string :=
  match s with
  | EmptyString => EmptyString
  | String c s' => if isWhiteSpace c then trimStart s' else s
  end.

(** [trimEnd] keeps a code unit when it is not white space or when something
    is kept after it. *)
Fixpoint trimEnd (s : string) : string :=
  match s with
  | EmptyString => EmptyString
  | String c s' =>
      match trimEnd s' with
      | EmptyString => if isWhiteSpace c then EmptyString else String c EmptyString
      | t => String c t
      end
  end.

Definition trim (s : string) : string := trimEnd (trimStart s).

(** A JavaScript string is truthy when it is not empty. *)
Definition truthy (s : string) : bool :=
  match s with EmptyString => false | _ => true end.

(** [toLowerCase] on Latin-1: A-Z and the accented capitals 0xC0-0xDE
    (without the multiplication sign 0xD7) move up by 32. *)
Definition lowerChar (c : ascii) : ascii :=
  let n := N_of_ascii c in
  if ((65 <=? n) && (n <=? 90) || (192 <=? n) && (n <=? 222) && negb (n =? 215))%N
  then ascii_of_N (n + 32) else c.

Fixpoint toLowerCase (s : string) : string :=
  match s with
  | EmptyString => EmptyString
  | String c s' => String (lowerChar c) (toLowerCase s')
  end.

(** [s.includes(q)]: [q] occurs in [s] as a contiguous substring. *)
Fixpoint includes (q s : string) : bool :=
  String.prefix q s ||
  match s with
  | EmptyString => false
  | String _ s' => includes q s'
  end.

(** [s.replace(/,/g, "")]: every comma removed. *)
Fixpoint removeCommas (s : string) : string :=
  match s with
  | EmptyString => EmptyString
  | String c s' =>
      if Ascii.eqb c ","%char then removeCommas s' else String c (removeCommas s')
  end.

End JsString.

(** ** Numbers *)

Module JsNumber.

(** A JavaScript Number is a binary64 value. *)
Definition prec : Z := 53.
Definition emax : Z := 1024.
Definition number : Type := spec_float.

Definition NaN : number := S754_nan.
Definition pInfinity : number := S754_infinity false.
Definition nInfinity : number := S754_infinity true.
Definition pZero : number := S754_zero false.

(** The Number nearest to an integer (exact below 2^53). *)
Definition ofZ (z : Z) : number := binary_normalize prec emax z 0 false.

Definition add : number -> number -> number := SFadd prec emax.
Definition sub : number -> number -> number := SFsub prec emax.
Definition mul : number -> number -> number := SFmul prec emax.
Definition div : number -> number -> number := SFdiv prec emax.

(** [x < y], [x <= y], [x > y]: false as soon as one side is NaN. *)
Definition lt (x y : number) : bool := SFltb x y.
Definition le (x y : number) : bool := SFleb x y.
Definition gt (x y : number) : bool := SFltb y x.

(** [!x] is true exactly for NaN, +0 and -0. *)
Definition ToBoolean (x : number) : bool :=
  match x with
  | S754_nan | S754_zero _ => false
  | _ => true
  end.

Definition isNaN (x : number) : bool :=
  match x with S754_nan => true | _ => false end.

(** [Math.max]: NaN if an argument is NaN; otherwise the arguments are folded
    from -Infinity, +0 counting as larger than -0. *)
Definition maxStep (highest n : number) : number :=
  match n, highest with
  | S754_zero false, S754_zero true => n
  | _, _ => if lt highest n then n else highest
  end.

Definition Math_max (a b : number) : number :=
  if isNaN a || isNaN b then NaN else maxStep (maxStep nInfinity a) b.

(** [Math.floor] and [Math.round] leave NaN, the infinities, the zeros and
    every value with a non-negative exponent (already integral) alone.  For
    [m * 2^e] with [e < 0] the integer is computed exactly; a zero result
    keeps the sign of the argument. *)
Definition integral (s : bool) (z : Z) : number :=
  if z =? 0 then S754_zero s else ofZ z.

Definition Math_floor (x : number) : number :=
  match x with
  | S754_finite s m e =>
      if 0 <=? e then x
      else integral s (cond_Zopp s (Zpos m) / 2 ^ (- e))
  | _ => x
  end.

(** [Math.round x] is [floor (x + 1/2)], ties going towards +Infinity. *)
Definition Math_round (x : number) : number :=
  match x with
  | S754_finite s m e =>
      if 0 <=? e then x
      else integral s ((2 * cond_Zopp s (Zpos m) + 2 ^ (- e)) / 2 ^ (- e + 1))
  | _ => x
  end.

(** Rounding half away from zero, the rule the specification names: the
    magnitude is rounded half up and the sign put back. *)
Definition roundHalfAwayFromZero (x : number) : number :=
  match x with
  | S754_finite s m e =>
      if 0 <=? e then x
      else integral s (cond_Zopp s ((2 * Zpos m + 2 ^ (- e)) / 2 ^ (- e + 1)))
  | _ => x
  end.

(** *** Number to string, for integers *)

Definition digitChar (d : Z) : ascii := ascii_of_N (48 + Z.to_N d).

(** Decimal digits of a non-negative integer, most significant first; the
    fuel bounds the number of digits. *)
Fixpoint digitsFuel (fuel : nat) (z : Z) : string :=
  match fuel with
  | O => EmptyString
  | S fuel' =>
      if z <? 10 then String (digitChar z) EmptyString
      else (digitsFuel fuel' (z / 10) ++ String (digitChar (z mod 10)) EmptyString)%string
  end.

Definition intToString (z : Z) : string :=
  if z <? 0 then String "-"%char (digitsFuel (S (Z.to_nat (Z.log2 (- z)))) (- z))
  else digitsFuel (S (Z.to_nat (Z.log2 z))) z.

(** The integer a Number denotes, when it denotes one. *)
Definition toInteger (x : number) : option Z :=
  match x with
  | S754_zero _ => Some 0
  | S754_finite s m e =>
      if 0 <=? e then Some (cond_Zopp s (Zpos m * 2 ^ e))
      else if Zpos m mod 2 ^ (- e) =? 0 then Some (cond_Zopp s (Zpos m / 2 ^ (- e)))
      else None
  | _ => None
  end.

(** [Number::toString] on the values a template literal receives here: NaN,
    the infinities and integers below 10^21 print as below.  Fractions and
    larger integers are outside the fragment and print as the empty string;
    the values printed in this development are small integers. *)
Definition toString (x : number) : string :=
  match x with
  | S754_nan => "NaN"
  | S754_infinity false => "Infinity"
  | S754_infinity true => "-Infinity"
  | _ =>
      match toInteger x with
      | Some z => if Z.abs z <? 10 ^ 21 then intToString z else EmptyString
      | None => EmptyString
      end
  end.

(** *** String to number: [Number(s)] *)

Definition isDigit (c : ascii) : bool :=
  let n := N_of_ascii c in ((48 <=? n) && (n <=? 57))%N.

Definition digitVal (c : ascii) : Z := Z.of_N (N_of_ascii c) - 48.

(** Reads a maximal run of decimal digits: its value on top of [acc], the
    number of digits read, and the rest. *)
Fixpoint readDigits (s : string) (acc : Z) (count : Z) : Z * Z * string :=
  match s with
  | String c s' =>
      if isDigit c then readDigits s' (10 * acc + digitVal c) (count + 1)
      else (acc, count, s)
  | EmptyString => (acc, count, s)
  end.

(** Digit value in a radix up to 16, if the code unit is such a digit. *)
Definition radixDigit (radix : Z) (c : ascii) : option Z :=
  let n := Z.of_N (N_of_ascii c) in
  let v :=
    if (48 <=? n) && (n <=? 57) then n - 48
    else if (97 <=? n) && (n <=? 102) then n - 87
    else if (65 <=? n) && (n <=? 70) then n - 55
    else 16 in
  if v <? radix then Some v else None.

Fixpoint readRadix (radix : Z) (s : string) (acc : Z) : option Z :=
  match s with
  | EmptyString => Some acc
  | String c s' =>
      match radixDigit radix c with
      | Some v => readRadix radix s' (radix * acc + v)
      | None => None
      end
  end.

(** The binary64 value nearest to [(-1)^s * m * 10^e], for [m > 0]: one
    rounding of the exact integer, or one rounding of the exact quotient. *)
Definition ofDecimal (s : bool) (m : positive) (e : Z) : number :=
  if 0 <=? e then binary_normalize prec emax (cond_Zopp s (Zpos m * 10 ^ e)) 0 false
  else div (S754_finite s m 0) (S754_finite false (Z.to_pos (10 ^ (- e))) 0).

Definition ofSignedDecimal (s : bool) (m e : Z) : number :=
  match m with
  | Zpos p => ofDecimal s p e
  | _ => S754_zero s
  end.

(** ExponentPart: [e] or [E], an optional sign, at least one digit, and
    nothing after it. *)
Definition readExponent (s : string) : option Z :=
  match s with
  | EmptyString => Some 0
  | String c s' =>
      if Ascii.eqb c "e"%char || Ascii.eqb c "E"%char then
        let '(neg, s'') :=
          match s' with
          | String "-"%char t => (true, t)
          | String "+"%char t => (false, t)
          | _ => (false, s')
          end in
        match readDigits s'' 0 0 with
        | (v, n, EmptyString) => if 0 <? n then Some (cond_Zopp neg v) else None
        | _ => None
        end
      else None
  end.

(** StrUnsignedDecimalLiteral: [Infinity], or digits with an optional
    fraction and exponent, at least one digit before or after the point. *)
Definition readUnsigned (sign : bool) (s : string) : number :=
  if String.eqb s "Infinity" then S754_infinity sign
  else
    let '(ip, ni, r1) := readDigits s 0 0 in
    let '(m, nf, r2) :=
      match r1 with
      | String "."%char t => readDigits t ip 0
      | _ => (ip, 0, r1)
      end in
    if 0 <? ni + nf then
      match readExponent r2 with
      | Some ex => ofSignedDecimal sign m (ex - nf)
      | None => NaN
      end
    else NaN.

(** StrNumericLiteral on a trimmed, non-empty string. *)
Definition readLiteral (s : string) : number :=
  match s with
  | String "0"%char (String c (String d t)) =>
      let digits := String d t in
      let radix :=
        if Ascii.eqb c "x"%char || Ascii.eqb c "X"%char then 16
        else if Ascii.eqb c "o"%char || Ascii.eqb c "O"%char then 8
        else if Ascii.eqb c "b"%char || Ascii.eqb c "B"%char then 2
        else 0 in
      if radix =? 0 then readUnsigned false s
      else match readRadix radix digits 0 with
           | Some v => ofSignedDecimal false v 0
           | None => NaN
           end
  | String "-"%char t => readUnsigned true t
  | String "+"%char t => readUnsigned false t
  | _ => readUnsigned false s
  end.

(** [Number(s)]: white space is trimmed, the empty string is +0, a numeric
    literal is its value, anything else is NaN. *)
Definition Number (s : string) : number :=
  match JsString.trim s with
  | EmptyString => pZero
  | t => readLiteral t
  end.

End JsNumber.

(** ** The data model of [App.tsx] *)

Import JsNumber.
Open Scope string_scope.
Open Scope Z_scope.

Module Screen.
Inductive t : Type :=
  | login | home | transfer | confirm | success | history | offline | offlineSuccess.

Definition eqb (a b : t) : bool :=
  match a, b with
  | login, login | home, home | transfer, transfer | confirm, confirm
  | success, success | history, history | offline, offline
  | offlineSuccess, offlineSuccess => true
  | _, _ => false
  end.
End Screen.

Module Direction.
Inductive t : Type := sent | received.

Definition eqb (a b : t) : bool :=
  match a, b with
  | sent, sent | received, received => true
  | _, _ => false
  end.
End Direction.

(** The history filter is ["all"] or one of the two directions. *)
Inductive HistoryFilter : Type :=
  | all
  | only (d : Direction.t).

Module Biometric.
Inductive t : Type := idle | verifying | verified.
End Biometric.

Module Camera.
Inductive t : Type := idle | requesting | scanning | error.
End Camera.

Module TransferDraft.
Record t : Type := mk { recipient : string; amount : string; note : string }.
End TransferDraft.

Module TransferDetail.
Record t : Type := mk {
  recipient : string;
  amount : number;
  note : string;
  reference : string;
  timestamp : Z
}.
End TransferDetail.

Module HistoryEntry.
Record t : Type := mk {
  id : string;
  recipient : string;
  note : string;
  amount : number;
  direction : Direction.t;
  timestamp : Z
}.
End HistoryEntry.

(** A camera stream handed out by [getUserMedia], known by an opaque handle. *)
Definition MediaStream : Type := Z.

(** Callbacks that have been scheduled and have not run yet.  A callback
    closes over the values of the render in which it was created, so each
    task records the values it captured. *)
Inductive Task : Type :=
  | TaskBoot
      (* setTimeout(() => setIsBooting(false), 5000) *)
  | TaskVerified (pending : TransferDetail.t)
      (* the 600 ms timer of handleFingerprint *)
  | TaskFinalize (pending : TransferDetail.t)
      (* setTimeout(() => finalizeTransfer(pendingTransfer), 300) *)
  | TaskCameraRequest (captured : option MediaStream)
      (* the rest of handleStartQrScan after await getUserMedia(...) *)
  | TaskScanDone (captured : option MediaStream).
      (* the 1500 ms timer of handleStartQrScan *)

(** One field per [useState] cell of [App], and the scheduled callbacks. *)
Record AppState : Type := mkAppState {
  screen : Screen.t;
  isBooting : bool;
  userName : string;
  loginName : string;
  loginPin : string;
  rememberMe : bool;
  loginError : string;
  draft : TransferDraft.t;
  pendingTransfer : option TransferDetail.t;
  lastTransfer : option TransferDetail.t;
  history : list HistoryEntry.t;
  balance : number;
  transferError : string;
  historyFilter : HistoryFilter;
  historySearch : string;
  biometricStatus : Biometric.t;
  cameraStatus : Camera.t;
  cameraError : string;
  offlineScanResult : string;
  offlineRecordedAt : option Z;
  cameraStream : option MediaStream;
  tasks : list Task
}.

(** The state setters. *)

Definition setScreen (v : Screen.t) (st : AppState) : AppState :=
  {| screen := v; isBooting := isBooting st; userName := userName st;
     loginName := loginName st; loginPin := loginPin st; rememberMe := rememberMe st;
     loginError := loginError st; draft := draft st;
     pendingTransfer := pendingTransfer st; lastTransfer := lastTransfer st;
     history := history st; balance := balance st; transferError := transferError st;
     historyFilter := historyFilter st; historySearch := historySearch st;
     biometricStatus := biometricStatus st; cameraStatus := cameraStatus st;
     cameraError := cameraError st; offlineScanResult := offlineScanResult st;
     offlineRecordedAt := offlineRecordedAt st; cameraStream := cameraStream st;
     tasks := tasks st |}.

Definition setIsBooting (v : bool) (st : AppState) : AppState :=
  {| screen := screen st; isBooting := v; userName := userName st;
     loginName := loginName st; loginPin := loginPin st; rememberMe := rememberMe st;
     loginError := loginError st; draft := draft st;
     pendingTransfer := pendingTransfer st; lastTransfer := lastTransfer st;
     history := history st; balance := balance st; transferError := transferError st;
     historyFilter := historyFilter st; historySearch := historySearch st;
     biometricStatus := biometricStatus st; cameraStatus := cameraStatus st;
     cameraError := cameraError st; offlineScanResult := offlineScanResult st;
     offlineRecordedAt := offlineRecordedAt st; cameraStream := cameraStream st;
     tasks := tasks st |}.

Definition setUserName (v : string) (st : AppState) : AppState :=
  {| screen := screen st; isBooting := isBooting st; userName := v;
     loginName := loginName st; loginPin := loginPin st; rememberMe := rememberMe st;
     loginError := loginError st; draft := draft st;
     pendingTransfer := pendingTransfer st; lastTransfer := lastTransfer st;
     history := history st; balance := balance st; transferError := transferError st;
     historyFilter := historyFilter st; historySearch := historySearch st;
     biometricStatus := biometricStatus st; cameraStatus := cameraStatus st;
     cameraError := cameraError st; offlineScanResult := offlineScanResult st;
     offlineRecordedAt := offlineRecordedAt st; cameraStream := cameraStream st;
     tasks := tasks st |}.

Definition setLoginName (v : string) (st : AppState) : AppState :=
  {| screen := screen st; isBooting := isBooting st; userName := userName st;
     loginName := v; loginPin := loginPin st; rememberMe := rememberMe st;
     loginError := loginError st; draft := draft st;
     pendingTransfer := pendingTransfer st; lastTransfer := lastTransfer st;
     history := history st; balance := balance st; transferError := transferError st;
     historyFilter := historyFilter st; historySearch := historySearch st;
     biometricStatus := biometricStatus st; cameraStatus := cameraStatus st;
     cameraError := cameraError st; offlineScanResult := offlineScanResult st;
     offlineRecordedAt := offlineRecordedAt st; cameraStream := cameraStream st;
     tasks := tasks st |}.

Definition setLoginPin (v : string) (st : AppState) : AppState :=
  {| screen := screen st; isBooting := isBooting st; userName := userName st;
     loginName := loginName st; loginPin := v; rememberMe := rememberMe st;
     loginError := loginError st; draft := draft st;
     pendingTransfer := pendingTransfer st; lastTransfer := lastTransfer st;
     history := history st; balance := balance st; transferError := transferError st;
     historyFilter := historyFilter st; historySearch := historySearch st;
     biometricStatus := biometricStatus st; cameraStatus := cameraStatus st;
     cameraError := cameraError st; offlineScanResult := offlineScanResult st;
     offlineRecordedAt := offlineRecordedAt st; cameraStream := cameraStream st;
     tasks := tasks st |}.

Definition setRememberMe (v : bool) (st : AppState) : AppState :=
  {| screen := screen st; isBooting := isBooting st; userName := userName st;
     loginName := loginName st; loginPin := loginPin st; rememberMe := v;
     loginError := loginError st; draft := draft st;
     pendingTransfer := pendingTransfer st; lastTransfer := lastTransfer st;
     history := history st; balance := balance st; transferError := transferError st;
     historyFilter := historyFilter st; historySearch := historySearch st;
     biometricStatus := biometricStatus st; cameraStatus := cameraStatus st;
     cameraError := cameraError st; offlineScanResult := offlineScanResult st;
     offlineRecordedAt := offlineRecordedAt st; cameraStream := cameraStream st;
     tasks := tasks st |}.

Definition setLoginError (v : string) (st : AppState) : AppState :=
  {| screen := screen st; isBooting := isBooting st; userName := userName st;
     loginName := loginName st; loginPin := loginPin st; rememberMe := rememberMe st;
     loginError := v; draft := draft st; pendingTransfer := pendingTransfer st;
     lastTransfer := lastTransfer st; history := history st; balance := balance st;
     transferError := transferError st; historyFilter := historyFilter st;
     historySearch := historySearch st; biometricStatus := biometricStatus st;
     cameraStatus := cameraStatus st; cameraError := cameraError st;
     offlineScanResult := offlineScanResult st;
     offlineRecordedAt := offlineRecordedAt st; cameraStream := cameraStream st;
     tasks := tasks st |}.

Definition setDraft (v : TransferDraft.t) (st : AppState) : AppState :=
  {| screen := screen st; isBooting := isBooting st; userName := userName st;
     loginName := loginName st; loginPin := loginPin st; rememberMe := rememberMe st;
     loginError := loginError st; draft := v; pendingTransfer := pendingTransfer st;
     lastTransfer := lastTransfer st; history := history st; balance := balance st;
     transferError := transferError st; historyFilter := historyFilter st;
     historySearch := historySearch st; biometricStatus := biometricStatus st;
     cameraStatus := cameraStatus st; cameraError := cameraError st;
     offlineScanResult := offlineScanResult st;
     offlineRecordedAt := offlineRecordedAt st; cameraStream := cameraStream st;
     tasks := tasks st |}.

Definition setPendingTransfer (v : option TransferDetail.t) (st : AppState) : AppState :=
  {| screen := screen st; isBooting := isBooting st; userName := userName st;
     loginName := loginName st; loginPin := loginPin st; rememberMe := rememberMe st;
     loginError := loginError st; draft := draft st; pendingTransfer := v;
     lastTransfer := lastTransfer st; history := history st; balance := balance st;
     transferError := transferError st; historyFilter := historyFilter st;
     historySearch := historySearch st; biometricStatus := biometricStatus st;
     cameraStatus := cameraStatus st; cameraError := cameraError st;
     offlineScanResult := offlineScanResult st;
     offlineRecordedAt := offlineRecordedAt st; cameraStream := cameraStream st;
     tasks := tasks st |}.

Definition setLastTransfer (v : option TransferDetail.t) (st : AppState) : AppState :=
  {| screen := screen st; isBooting := isBooting st; userName := userName st;
     loginName := loginName st; loginPin := loginPin st; rememberMe := rememberMe st;
     loginError := loginError st; draft := draft st;
     pendingTransfer := pendingTransfer st; lastTransfer := v; history := history st;
     balance := balance st; transferError := transferError st;
     historyFilter := historyFilter st; historySearch := historySearch st;
     biometricStatus := biometricStatus st; cameraStatus := cameraStatus st;
     cameraError := cameraError st; offlineScanResult := offlineScanResult st;
     offlineRecordedAt := offlineRecordedAt st; cameraStream := cameraStream st;
     tasks := tasks st |}.

Definition setHistory (v : list HistoryEntry.t) (st : AppState) : AppState :=
  {| screen := screen st; isBooting := isBooting st; userName := userName st;
     loginName := loginName st; loginPin := loginPin st; rememberMe := rememberMe st;
     loginError := loginError st; draft := draft st;
     pendingTransfer := pendingTransfer st; lastTransfer := lastTransfer st;
     history := v; balance := balance st; transferError := transferError st;
     historyFilter := historyFilter st; historySearch := historySearch st;
     biometricStatus := biometricStatus st; cameraStatus := cameraStatus st;
     cameraError := cameraError st; offlineScanResult := offlineScanResult st;
     offlineRecordedAt := offlineRecordedAt st; cameraStream := cameraStream st;
     tasks := tasks st |}.

Definition setBalance (v : number) (st : AppState) : AppState :=
  {| screen := screen st; isBooting := isBooting st; userName := userName st;
     loginName := loginName st; loginPin := loginPin st; rememberMe := rememberMe st;
     loginError := loginError st; draft := draft st;
     pendingTransfer := pendingTransfer st; lastTransfer := lastTransfer st;
     history := history st; balance := v; transferError := transferError st;
     historyFilter := historyFilter st; historySearch := historySearch st;
     biometricStatus := biometricStatus st; cameraStatus := cameraStatus st;
     cameraError := cameraError st; offlineScanResult := offlineScanResult st;
     offlineRecordedAt := offlineRecordedAt st; cameraStream := cameraStream st;
     tasks := tasks st |}.

Definition setTransferError (v : string) (st : AppState) : AppState :=
  {| screen := screen st; isBooting := isBooting st; userName := userName st;
     loginName := loginName st; loginPin := loginPin st; rememberMe := rememberMe st;
     loginError := loginError st; draft := draft st;
     pendingTransfer := pendingTransfer st; lastTransfer := lastTransfer st;
     history := history st; balance := balance st; transferError := v;
     historyFilter := historyFilter st; historySearch := historySearch st;
     biometricStatus := biometricStatus st; cameraStatus := cameraStatus st;
     cameraError := cameraError st; offlineScanResult := offlineScanResult st;
     offlineRecordedAt := offlineRecordedAt st; cameraStream := cameraStream st;
     tasks := tasks st |}.

Definition setHistoryFilter (v : HistoryFilter) (st : AppState) : AppState :=
  {| screen := screen st; isBooting := isBooting st; userName := userName st;
     loginName := loginName st; loginPin := loginPin st; rememberMe := rememberMe st;
     loginError := loginError st; draft := draft st;
     pendingTransfer := pendingTransfer st; lastTransfer := lastTransfer st;
     history := history st; balance := balance st; transferError := transferError st;
     historyFilter := v; historySearch := historySearch st;
     biometricStatus := biometricStatus st; cameraStatus := cameraStatus st;
     cameraError := cameraError st; offlineScanResult := offlineScanResult st;
     offlineRecordedAt := offlineRecordedAt st; cameraStream := cameraStream st;
     tasks := tasks st |}.

Definition setHistorySearch (v : string) (st : AppState) : AppState :=
  {| screen := screen st; isBooting := isBooting st; userName := userName st;
     loginName := loginName st; loginPin := loginPin st; rememberMe := rememberMe st;
     loginError := loginError st; draft := draft st;
     pendingTransfer := pendingTransfer st; lastTransfer := lastTransfer st;
     history := history st; balance := balance st; transferError := transferError st;
     historyFilter := historyFilter st; historySearch := v;
     biometricStatus := biometricStatus st; cameraStatus := cameraStatus st;
     cameraError := cameraError st; offlineScanResult := offlineScanResult st;
     offlineRecordedAt := offlineRecordedAt st; cameraStream := cameraStream st;
     tasks := tasks st |}.

Definition setBiometricStatus (v : Biometric.t) (st : AppState) : AppState :=
  {| screen := screen st; isBooting := isBooting st; userName := userName st;
     loginName := loginName st; loginPin := loginPin st; rememberMe := rememberMe st;
     loginError := loginError st; draft := draft st;
     pendingTransfer := pendingTransfer st; lastTransfer := lastTransfer st;
     history := history st; balance := balance st; transferError := transferError st;
     historyFilter := historyFilter st; historySearch := historySearch st;
     biometricStatus := v; cameraStatus := cameraStatus st;
     cameraError := cameraError st; offlineScanResult := offlineScanResult st;
     offlineRecordedAt := offlineRecordedAt st; cameraStream := cameraStream st;
     tasks := tasks st |}.

Definition setCameraStatus (v : Camera.t) (st : AppState) : AppState :=
  {| screen := screen st; isBooting := isBooting st; userName := userName st;
     loginName := loginName st; loginPin := loginPin st; rememberMe := rememberMe st;
     loginError := loginError st; draft := draft st;
     pendingTransfer := pendingTransfer st; lastTransfer := lastTransfer st;
     history := history st; balance := balance st; transferError := transferError st;
     historyFilter := historyFilter st; historySearch := historySearch st;
     biometricStatus := biometricStatus st; cameraStatus := v;
     cameraError := cameraError st; offlineScanResult := offlineScanResult st;
     offlineRecordedAt := offlineRecordedAt st; cameraStream := cameraStream st;
     tasks := tasks st |}.

Definition setCameraError (v : string) (st : AppState) : AppState :=
  {| screen := screen st; isBooting := isBooting st; userName := userName st;
     loginName := loginName st; loginPin := loginPin st; rememberMe := rememberMe st;
     loginError := loginError st; draft := draft st;
     pendingTransfer := pendingTransfer st; lastTransfer := lastTransfer st;
     history := history st; balance := balance st; transferError := transferError st;
     historyFilter := historyFilter st; historySearch := historySearch st;
     biometricStatus := biometricStatus st; cameraStatus := cameraStatus st;
     cameraError := v; offlineScanResult := offlineScanResult st;
     offlineRecordedAt := offlineRecordedAt st; cameraStream := cameraStream st;
     tasks := tasks st |}.

Definition setOfflineScanResult (v : string) (st : AppState) : AppState :=
  {| screen := screen st; isBooting := isBooting st; userName := userName st;
     loginName := loginName st; loginPin := loginPin st; rememberMe := rememberMe st;
     loginError := loginError st; draft := draft st;
     pendingTransfer := pendingTransfer st; lastTransfer := lastTransfer st;
     history := history st; balance := balance st; transferError := transferError st;
     historyFilter := historyFilter st; historySearch := historySearch st;
     biometricStatus := biometricStatus st; cameraStatus := cameraStatus st;
     cameraError := cameraError st; offlineScanResult := v;
     offlineRecordedAt := offlineRecordedAt st; cameraStream := cameraStream st;
     tasks := tasks st |}.

Definition setOfflineRecordedAt (v : option Z) (st : AppState) : AppState :=
  {| screen := screen st; isBooting := isBooting st; userName := userName st;
     loginName := loginName st; loginPin := loginPin st; rememberMe := rememberMe st;
     loginError := loginError st; draft := draft st;
     pendingTransfer := pendingTransfer st; lastTransfer := lastTransfer st;
     history := history st; balance := balance st; transferError := transferError st;
     historyFilter := historyFilter st; historySearch := historySearch st;
     biometricStatus := biometricStatus st; cameraStatus := cameraStatus st;
     cameraError := cameraError st; offlineScanResult := offlineScanResult st;
     offlineRecordedAt := v; cameraStream := cameraStream st; tasks := tasks st |}.

Definition setCameraStream (v : option MediaStream) (st : AppState) : AppState :=
  {| screen := screen st; isBooting := isBooting st; userName := userName st;
     loginName := loginName st; loginPin := loginPin st; rememberMe := rememberMe st;
     loginError := loginError st; draft := draft st;
     pendingTransfer := pendingTransfer st; lastTransfer := lastTransfer st;
     history := history st; balance := balance st; transferError := transferError st;
     historyFilter := historyFilter st; historySearch := historySearch st;
     biometricStatus := biometricStatus st; cameraStatus := cameraStatus st;
     cameraError := cameraError st; offlineScanResult := offlineScanResult st;
     offlineRecordedAt := offlineRecordedAt st; cameraStream := v; tasks := tasks st |}.

Definition setTasks (v : list Task) (st : AppState) : AppState :=
  {| screen := screen st; isBooting := isBooting st; userName := userName st;
     loginName := loginName st; loginPin := loginPin st; rememberMe := rememberMe st;
     loginError := loginError st; draft := draft st;
     pendingTransfer := pendingTransfer st; lastTransfer := lastTransfer st;
     history := history st; balance := balance st; transferError := transferError st;
     historyFilter := historyFilter st; historySearch := historySearch st;
     biometricStatus := biometricStatus st; cameraStatus := cameraStatus st;
     cameraError := cameraError st; offlineScanResult := offlineScanResult st;
     offlineRecordedAt := offlineRecordedAt st; cameraStream := cameraStream st;
     tasks := v |}.

Definition addTask (t : Task) (st : AppState) : AppState :=
  setTasks (tasks st ++ [t]) st.

(** ** Constants *)

Definition quickAmounts : list number := [ofZ 500; ofZ 1000; ofZ 2000; ofZ 5000].

Definition hour : Z := 1000 * 60 * 60.

(** [seededHistory]; [t0] is [Date.now()] when the module is loaded. *)
Definition seededHistory (t0 : Z) : list HistoryEntry.t :=
  [ HistoryEntry.mk "TP-2026-00018" "Kevin at work" "Reimbursement for tickets"
      (ofZ 4000) Direction.sent (t0 - hour * 3);
    HistoryEntry.mk "TP-2026-00017" "Asha Fernando" "Dinner split from Friday"
      (ofZ 6200) Direction.sent (t0 - hour * 26);
    HistoryEntry.mk "TP-2026-00016" "Salary" "November payroll"
      (ofZ 145000) Direction.received (t0 - hour * 72) ].

Definition defaultDraft : TransferDraft.t := TransferDraft.mk "" "" "".

(** The initial values of the cells; the boot timer is started by the first
    effect. *)
Definition initialState (t0 : Z) : AppState :=
  {| screen := Screen.login; isBooting := true; userName := "";
     loginName := "Chinthana"; loginPin := ""; rememberMe := true; loginError := "";
     draft := defaultDraft; pendingTransfer := None; lastTransfer := None;
     history := seededHistory t0; balance := ofZ 125000; transferError := "";
     historyFilter := all; historySearch := "";
     biometricStatus := Biometric.idle; cameraStatus := Camera.idle;
     cameraError := ""; offlineScanResult := ""; offlineRecordedAt := None;
     cameraStream := None; tasks := [TaskBoot] |}.

(** ** Derived values and handlers *)

(** [generateReferenceId]: [year] is [new Date().getFullYear()] and [rnd]
    the value of [Math.random()]. *)
Definition generateReferenceId (year : Z) (rnd : number) : string :=
  "TP-" ++ intToString year ++ "-" ++
  toString (Math_floor (add (ofZ 10000) (mul rnd (ofZ 90000)))).

Definition isLoggedIn (st : AppState) : bool := JsString.truthy (userName st).

(** The predicate of [filteredHistory], for the lowered and trimmed query. *)
Definition matchesFilter (f : HistoryFilter) (entry : HistoryEntry.t) : bool :=
  match f with
  | all => true
  | only d => Direction.eqb (HistoryEntry.direction entry) d
  end.

Definition matchesSearch (query : string) (entry : HistoryEntry.t) : bool :=
  negb (JsString.truthy query)
  || JsString.includes query (JsString.toLowerCase (HistoryEntry.recipient entry))
  || JsString.includes query (JsString.toLowerCase (HistoryEntry.note entry)).

Definition filterHistory (f : HistoryFilter) (search : string)
    (h : list HistoryEntry.t) : list HistoryEntry.t :=
  let query := JsString.toLowerCase (JsString.trim search) in
  filter (fun entry => matchesFilter f entry && matchesSearch query entry) h.

Definition filteredHistory (st : AppState) : list HistoryEntry.t :=
  filterHistory (historyFilter st) (historySearch st) (history st).

Definition handleLogin (st : AppState) : AppState :=
  if negb (JsString.truthy (JsString.trim (loginName st))) then
    setLoginError "Please enter your name" st
  else
    let st1 := setUserName (JsString.trim (loginName st)) st in
    let st2 := setLoginError "" st1 in
    let st3 := setScreen Screen.home st2 in
    if negb (rememberMe st) then setLoginPin "" st3 else st3.

Definition handleBack (st : AppState) : AppState :=
  match screen st with
  | Screen.transfer => setScreen Screen.home st
  | Screen.confirm => setScreen Screen.transfer st
  | Screen.history => setScreen Screen.home st
  | Screen.success => setScreen Screen.home st
  | Screen.offline => setScreen Screen.transfer st
  | Screen.offlineSuccess => setScreen Screen.transfer st
  | _ => st
  end.

(** [Number(draft.amount.toString().replace(/,/g, ""))]. *)
Definition parseAmount (amount : string) : number :=
  Number (JsString.removeCommas amount).

Definition currentDraftAmount (st : AppState) : number :=
  parseAmount (TransferDraft.amount (draft st)).

(** The Continue button is enabled when [canContinue] is truthy. *)
Definition canContinue (st : AppState) : bool :=
  JsString.truthy (JsString.trim (TransferDraft.recipient (draft st)))
  && gt (currentDraftAmount st) pZero
  && le (currentDraftAmount st) (balance st).

(** What [handleContinueToConfirm] reads from outside the component. *)
Record Clock : Type := mkClock {
  now : Z;            (* Date.now() *)
  fullYear : Z;       (* new Date().getFullYear() *)
  random : number     (* Math.random() *)
}.

Definition handleContinueToConfirm (env : Clock) (st : AppState) : AppState :=
  let amountValue := parseAmount (TransferDraft.amount (draft st)) in
  if negb (JsString.truthy (JsString.trim (TransferDraft.recipient (draft st)))) then
    setTransferError "Add a recipient name" st
  else if negb (ToBoolean amountValue) || le amountValue pZero then
    setTransferError "Enter an amount above LKR 0" st
  else if gt amountValue (balance st) then
    setTransferError "Insufficient balance" st
  else
    let st1 := setTransferError "" st in
    let detail :=
      {| TransferDetail.recipient := JsString.trim (TransferDraft.recipient (draft st));
         TransferDetail.amount := div (Math_round (mul amountValue (ofZ 100))) (ofZ 100);
         TransferDetail.note := JsString.trim (TransferDraft.note (draft st));
         TransferDetail.reference := generateReferenceId (fullYear env) (random env);
         TransferDetail.timestamp := now env |} in
    setScreen Screen.confirm (setPendingTransfer (Some detail) st1).

Definition finalizeTransfer (time : Z) (detail : TransferDetail.t) (st : AppState)
    : AppState :=
  let completed :=
    {| TransferDetail.recipient := TransferDetail.recipient detail;
       TransferDetail.amount := TransferDetail.amount detail;
       TransferDetail.note := TransferDetail.note detail;
       TransferDetail.reference := TransferDetail.reference detail;
       TransferDetail.timestamp := time |} in
  let entry :=
    {| HistoryEntry.id := TransferDetail.reference completed;
       HistoryEntry.recipient := TransferDetail.recipient completed;
       HistoryEntry.note := TransferDetail.note completed;
       HistoryEntry.amount := TransferDetail.amount completed;
       HistoryEntry.direction := Direction.sent;
       HistoryEntry.timestamp := TransferDetail.timestamp completed |} in
  let st1 := setHistory (entry :: history st) st in
  let st2 := setBalance (Math_max pZero (sub (balance st1) (TransferDetail.amount completed))) st1 in
  let st3 := setLastTransfer (Some completed) st2 in
  let st4 := setDraft defaultDraft st3 in
  let st5 := setPendingTransfer None st4 in
  let st6 := setBiometricStatus Biometric.idle st5 in
  setScreen Screen.success st6.

(** [handleStartQrScan] up to its first [await]; [supported] says whether
    [navigator.mediaDevices?.getUserMedia] is there. *)
Definition handleStartQrScan (supported : bool) (st : AppState) : AppState :=
  match cameraStatus st with
  | Camera.requesting | Camera.scanning => st
  | _ =>
      let st1 := setCameraError "" st in
      let st2 := setOfflineScanResult "" st1 in
      if negb supported then
        setCameraStatus Camera.error
          (setCameraError "Camera not supported in this browser." st2)
      else
        addTask (TaskCameraRequest (cameraStream st))
          (setCameraStatus Camera.requesting st2)
  end.

(** [stopCameraStream] as a callback created in a render whose stream cell
    held [captured]. *)
Definition stopCameraStream (captured : option MediaStream) (st : AppState) : AppState :=
  match captured with
  | Some _ => setCameraStream None st
  | None => st
  end.

Definition handleFingerprint (st : AppState) : AppState :=
  match pendingTransfer st with
  | None => setScreen Screen.transfer st
  | Some detail => addTask (TaskVerified detail) (setBiometricStatus Biometric.verifying st)
  end.

Definition handleBottomNav (next : Screen.t) (st : AppState) : AppState :=
  if negb (isLoggedIn st) then st
  else
    match next with
    | Screen.confirm | Screen.success | Screen.offline | Screen.offlineSuccess => st
    | _ => setScreen next st
    end.

(** The guard at the top of [renderScreen]. *)
Definition renderScreen (st : AppState) : AppState :=
  if negb (isLoggedIn st) && negb (Screen.eqb (screen st) Screen.login)
  then setScreen Screen.login st else st.

(** The Cancel button of the confirm screen: [() => setScreen("transfer")]. *)
Definition cancelConfirm (st : AppState) : AppState := setScreen Screen.transfer st.

(** "Send another transfer" on the success screen. *)
Definition sendAnother (st : AppState) : AppState :=
  setScreen Screen.transfer (setDraft defaultDraft st).

(** The draft inputs: [setDraft((d) => ({ ...d, field: value }))]. *)
Definition setDraftRecipient (v : string) (st : AppState) : AppState :=
  setDraft (TransferDraft.mk v (TransferDraft.amount (draft st))
              (TransferDraft.note (draft st))) st.

Definition setDraftAmount (v : string) (st : AppState) : AppState :=
  setDraft (TransferDraft.mk (TransferDraft.recipient (draft st)) v
              (TransferDraft.note (draft st))) st.

Definition setDraftNote (v : string) (st : AppState) : AppState :=
  setDraft (TransferDraft.mk (TransferDraft.recipient (draft st))
              (TransferDraft.amount (draft st)) v) st.

(** ** Scheduled callbacks *)

(** What a callback finds outside the component when it runs: the clock, and
    for the camera request the stream [getUserMedia] resolved to, if it did. *)
Record Outcome : Type := mkOutcome {
  clock : Clock;
  granted : option MediaStream
}.

Definition runTask (o : Outcome) (t : Task) (st : AppState) : AppState :=
  match t with
  | TaskBoot => setIsBooting false st
  | TaskVerified detail =>
      addTask (TaskFinalize detail) (setBiometricStatus Biometric.verified st)
  | TaskFinalize detail => finalizeTransfer (now (clock o)) detail st
  | TaskCameraRequest captured =>
      match granted o with
      | Some stream =>
          addTask (TaskScanDone captured)
            (setCameraStatus Camera.scanning (setCameraStream (Some stream) st))
      | None =>
          setCameraStatus Camera.error
            (setCameraError "Camera permission denied or unavailable." st)
      end
  | TaskScanDone captured =>
      let st1 := stopCameraStream captured st in
      let st2 := setCameraStatus Camera.idle st1 in
      let st3 :=
        setOfflineScanResult
          ("QR-" ++ toString (Math_floor (add (ofZ 100000) (mul (random (clock o)) (ofZ 900000)))))
          st2 in
      let st4 := setOfflineRecordedAt (Some (now (clock o))) st3 in
      setScreen Screen.offlineSuccess st4
  end.

(** Removes the [k]-th scheduled callback, returning it with the rest. *)
Fixpoint takeTask (k : nat) (ts : list Task) : option (Task * list Task) :=
  match ts, k with
  | [], _ => None
  | t :: ts', O => Some (t, ts')
  | t :: ts', S k' =>
      match takeTask k' ts' with
      | Some (u, rest) => Some (u, t :: rest)
      | None => None
      end
  end.

(** ** Events *)

(** Everything that can change the state: the controls the screens render,
    a scheduled callback coming due, and the clean-ups of the two camera
    effects (React runs them between events when their dependencies change;
    [stop] says whether the closure that runs had captured a stream).  An
    event is not tied to the screen that shows its control nor to the
    control being enabled, and callbacks may come due in any order: the
    event loop below allows every run of the application and more, so what
    holds in all its states holds in the application. *)
Inductive Event : Type :=
  | ChangeLoginName (v : string)
  | ChangeLoginPin (v : string)
  | ChangeRememberMe (v : bool)
  | Login
  | Back
  | GoTransfer                (* () => setScreen("transfer") *)
  | GoHistory                 (* () => setScreen("history") *)
  | GoHome                    (* () => setScreen("home") *)
  | GoOffline                 (* () => setScreen("offline") *)
  | ChangeRecipient (v : string)
  | ChangeAmount (v : string)
  | QuickAmount (k : nat)     (* the k-th quick-amount button *)
  | ChangeNote (v : string)
  | ContinueToConfirm (env : Clock)
  | Fingerprint
  | SendAnother
  | StartQrScan
  | BottomNav (next : Screen.t)
  | ChangeHistorySearch (v : string)
  | ChangeHistoryFilter (f : HistoryFilter)
  | Due (k : nat) (o : Outcome)
  | CleanupOffline (stop : bool)
  | CleanupStream (stop : bool).

(** The handler an event runs; [supported] is the camera capability of the
    runtime. *)
Definition dispatch (supported : bool) (ev : Event) (st : AppState) : AppState :=
  match ev with
  | ChangeLoginName v => setLoginName v st
  | ChangeLoginPin v => setLoginPin v st
  | ChangeRememberMe v => setRememberMe v st
  | Login => handleLogin st
  | Back => handleBack st
  | GoTransfer => setScreen Screen.transfer st
  | GoHistory => setScreen Screen.history st
  | GoHome => setScreen Screen.home st
  | GoOffline => setScreen Screen.offline st
  | ChangeRecipient v => setDraftRecipient v st
  | ChangeAmount v => setDraftAmount v st
  | QuickAmount k =>
      match nth_error quickAmounts k with
      | Some amt => setDraftAmount (toString amt) st
      | None => st
      end
  | ChangeNote v => setDraftNote v st
  | ContinueToConfirm env => handleContinueToConfirm env st
  | Fingerprint => handleFingerprint st
  | SendAnother => sendAnother st
  | StartQrScan => handleStartQrScan supported st
  | BottomNav next => handleBottomNav next st
  | ChangeHistorySearch v => setHistorySearch v st
  | ChangeHistoryFilter f => setHistoryFilter f st
  | Due k o =>
      match takeTask k (tasks st) with
      | Some (t, rest) => runTask o t (setTasks rest st)
      | None => st
      end
  | CleanupOffline stop =>
      setCameraStatus Camera.idle (if stop then setCameraStream None st else st)
  | CleanupStream stop => if stop then setCameraStream None st else st
  end.

(** One turn of the event loop: the handler runs, then the component renders
    and [renderScreen] applies its guard. *)
Definition step (supported : bool) (ev : Event) (st : AppState) : AppState :=
  renderScreen (dispatch supported ev st).

(** The states the application can be in, in a runtime with the given camera
    capability, loaded at time [t0]. *)
Inductive reachable (supported : bool) (t0 : Z) : AppState -> Prop :=
  | reachable_init : reachable supported t0 (initialState t0)
  | reachable_step : forall st ev,
      reachable supported t0 st -> reachable supported t0 (step supported ev st).

(** ** Vocabulary of the specification *)

(** "Blank": empty or made of white space only. *)
Fixpoint isBlank (s : string) : bool :=
  match s with
  | EmptyString => true
  | String c s' => JsString.isWhiteSpace c && isBlank s'
  end.

(** "A positive finite number", in the specification's words. *)
Definition isPositiveFinite (v : number) : bool :=
  match v with
  | S754_finite false _ _ => true
  | _ => false
  end.

(** A number above zero, finite or not. *)
Definition isPositive (v : number) : bool :=
  match v with
  | S754_finite false _ _ | S754_infinity false => true
  | _ => false
  end.

(** The three validation messages. *)
Definition EmptyRecipient : string := "Add a recipient name".
Definition InvalidAmount : string := "Enter an amount above LKR 0".
Definition InsufficientBalance : string := "Insufficient balance".

(** [q] is a substring of [s] up to letter case. *)
Definition includesIgnoringCase (q s : string) : bool :=
  JsString.includes (JsString.toLowerCase q) (JsString.toLowerCase s).

(** The history view as the specification words it: the direction filter is
    "all" or equals the entry's direction, and the query is blank or occurs,
    ignoring case, in the recipient or in the note. *)
Definition viewPredicate (f : HistoryFilter) (query : string)
    (entry : HistoryEntry.t) : bool :=
  match f with
  | all => true
  | only d => Direction.eqb (HistoryEntry.direction entry) d
  end
  && (isBlank query
      || includesIgnoringCase query (HistoryEntry.recipient entry)
      || includesIgnoringCase query (HistoryEntry.note entry)).

(** [l1] is [l2] with some elements left out, the others in their order. *)
Inductive Subsequence {A : Type} : list A -> list A -> Prop :=
  | Subsequence_nil : Subsequence [] []
  | Subsequence_keep : forall x l1 l2, Subsequence l1 l2 -> Subsequence (x :: l1) (x :: l2)
  | Subsequence_drop : forall x l1 l2, Subsequence l1 l2 -> Subsequence l1 (x :: l2).

(** Runs a sequence of events from a state. *)
Definition run (supported : bool) (evs : list Event) (st : AppState) : AppState :=
  fold_left (fun s ev => step supported ev s) evs st.

(** ** Vocabulary of binary64 arithmetic *)

(** The number of binary digits of a mantissa. *)
Definition digits (p : positive) : Z := Zpos (digits2_pos p).

(** Round to nearest, ties to even, of [p / 2^n]. *)
Definition rne (p n : Z) : Z :=
  let q := p / 2 ^ n in
  let rem := p mod 2 ^ n in
  if 2 * rem <? 2 ^ n then q
  else if 2 * rem =? 2 ^ n then (if Z.even q then q else q + 1)
  else q + 1.

(** The value [m * 2^e] if its exponent is within range ([emax - prec] is
    971), the infinity otherwise. *)
Definition mk (sx : bool) (m : positive) (e : Z) : spec_float :=
  if e <=? 971 then S754_finite sx m e else S754_infinity sx.

(** The value of a rounded mantissa [q] at exponent [t]; a mantissa that the
    rounding carried up to [2^53] is written [2^52] one exponent higher. *)
Definition norm (sx : bool) (q : Z) (t : Z) : spec_float :=
  match q with
  | Z0 => S754_zero sx
  | Zpos m => if Zpos m <? 2 ^ 53 then mk sx m t else mk sx (Z.to_pos (2 ^ 52)) (t + 1)
  | Zneg _ => S754_nan
  end.

(** [e] is the exponent binary64 gives to a mantissa of this length. *)
Definition canonical (m : positive) (e : Z) : Prop := fexp prec emax (digits m + e) = e.

(** A finite value is a binary64 value: canonical, exponent within range. *)
Definition validFinite (x : spec_float) : Prop :=
  match x with
  | S754_finite _ m e => canonical m e /\ e <= 971
  | _ => True
  end.

(** [m1 * 2^e1 <= m2 * 2^e2], stated on integers by bringing both sides to
    the smaller exponent. *)
Definition vle (m1 e1 m2 e2 : Z) : Prop :=
  m1 * 2 ^ (e1 - Z.min e1 e2) <= m2 * 2 ^ (e2 - Z.min e1 e2).

(** [x] is +0 or a positive finite value at most [M * 2^E]. *)
Definition atMost (x : spec_float) (M E : Z) : Prop :=
  match x with
  | S754_zero false => True
  | S754_finite false m e => vle (Zpos m) e M E
  | _ => False
  end.

(** [x] is +Infinity or a positive finite value at least [M * 2^E]. *)
Definition atLeastOrInf (x : spec_float) (M E : Z) : Prop :=
  match x with
  | S754_finite false m e => vle M E (Zpos m) e
  | S754_infinity false => True
  | _ => False
  end.

(** Not NaN and not negative: +0, a positive finite value or +Infinity. *)
Definition nonNegative (x : spec_float) : Prop :=
  match x with
  | S754_zero false | S754_finite false _ _ | S754_infinity false => True
  | _ => False
  end.

(** -0, a negative finite value or -Infinity. *)
Definition negativeSign (x : spec_float) : Prop :=
  match x with
  | S754_zero true | S754_finite true _ _ | S754_infinity true => True
  | _ => False
  end.

(** Not NaN, and with the sign bit [sx]. *)
Definition hasSign (sx : bool) (x : spec_float) : Prop :=
  match x with
  | S754_zero s | S754_finite s _ _ | S754_infinity s => s = sx
  | S754_nan => False
  end.

(** A balance is +0 or a positive, valid, finite value. *)
Definition goodBalance (b : number) : Prop :=
  match b with
  | S754_zero false => True
  | S754_finite false m e => canonical m e /\ e <= 971
  | _ => False
  end.

(** What [Math.random()] returns: a valid value with [0 <= rnd < 1]. *)
Definition isUnitInterval (rnd : number) : bool :=
  valid_binary prec emax rnd && le pZero rnd && lt rnd (ofZ 1).

(** The mantissas of 90000, 100000 and 10000. *)
Definition K90 : positive := 6184752906240000.   (* 90000 * 2^36 *)
Definition K100 : positive := 6871947673600000.  (* 100000 * 2^36 *)
Definition K10 : positive := 5497558138880000.   (* 10000 * 2^39 *)

(** A string of exactly five decimal digits, the first one not 0. *)
Definition isFiveDigits (s : string) : bool :=
  match s with
  | String a (String b (String c (String d (String e EmptyString)))) =>
      isDigit a && isDigit b && isDigit c && isDigit d && isDigit e
      && negb (Ascii.eqb a "0"%char)
  | _ => false
  end.

(** ** Invariants *)

(** The amounts kept in the pending cell and in the scheduled callbacks. *)
Definition taskAmountOk (t : Task) : Prop :=
  match t with
  | TaskVerified detail | TaskFinalize detail => nonNegative (TransferDetail.amount detail)
  | _ => True
  end.

(** What the wallet keeps true: the balance is +0 or a positive valid finite
    value, and no staged amount is NaN or negative. *)
Definition walletInvariant (st : AppState) : Prop :=
  goodBalance (balance st)
  /\ (forall detail, pendingTransfer st = Some detail ->
        nonNegative (TransferDetail.amount detail))
  /\ Forall taskAmountOk (tasks st).

(** The callbacks of the offline scan. *)
Definition isCameraTask (t : Task) : bool :=
  match t with
  | TaskCameraRequest _ | TaskScanDone _ => true
  | _ => false
  end.

(** What holds all along in a runtime without [getUserMedia]: the camera is
    never requested, so no stream, no scan result and no camera callback
    ever exists. *)
Definition cameraUntouched (st : AppState) : Prop :=
  (cameraStatus st = Camera.idle \/ cameraStatus st = Camera.error)
  /\ cameraStream st = None
  /\ offlineScanResult st = ""
  /\ offlineRecordedAt st = None
  /\ existsb isCameraTask (tasks st) = false.

(** ** Further derived values of the component *)

(** [showBack] of [renderHeader]: the screens whose header shows the back
    arrow. *)
Definition showBack (st : AppState) : bool :=
  match screen st with
  | Screen.transfer | Screen.confirm | Screen.history | Screen.success
  | Screen.offline | Screen.offlineSuccess => true
  | _ => false
  end.

(** [recentActivity]: [history.slice(0, 3)]. *)
Definition recentActivity (st : AppState) : list HistoryEntry.t := firstn 3 (history st).


(** The transfer screen shows "Insufficient balance" under the amount when
    [currentDraftAmount > balance]. *)
Definition showsInsufficientHint (st : AppState) : bool :=
  gt (currentDraftAmount st) (balance st).

(** The approve button of the confirm screen is disabled while the status is
    verifying. *)
Definition fingerprintDisabled (st : AppState) : bool :=
  match biometricStatus st with Biometric.verifying => true | _ => false end.

(** The detail as [finalizeTransfer] completes it at [time]. *)
Definition completedAt (time : Z) (detail : TransferDetail.t) : TransferDetail.t :=
  {| TransferDetail.recipient := TransferDetail.recipient detail;
     TransferDetail.amount := TransferDetail.amount detail;
     TransferDetail.note := TransferDetail.note detail;
     TransferDetail.reference := TransferDetail.reference detail;
     TransferDetail.timestamp := time |}.

(** The history entry [finalizeTransfer] builds from a completed detail. *)
Definition entryOf (completed : TransferDetail.t) : HistoryEntry.t :=
  {| HistoryEntry.id := TransferDetail.reference completed;
     HistoryEntry.recipient := TransferDetail.recipient completed;
     HistoryEntry.note := TransferDetail.note completed;
     HistoryEntry.amount := TransferDetail.amount completed;
     HistoryEntry.direction := Direction.sent;
     HistoryEntry.timestamp := TransferDetail.timestamp completed |}.

(** ** Further vocabulary *)


(** The events that run a scheduled callback. *)
Definition isDue (ev : Event) : bool :=
  match ev with Due _ _ => true | _ => false end.

(** The callback of the boot timer. *)
Definition isBootTask (t : Task) : bool :=
  match t with TaskBoot => true | _ => false end.

(** The number of boot timers still scheduled. *)
Definition bootTimers (st : AppState) : nat :=
  List.length (filter isBootTask (tasks st)).

(** A string of decimal digits only. *)
Fixpoint allDigits (s : string) : bool :=
  match s with
  | EmptyString => true
  | String c s' => isDigit c && allDigits s'
  end.

(** A string of commas and white space only. *)
Fixpoint onlyCommasAndSpace (s : string) : bool :=
  match s with
  | EmptyString => true
  | String c s' =>
      (Ascii.eqb c ","%char || JsString.isWhiteSpace c) && onlyCommasAndSpace s'
  end.



(** ** Further invariants *)


(** What the history keeps true: the seeded entries stay at its end, every
    entry in front of them is a sent transfer whose amount is not NaN and
    not negative, and the last transfer is the newest of them. *)
Definition ledgerInvariant (t0 : Z) (st : AppState) : Prop :=
  exists added,
    history st = (added ++ seededHistory t0)%list
    /\ Forall (fun e => HistoryEntry.direction e = Direction.sent
                        /\ nonNegative (HistoryEntry.amount e)) added
    /\ match lastTransfer st with
       | None => added = []
       | Some completed => exists older, added = entryOf completed :: older
       end.

(** ** Initials *)

(** [toUpperCase] of one Latin-1 code unit, where the result is again one
    Latin-1 code unit: a-z and 0xE0-0xFE (without the division sign 0xF7)
    move down by 32.  The micro sign (0xB5), the sharp s (0xDF) and the y
    with diaeresis (0xFF) have an upper case of two letters or outside
    Latin-1; they are outside the fragment. *)
Definition upperChar (c : ascii) : option ascii :=
  let n := N_of_ascii c in
  if ((n =? 181) || (n =? 223) || (n =? 255))%N then None
  else if ((97 <=? n) && (n <=? 122) || (224 <=? n) && (n <=? 254) && negb (n =? 247))%N
  then Some (ascii_of_N (n - 32)) else Some c.

Fixpoint toUpperCase (s : string) : option string :=
  match s with
  | EmptyString => Some EmptyString
  | String c s' =>
      match upperChar c, toUpperCase s' with
      | Some u, Some t => Some (String u t)
      | _, _ => None
      end
  end.

(** [s.split(" ")]: the parts between the spaces; never the empty list. *)
Fixpoint splitSpace (s : string) : list string :=
  match s with
  | EmptyString => [EmptyString]
  | String c s' =>
      if Ascii.eqb c " "%char then EmptyString :: splitSpace s'
      else match splitSpace s' with
           | part :: parts => String c part :: parts
           | [] => [String c EmptyString]
           end
  end.

(** [s[0]]: the first code unit, or [undefined]. *)
Definition charAt0 (s : string) : option ascii :=
  match s with
  | String c _ => Some c
  | EmptyString => None
  end.

(** What [+] makes of [s[0]]: the unit as a string, or the text of
    [undefined]. *)
Definition unitOrUndefined (c : option ascii) : string :=
  match c with
  | Some a => String a EmptyString
  | None => "undefined"
  end.

(** [initialsFromName]; [None] when a case mapping leaves the fragment. *)
Definition initialsFromName (name : string) : option string :=
  if negb (JsString.truthy name) then Some "U"
  else
    match splitSpace (JsString.trim name) with
    | [] => None
    | [part] =>
        match charAt0 part with
        | Some c =>
            match upperChar c with
            | Some u => Some (String u EmptyString)
            | None => None
            end
        | None => Some "U"
        end
    | first :: rest =>
        toUpperCase (unitOrUndefined (charAt0 first)
                     ++ unitOrUndefined (charAt0 (List.last rest EmptyString)))
    end.

(** The string has a space in it. *)
Fixpoint hasSpace (s : string) : bool :=
  match s with
  | EmptyString => false
  | String c s' => Ascii.eqb c " "%char || hasSpace s'
  end.

(** A name as the application stores it: not blank, no white space around. *)
Definition storedName (s : string) : Prop :=
  isBlank s = false /\ JsString.trim s = s.

(** The names kept in the pending cell, the callbacks and the history. *)
Definition taskNameOk (t : Task) : Prop :=
  match t with
  | TaskVerified detail | TaskFinalize detail => storedName (TransferDetail.recipient detail)
  | _ => True
  end.

Definition namesInvariant (st : AppState) : Prop :=
  (userName st = "" \/ storedName (userName st))
  /\ (forall detail, pendingTransfer st = Some detail ->
        storedName (TransferDetail.recipient detail))
  /\ Forall taskNameOk (tasks st)
  /\ Forall (fun e => storedName (HistoryEntry.recipient e)) (history st).

(** ** Scenarios *)

Definition noon : Clock := {| now := 1000; fullYear := 2026; random := pZero |}.

(** Log in, open the transfer screen and fill the draft. *)
Definition fillDraft (recipient amount note : string) : list Event :=
  [Login; GoTransfer; ChangeRecipient recipient; ChangeAmount amount; ChangeNote note].

(** The draft of the first concrete scenario: Asha, "2000", "lunch". *)
Definition draftedState : AppState :=
  run true (fillDraft "Asha" "2000" "lunch") (initialState 0).

(** The same transfer staged and waiting on the confirm screen. *)
Definition stagedState : AppState :=
  step true (ContinueToConfirm noon) draftedState.

(** The draft of the second concrete scenario, over a balance of 500. *)
Definition lowBalanceState : AppState :=
  setBalance (ofZ 500) (run true (fillDraft "Asha" "600" "") (initialState 0)).

(** A draft whose amount reads "Infinity". *)
Definition infinityState : AppState :=
  run true (fillDraft "Asha" "Infinity" "") (initialState 0).

(** The detail staged in [stagedState]; [noon] draws the reference 10000. *)
Definition stagedDetail : TransferDetail.t :=
  {| TransferDetail.recipient := "Asha";
     TransferDetail.amount := ofZ 2000;
     TransferDetail.note := "lunch";
     TransferDetail.reference := "TP-2026-10000";
     TransferDetail.timestamp := 1000 |}.

(** What a callback finds one second later, the camera being denied. *)
Definition later : Outcome :=
  {| clock := {| now := 2000; fullYear := 2026; random := pZero |}; granted := None |}.


(** * Properties *)

(** ** Strings *)

Section StringFacts.

Lemma trimStart_blank (s : string) : isBlank s = true -> JsString.trimStart s = "".
Proof.
  induction s as [|c s IH]; simpl; [reflexivity|].
  intros H. apply andb_true_iff in H as [Hc Hs].
  rewrite Hc. auto.
Qed.

Lemma trimStart_not_blank (s : string) :
  isBlank s = false ->
  exists c t, JsString.trimStart s = String c t /\ JsString.isWhiteSpace c = false.
Proof.
  induction s as [|c s IH]; simpl; [discriminate|].
  destruct (JsString.isWhiteSpace c) eqn:Hc; simpl.
  - exact IH.
  - intros _. exists c, s. split; [reflexivity | assumption].
Qed.

Lemma trimEnd_keeps_head (c : ascii) (t : string) :
  JsString.isWhiteSpace c = false -> JsString.trimEnd (String c t) <> "".
Proof.
  intros Hc. simpl. destruct (JsString.trimEnd t); [rewrite Hc|]; discriminate.
Qed.

Lemma trim_blank (s : string) : JsString.trim s = "" <-> isBlank s = true.
Proof.
  unfold JsString.trim. split.
  - intros H. destruct (isBlank s) eqn:Hb; [reflexivity|].
    destruct (trimStart_not_blank s Hb) as (c & t & Hst & Hc).
    rewrite Hst in H. now apply trimEnd_keeps_head in H.
  - intros H. now rewrite (trimStart_blank s H).
Qed.

Lemma truthy_trim (s : string) : JsString.truthy (JsString.trim s) = negb (isBlank s).
Proof.
  destruct (isBlank s) eqn:Hb.
  - apply trim_blank in Hb. now rewrite Hb.
  - destruct (JsString.trim s) eqn:Ht; [|reflexivity].
    apply trim_blank in Ht. congruence.
Qed.

Lemma append_assoc (a b c : string) : ((a ++ b) ++ c = a ++ (b ++ c))%string.
Proof. induction a as [|x a IH]; simpl; [reflexivity | now rewrite IH]. Qed.

Lemma append_empty_r (a : string) : (a ++ "" = a)%string.
Proof. induction a as [|x a IH]; simpl; [reflexivity | now rewrite IH]. Qed.

Lemma isBlank_trim (s : string) : isBlank (JsString.trim s) = isBlank s.
Proof.
  destruct (isBlank s) eqn:Hb.
  - apply trim_blank in Hb. now rewrite Hb.
  - destruct (trimStart_not_blank s Hb) as (c & t & Hst & Hc).
    unfold JsString.trim. rewrite Hst. simpl.
    destruct (JsString.trimEnd t); rewrite ?Hc; simpl; now rewrite Hc.
Qed.

Lemma toLowerCase_truthy (s : string) :
  JsString.truthy (JsString.toLowerCase s) = JsString.truthy s.
Proof. now destruct s. Qed.

End StringFacts.

(** ** Binary64 arithmetic *)

Section Binary64.

Lemma fexp_eq (e : Z) : fexp prec emax e = Z.max (e - 53) (-1074).
Proof. reflexivity. Qed.

Lemma digits_pos (p : positive) : 0 < digits p.
Proof. unfold digits. lia. Qed.

Lemma digits_bounds (p : positive) : 2 ^ (digits p - 1) <= Zpos p < 2 ^ digits p.
Proof.
  unfold digits. induction p as [p IH|p IH|]; simpl digits2_pos.
  - rewrite Pos2Z.inj_succ.
    replace (Z.succ (Zpos (digits2_pos p)) - 1) with (Z.succ (Zpos (digits2_pos p) - 1)) by lia.
    rewrite !Z.pow_succ_r by lia. lia.
  - rewrite Pos2Z.inj_succ.
    replace (Z.succ (Zpos (digits2_pos p)) - 1) with (Z.succ (Zpos (digits2_pos p) - 1)) by lia.
    rewrite !Z.pow_succ_r by lia. lia.
  - simpl. lia.
Qed.

Lemma digits_unique (p : positive) (d : Z) :
  2 ^ (d - 1) <= Zpos p < 2 ^ d -> digits p = d.
Proof.
  intros [Hl Hu]. pose proof (digits_bounds p) as [Hl' Hu']. pose proof (digits_pos p).
  assert (0 < d).
  { destruct (Z.ltb_spec 0 d); [assumption|].
    assert (2 ^ d <= 2 ^ 0) by (destruct (Z.eq_dec d 0) as [->|]; [lia|rewrite Z.pow_neg_r by lia; simpl; lia]).
    simpl in *. lia. }
  destruct (Z.lt_trichotomy (digits p) d) as [Hlt|[Heq|Hgt]]; [|assumption|].
  - assert (2 ^ digits p <= 2 ^ (d - 1)) by (apply Z.pow_le_mono_r; lia). lia.
  - assert (2 ^ d <= 2 ^ (digits p - 1)) by (apply Z.pow_le_mono_r; lia). lia.
Qed.

Lemma digits_lt_pow (p : positive) (k : Z) : 0 <= k -> Zpos p < 2 ^ k -> digits p <= k.
Proof.
  intros Hk H. pose proof (digits_bounds p) as [Hl _]. pose proof (digits_pos p).
  destruct (Z.le_gt_cases (digits p) k); [assumption|].
  assert (2 ^ k <= 2 ^ (digits p - 1)) by (apply Z.pow_le_mono_r; lia). lia.
Qed.

Lemma digits_ge_pow (p : positive) (k : Z) : 2 ^ k <= Zpos p -> k < digits p.
Proof.
  intros H. pose proof (digits_bounds p) as [_ Hu]. pose proof (digits_pos p).
  destruct (Z.lt_ge_cases k (digits p)); [assumption|].
  assert (2 ^ digits p <= 2 ^ k) by (apply Z.pow_le_mono_r; lia). lia.
Qed.

Lemma digits_shift (p : positive) (k : Z) (q : positive) :
  0 <= k -> Zpos q = Zpos p * 2 ^ k -> digits q = digits p + k.
Proof.
  intros Hk Hq. apply digits_unique. pose proof (digits_bounds p) as [Hl Hu].
  pose proof (digits_pos p).
  replace (digits p + k - 1) with (digits p - 1 + k) by lia.
  rewrite !Z.pow_add_r by lia. rewrite Hq.
  assert (0 < 2 ^ k) by (apply Z.pow_pos_nonneg; lia). nia.
Qed.

(* iter_pos *)
Lemma iter_pos_nat {A : Type} (f : A -> A) (p : positive) (x : A) :
  iter_pos f p x = Nat.iter (Pos.to_nat p) f x.
Proof.
  revert x. induction p as [p IH|p IH|]; intros x.
  - rewrite Pos2Nat.inj_xI. cbn [iter_pos]. rewrite !IH.
    replace (S (2 * Pos.to_nat p))%nat with (Pos.to_nat p + S (Pos.to_nat p))%nat by lia.
    rewrite Nat.iter_add. f_equal. simpl. now rewrite Nat.iter_swap.
  - rewrite Pos2Nat.inj_xO. cbn [iter_pos]. rewrite !IH.
    replace (2 * Pos.to_nat p)%nat with (Pos.to_nat p + Pos.to_nat p)%nat by lia.
    now rewrite Nat.iter_add.
  - reflexivity.
Qed.

Lemma shr_1_spec (m : Z) (r s : bool) :
  0 <= m ->
  shr_1 {| shr_m := m; shr_r := r; shr_s := s |}
  = {| shr_m := m / 2; shr_r := Z.odd m; shr_s := r || s |}.
Proof.
  intros Hm. rewrite <- Z.div2_div.
  destruct m as [|[p|p|]|]; try reflexivity. lia.
Qed.

Lemma shr_iter_spec (k : nat) (m : Z) (r s : bool) :
  0 <= m ->
  Nat.iter (S k) shr_1 {| shr_m := m; shr_r := r; shr_s := s |}
  = {| shr_m := m / 2 ^ (Z.of_nat k + 1);
       shr_r := Z.odd (m / 2 ^ Z.of_nat k);
       shr_s := r || s || negb (m mod 2 ^ Z.of_nat k =? 0) |}.
Proof.
  intros Hm. induction k as [|k IH].
  - change (Nat.iter 1 shr_1 ?x) with (shr_1 x). rewrite shr_1_spec by assumption.
    simpl Z.of_nat. rewrite Z.pow_0_r, Z.div_1_r, Z.mod_1_r. simpl.
    now rewrite orb_false_r.
  - change (Nat.iter (S (S k)) shr_1 ?x) with (shr_1 (Nat.iter (S k) shr_1 x)).
    rewrite IH. rewrite shr_1_spec.
    2:{ apply Z.div_pos; [assumption | apply Z.pow_pos_nonneg; lia]. }
    assert (Hp : 0 < 2 ^ Z.of_nat k) by (apply Z.pow_pos_nonneg; lia).
    f_equal.
    + rewrite Z.div_div by lia. f_equal.
      rewrite Nat2Z.inj_succ.
      replace (Z.succ (Z.of_nat k) + 1) with (Z.of_nat k + 1 + 1) by lia.
      now rewrite (Z.pow_add_r 2 (Z.of_nat k + 1) 1) by lia.
    + f_equal. f_equal. rewrite Nat2Z.inj_succ. lia.
    + rewrite Nat2Z.inj_succ, Z.pow_succ_r by lia.
      rewrite (Z.mul_comm 2), Z.rem_mul_r by lia.
      set (a := m mod 2 ^ Z.of_nat k). set (b := m / 2 ^ Z.of_nat k).
      assert (Ha : 0 <= a < 2 ^ Z.of_nat k) by (apply Z.mod_pos_bound; lia).
      rewrite (Zodd_mod b).
      pose proof (Z.mod_pos_bound b 2 ltac:(lia)) as Hb.
      destruct (Z.eqb_spec a 0) as [Ea|Ea];
        destruct (Z.eqb_spec (b mod 2) 1) as [Eb|Eb];
        destruct (Z.eqb_spec (a + 2 ^ Z.of_nat k * (b mod 2)) 0) as [Ec|Ec];
        destruct r, s; simpl; try reflexivity; try nia.
Qed.

Lemma round_shr (m : Z) (e : Z) (n : positive) :
  0 <= m ->
  let '(mrs, e') := shr {| shr_m := m; shr_r := false; shr_s := false |} e (Zpos n) in
  round_nearest_even (shr_m mrs) (loc_of_shr_record mrs) = rne m (Zpos n)
  /\ e' = e + Zpos n.
Proof.
  intros Hm. unfold shr. split; [|reflexivity].
  rewrite iter_pos_nat.
  destruct (Pos2Nat.is_succ n) as [k Hk]. rewrite Hk.
  rewrite shr_iter_spec by assumption.
  assert (Hn : Zpos n = Z.of_nat k + 1) by lia.
  unfold rne. rewrite Hn.
  assert (Hp : 0 < 2 ^ Z.of_nat k) by (apply Z.pow_pos_nonneg; lia).
  rewrite Z.pow_add_r by lia. change (2 ^ 1) with 2.
  rewrite Z.rem_mul_r by lia.
  set (a := m mod 2 ^ Z.of_nat k). set (b := m / 2 ^ Z.of_nat k).
  assert (Ha : 0 <= a < 2 ^ Z.of_nat k) by (apply Z.mod_pos_bound; lia).
  pose proof (Z.mod_pos_bound b 2 ltac:(lia)) as Hb.
  rewrite <- Z.div_div by lia. fold b.
  simpl shr_m. unfold loc_of_shr_record. simpl orb.
  rewrite (Zodd_mod b).
  destruct (Z.eqb_spec (b mod 2) 1) as [Eb|Eb];
    destruct (Z.eqb_spec a 0) as [Ea|Ea]; simpl negb; cbv iota; unfold round_nearest_even;
    destruct (Z.ltb_spec (2 * (a + 2 ^ Z.of_nat k * (b mod 2))) (2 ^ Z.of_nat k * 2));
    destruct (Z.eqb_spec (2 * (a + 2 ^ Z.of_nat k * (b mod 2))) (2 ^ Z.of_nat k * 2));
    try reflexivity; try nia.
Qed.

Lemma pow2_pos (n : Z) : 0 <= n -> 0 < 2 ^ n.
Proof. intros. apply Z.pow_pos_nonneg; lia. Qed.

Lemma rne_bracket (p n : Z) :
  0 <= n ->
  (rne p n = p / 2 ^ n /\ 2 * (p mod 2 ^ n) <= 2 ^ n)
  \/ (rne p n = p / 2 ^ n + 1 /\ 2 ^ n <= 2 * (p mod 2 ^ n)).
Proof.
  intros Hn. unfold rne.
  destruct (Z.ltb_spec (2 * (p mod 2 ^ n)) (2 ^ n)); [left; lia|].
  destruct (Z.eqb_spec (2 * (p mod 2 ^ n)) (2 ^ n)).
  - destruct (Z.even _); [left|right]; lia.
  - right; lia.
Qed.

Lemma rne_nonneg (p n : Z) : 0 <= p -> 0 <= n -> 0 <= rne p n.
Proof.
  intros Hp Hn. pose proof (pow2_pos n Hn).
  assert (0 <= p / 2 ^ n) by (apply Z.div_pos; lia).
  destruct (rne_bracket p n Hn) as [[-> _]|[-> _]]; lia.
Qed.

(** Bounds that are whole numbers of result units survive the rounding. *)
Lemma rne_upper (p n B : Z) : 0 <= n -> p <= B * 2 ^ n -> rne p n <= B.
Proof.
  intros Hn Hb. pose proof (pow2_pos n Hn) as H2.
  pose proof (Z.div_mod p (2 ^ n) ltac:(lia)) as Hdm.
  pose proof (Z.mod_pos_bound p (2 ^ n) H2) as Hr.
  destruct (rne_bracket p n Hn) as [[-> _]|[-> Hh]]; nia.
Qed.

Lemma rne_lower (p n C : Z) : 0 <= n -> C * 2 ^ n <= p -> C <= rne p n.
Proof.
  intros Hn Hb. pose proof (pow2_pos n Hn) as H2.
  pose proof (Z.div_mod p (2 ^ n) ltac:(lia)) as Hdm.
  pose proof (Z.mod_pos_bound p (2 ^ n) H2) as Hr.
  destruct (rne_bracket p n Hn) as [[-> _]|[-> Hh]]; nia.
Qed.

Lemma fexp_ge_emin (d : Z) : -1074 <= fexp prec emax d.
Proof. rewrite fexp_eq. lia. Qed.

Lemma fexp_mono (d1 d2 : Z) : d1 <= d2 -> fexp prec emax d1 <= fexp prec emax d2.
Proof. rewrite !fexp_eq. lia. Qed.

Lemma shr_fexp_exact_pos (p : positive) (e : Z) :
  shr_fexp prec emax (Zpos p) e loc_Exact
  = shr {| shr_m := Zpos p; shr_r := false; shr_s := false |} e
      (fexp prec emax (digits p + e) - e).
Proof. reflexivity. Qed.

Lemma binary_round_aux_exact (sx : bool) (p : positive) (e : Z) :
  let t := fexp prec emax (digits p + e) in
  binary_round_aux prec emax sx (Zpos p) e loc_Exact
  = if t <=? e then mk sx p e else norm sx (rne (Zpos p) (t - e)) t.
Proof.
  intros t. unfold binary_round_aux. rewrite shr_fexp_exact_pos. fold t.
  destruct (Z.leb_spec t e) as [Hle|Hlt].
  - assert (Hs : shr {| shr_m := Zpos p; shr_r := false; shr_s := false |} e (t - e)
                 = ({| shr_m := Zpos p; shr_r := false; shr_s := false |}, e)).
    { unfold shr. destruct (t - e) eqn:E; try reflexivity. lia. }
    rewrite Hs. simpl shr_m. simpl loc_of_shr_record. simpl round_nearest_even.
    rewrite shr_fexp_exact_pos. fold t. rewrite Hs. reflexivity.
  - destruct (t - e) as [|n|n] eqn:En; try lia.
    pose proof (round_shr (Zpos p) e n ltac:(lia)) as Hr.
    destruct (shr _ e (Zpos n)) as [mrs e'] eqn:Hshr.
    destruct Hr as [Hr He']. rewrite Hr. subst e'.
    replace (e + Zpos n) with t by lia.
    pose proof (rne_nonneg (Zpos p) (Zpos n) ltac:(lia) ltac:(lia)) as Hq0.
    (* the rounded mantissa is at most 2^53 *)
    assert (Hq53 : rne (Zpos p) (Zpos n) <= 2 ^ 53).
    { apply rne_upper; [lia|].
      pose proof (digits_bounds p) as [_ Hu]. pose proof (digits_pos p).
      assert (Ht : digits p + e - 53 <= t) by (unfold t; rewrite fexp_eq; lia).
      rewrite <- Z.pow_add_r by lia.
      apply Z.lt_le_incl. eapply Z.lt_le_trans; [exact Hu|].
      apply Z.pow_le_mono_r; lia. }
    pose proof (fexp_ge_emin (digits p + e)) as Htmin. fold t in Htmin.
    destruct (rne (Zpos p) (Zpos n)) as [|q|q] eqn:Eq; try lia.
    + (* zero *)
      unfold shr_fexp. simpl Zdigits2. simpl shr_record_of_loc.
      assert (Hz : fexp prec emax (0 + t) - t <= 0) by (rewrite fexp_eq; lia).
      unfold shr. destruct (fexp prec emax (0 + t) - t); try lia; reflexivity.
    + rewrite shr_fexp_exact_pos. unfold norm.
      destruct (Z.ltb_spec (Zpos q) (2 ^ 53)) as [Hq|Hq].
      * assert (Hd : digits q <= 53) by (apply digits_lt_pow; lia).
        assert (Hz : fexp prec emax (digits q + t) - t <= 0) by (rewrite fexp_eq; lia).
        unfold shr. destruct (fexp prec emax (digits q + t) - t); try lia; reflexivity.
      * assert (Hqe : Zpos q = 2 ^ 53) by lia.
        assert (Hq' : q = Z.to_pos (2 ^ 53)) by (rewrite <- Hqe; reflexivity).
        subst q. 
        assert (Hz : fexp prec emax (digits (Z.to_pos (2 ^ 53)) + t) - t = 1).
        { rewrite fexp_eq. change (digits (Z.to_pos (2 ^ 53))) with 54. lia. }
        rewrite Hz. unfold shr. change (Zpos 1) with 1.
        change (iter_pos shr_1 1 ?x) with (shr_1 x).
        reflexivity.
Qed.

Lemma iter_xO_spec (p d : positive) : Zpos (Pos.iter xO p d) = Zpos p * 2 ^ Zpos d.
Proof.
  induction d as [|d IH] using Pos.peano_ind.
  - simpl. lia.
  - rewrite Pos.iter_succ, Pos2Z.inj_succ, Z.pow_succ_r by lia.
    rewrite Pos2Z.inj_xO, IH. lia.
Qed.

Lemma shl_align_spec (p : positive) (e t : Z) :
  shl_align p e t
  = if t <? e then (Z.to_pos (Zpos p * 2 ^ (e - t)), t) else (p, e).
Proof.
  unfold shl_align. destruct (Z.ltb_spec t e) as [H|H].
  - destruct (t - e) as [|d|d] eqn:E; try lia.
    f_equal. apply Pos2Z.inj. rewrite iter_xO_spec.
    replace (e - t) with (Zpos d) by lia.
    rewrite Z2Pos.id; [reflexivity|].
    pose proof (pow2_pos (Zpos d) ltac:(lia)). lia.
  - destruct (t - e) as [|d|d] eqn:E; try lia; reflexivity.
Qed.

Lemma fst_shl_align (p : positive) (e t : Z) :
  t <= e -> Zpos (fst (shl_align p e t)) = Zpos p * 2 ^ (e - t).
Proof.
  intros H. rewrite shl_align_spec. destruct (Z.ltb_spec t e) as [Hlt|Hge]; cbn [fst].
  - rewrite Z2Pos.id; [reflexivity|]. pose proof (pow2_pos (e - t) ltac:(lia)). lia.
  - replace (e - t) with 0 by lia. rewrite Z.pow_0_r. lia.
Qed.

Lemma binary_round_spec (sx : bool) (p : positive) (e : Z) :
  let t := fexp prec emax (digits p + e) in
  binary_round prec emax sx p e
  = if t <=? e then mk sx (Z.to_pos (Zpos p * 2 ^ (e - t))) t
    else norm sx (rne (Zpos p) (t - e)) t.
Proof.
  intros t. unfold binary_round. change (Zpos (digits2_pos p)) with (digits p). fold t.
  rewrite shl_align_spec.
  destruct (Z.ltb_spec t e) as [Hlt|Hge].
  - set (p' := Z.to_pos (Zpos p * 2 ^ (e - t))).
    assert (Hp' : Zpos p' = Zpos p * 2 ^ (e - t)).
    { unfold p'. rewrite Z2Pos.id; [reflexivity|].
      pose proof (pow2_pos (e - t) ltac:(lia)). lia. }
    pose proof (digits_shift p (e - t) p' ltac:(lia) Hp') as Hd.
    rewrite binary_round_aux_exact. replace (digits p' + t) with (digits p + e) by lia. fold t.
    rewrite Z.leb_refl. destruct (Z.leb_spec t e); [reflexivity|lia].
  - rewrite binary_round_aux_exact. fold t.
    destruct (Z.leb_spec t e) as [Hle|Hgt]; [|reflexivity].
    replace (e - t) with 0 by lia.
    rewrite Z.pow_0_r, Z.mul_1_r. simpl Z.to_pos.
    now replace t with e by lia.
Qed.

(** *** Results are valid binary64 values *)

Lemma bounded_iff (m : positive) (e : Z) :
  bounded prec emax m e = true <-> canonical m e /\ e <= 971.
Proof.
  unfold bounded, canonical_mantissa, canonical. change (Zpos (digits2_pos m)) with (digits m).
  rewrite andb_true_iff, Z.eqb_eq, Z.leb_le. reflexivity.
Qed.

Lemma canonical_digits (m : positive) (e : Z) :
  canonical m e -> digits m <= 53 /\ -1074 <= e /\ (digits m = 53 \/ e = -1074).
Proof. unfold canonical. rewrite fexp_eq. lia. Qed.

Lemma canonical_intro (m : positive) (e : Z) :
  digits m <= 53 -> -1074 <= e -> (digits m = 53 \/ e = -1074) -> canonical m e.
Proof. unfold canonical. rewrite fexp_eq. lia. Qed.

Lemma mk_valid (sx : bool) (m : positive) (e : Z) : canonical m e -> validFinite (mk sx m e).
Proof. intros H. unfold mk. destruct (Z.leb_spec e 971); simpl; auto. Qed.

Lemma rne_digits (p : positive) (n : Z) :
  0 < n -> digits p - 53 <= n ->
  rne (Zpos p) n <= 2 ^ 53
  /\ (digits p - 53 = n -> 2 ^ 52 <= rne (Zpos p) n).
Proof.
  intros Hn Hd. pose proof (digits_bounds p) as [Hl Hu]. pose proof (digits_pos p).
  split.
  - apply rne_upper; [lia|]. rewrite <- Z.pow_add_r by lia.
    apply Z.lt_le_incl. eapply Z.lt_le_trans; [exact Hu|]. apply Z.pow_le_mono_r; lia.
  - intros E. apply rne_lower; [lia|]. rewrite <- Z.pow_add_r by lia.
    replace (52 + n) with (digits p - 1) by lia. exact Hl.
Qed.

Lemma norm_valid (sx : bool) (p : positive) (e : Z) :
  let t := fexp prec emax (digits p + e) in
  e < t -> validFinite (norm sx (rne (Zpos p) (t - e)) t).
Proof.
  intros t Hlt.
  assert (Ht : t = Z.max (digits p + e - 53) (-1074)) by (unfold t; now rewrite fexp_eq).
  destruct (rne_digits p (t - e) ltac:(lia) ltac:(lia)) as [Hu Hl].
  unfold norm. destruct (rne (Zpos p) (t - e)) as [|q|q] eqn:Eq; [exact I| |exact I].
  destruct (Z.ltb_spec (Zpos q) (2 ^ 53)) as [Hq|Hq].
  - apply mk_valid. apply canonical_intro.
    + apply digits_lt_pow; lia.
    + lia.
    + destruct (Z.eq_dec t (-1074)) as [E|E]; [now right|left].
      assert (Hd : digits p - 53 = t - e) by lia.
      specialize (Hl Hd).
      pose proof (digits_ge_pow q 52 Hl). 
      pose proof (digits_lt_pow q 53 ltac:(lia) Hq). lia.
  - apply mk_valid. apply canonical_intro.
    + change (digits (Z.to_pos (2 ^ 52))) with 53. lia.
    + lia.
    + left. reflexivity.
Qed.

Lemma binary_round_valid (sx : bool) (p : positive) (e : Z) :
  validFinite (binary_round prec emax sx p e).
Proof.
  rewrite binary_round_spec.
  set (t := fexp prec emax (digits p + e)).
  destruct (Z.leb_spec t e) as [Hle|Hlt].
  - apply mk_valid. unfold canonical.
    set (p' := Z.to_pos (Zpos p * 2 ^ (e - t))).
    assert (Hp' : Zpos p' = Zpos p * 2 ^ (e - t)).
    { unfold p'. rewrite Z2Pos.id; [reflexivity|].
      pose proof (pow2_pos (e - t) ltac:(lia)). lia. }
    rewrite (digits_shift p (e - t) p' ltac:(lia) Hp').
    replace (digits p + (e - t) + t) with (digits p + e) by lia. reflexivity.
  - now apply norm_valid.
Qed.

(** *** Order of values *)

Lemma vle_unit (k m1 e1 m2 e2 : Z) :
  k <= e1 -> k <= e2 ->
  (vle m1 e1 m2 e2 <-> m1 * 2 ^ (e1 - k) <= m2 * 2 ^ (e2 - k)).
Proof.
  intros H1 H2. unfold vle. set (u := Z.min e1 e2).
  assert (Hu : k <= u) by (unfold u; lia).
  assert (Hu1 : u <= e1) by (unfold u; lia).
  assert (Hu2 : u <= e2) by (unfold u; lia).
  replace (e1 - k) with ((e1 - u) + (u - k)) by lia.
  replace (e2 - k) with ((e2 - u) + (u - k)) by lia.
  rewrite !Z.pow_add_r by lia.
  pose proof (pow2_pos (u - k) ltac:(lia)) as Hp.
  rewrite !Z.mul_assoc. split; intros H.
  - apply Z.mul_le_mono_nonneg_r; lia.
  - apply Z.mul_le_mono_pos_r in H; lia.
Qed.

Lemma vle_trans (m1 e1 m2 e2 m3 e3 : Z) :
  vle m1 e1 m2 e2 -> vle m2 e2 m3 e3 -> vle m1 e1 m3 e3.
Proof.
  intros H12 H23. set (k := Z.min e1 (Z.min e2 e3)).
  apply (vle_unit k) in H12; [|unfold k; lia..].
  apply (vle_unit k) in H23; [|unfold k; lia..].
  apply (vle_unit k); [unfold k; lia..|]. lia.
Qed.

(** The position of the leading bit follows the value. *)
Lemma vle_digits (p : positive) (e : Z) (q : positive) (f : Z) :
  vle (Zpos p) e (Zpos q) f -> digits p + e <= digits q + f.
Proof.
  intros H. unfold vle in H. set (k := Z.min e f) in *.
  pose proof (digits_bounds p) as [Hl _]. pose proof (digits_bounds q) as [_ Hu].
  pose proof (digits_pos p). pose proof (digits_pos q).
  assert (Hk1 : 0 <= e - k) by (unfold k; lia).
  assert (Hk2 : 0 <= f - k) by (unfold k; lia).
  pose proof (pow2_pos (e - k) Hk1). pose proof (pow2_pos (f - k) Hk2).
  assert (Hx1 : 2 ^ (digits p - 1 + (e - k)) <= Zpos p * 2 ^ (e - k)).
  { rewrite Z.pow_add_r by lia. nia. }
  assert (Hx2 : Zpos q * 2 ^ (f - k) < 2 ^ (digits q + (f - k))).
  { rewrite Z.pow_add_r by lia. nia. }
  destruct (Z.le_gt_cases (digits p + e) (digits q + f)); [assumption|].
  assert (2 ^ (digits q + (f - k)) <= 2 ^ (digits p - 1 + (e - k)))
    by (apply Z.pow_le_mono_r; lia).
  lia.
Qed.

Lemma to_pos_mul_pow (p : positive) (k : Z) :
  0 <= k -> Zpos (Z.to_pos (Zpos p * 2 ^ k)) = Zpos p * 2 ^ k.
Proof.
  intros Hk. rewrite Z2Pos.id; [reflexivity|]. pose proof (pow2_pos k Hk). lia.
Qed.

(** Rounding never crosses a representable value above. *)
Lemma binary_round_upper (p : positive) (e : Z) (mb : positive) (eb : Z) :
  canonical mb eb -> eb <= 971 ->
  vle (Zpos p) e (Zpos mb) eb ->
  atMost (binary_round prec emax false p e) (Zpos mb) eb.
Proof.
  intros Hc Hb Hv. rewrite binary_round_spec.
  set (t := fexp prec emax (digits p + e)).
  assert (Hteb : t <= eb).
  { unfold t. rewrite <- Hc. apply fexp_mono. now apply vle_digits. }
  destruct (canonical_digits mb eb Hc) as (Hdb & _ & _).
  pose proof (digits_bounds mb) as [_ Hmb].
  assert (Hmb53 : Zpos mb < 2 ^ 53).
  { eapply Z.lt_le_trans; [exact Hmb|]. apply Z.pow_le_mono_r; lia. }
  destruct (Z.leb_spec t e) as [Hle|Hlt].
  - unfold mk. destruct (Z.leb_spec t 971); [|lia].
    unfold atMost. rewrite to_pos_mul_pow by lia.
    apply (vle_unit t); [lia..|]. rewrite Z.sub_diag, Z.pow_0_r, Z.mul_1_r.
    now apply (vle_unit t) in Hv; [|lia..].
  - apply (vle_unit e) in Hv; [|lia..].
    rewrite Z.sub_diag, Z.pow_0_r, Z.mul_1_r in Hv.
    assert (Hq : rne (Zpos p) (t - e) <= Zpos mb * 2 ^ (eb - t)).
    { apply rne_upper; [lia|]. rewrite <- Z.mul_assoc, <- Z.pow_add_r by lia.
      now replace (eb - t + (t - e)) with (eb - e) by lia. }
    pose proof (rne_nonneg (Zpos p) (t - e) ltac:(lia) ltac:(lia)) as Hq0.
    unfold norm. destruct (rne (Zpos p) (t - e)) as [|q|q] eqn:Eq; [exact I| |lia].
    destruct (Z.ltb_spec (Zpos q) (2 ^ 53)) as [Hq53|Hq53].
    + unfold mk. destruct (Z.leb_spec t 971); [|lia]. unfold atMost.
      apply (vle_unit t); [lia..|]. now rewrite Z.sub_diag, Z.pow_0_r, Z.mul_1_r.
    + assert (Het : t < eb).
      { destruct (Z.eq_dec t eb) as [E|E]; [|lia].
        rewrite E, Z.sub_diag, Z.pow_0_r in Hq. lia. }
      unfold mk. destruct (Z.leb_spec (t + 1) 971); [|lia]. unfold atMost.
      apply (vle_unit t); [lia..|].
      replace (t + 1 - t) with 1 by lia.
      change (Zpos (Z.to_pos (2 ^ 52)) * 2 ^ 1) with (2 ^ 53).
      (* the rounded mantissa is 2^53 at most, and at most the bound *)
      replace (eb - t) with (1 + (eb - t - 1)) in * by lia.
      rewrite Z.pow_add_r in * by lia. change (2 ^ 1) with 2 in *.
      pose proof (pow2_pos (eb - t - 1) ltac:(lia)). nia.
Qed.

Lemma vle_same_exp (m1 m2 e : Z) : m1 <= m2 -> vle m1 e m2 e.
Proof.
  intros H. apply (vle_unit e); [lia..|]. now rewrite Z.sub_diag, Z.pow_0_r, !Z.mul_1_r.
Qed.

Lemma mk_atLeastOrInf (m : positive) (e M E : Z) :
  vle M E (Zpos m) e -> atLeastOrInf (mk false m e) M E.
Proof. intros H. unfold mk. destruct (e <=? 971); [exact H | exact I]. Qed.

(** Rounding never crosses a representable value below. *)
Lemma binary_round_lower (p : positive) (e : Z) (mc : positive) (ec : Z) :
  canonical mc ec ->
  vle (Zpos mc) ec (Zpos p) e ->
  atLeastOrInf (binary_round prec emax false p e) (Zpos mc) ec.
Proof.
  intros Hc Hv. rewrite binary_round_spec.
  set (d := digits p + e). set (t := fexp prec emax d).
  pose proof (vle_digits _ _ _ _ Hv) as Hd. fold d in Hd.
  assert (Hect : ec <= t).
  { unfold t. rewrite <- Hc. now apply fexp_mono. }
  destruct (Z.leb_spec t e) as [Hle|Hlt].
  - apply mk_atLeastOrInf. rewrite to_pos_mul_pow by lia.
    apply (vle_unit ec); [lia..|]. apply (vle_unit ec) in Hv; [|lia..].
    rewrite <- Z.mul_assoc, <- Z.pow_add_r by lia.
    now replace (e - t + (t - ec)) with (e - ec) by lia.
  - (* some whole number of result units lies between the bound and p *)
    assert (HC : exists C, 0 < C /\ C * 2 ^ (t - e) <= Zpos p /\ vle (Zpos mc) ec C t).
    { destruct (Z.eq_dec (digits mc + ec) d) as [Ed|Ed].
      - exists (Zpos mc). assert (ec = t) by (unfold t; rewrite <- Ed; now symmetry).
        subst ec. split; [lia|]. split; [|apply vle_same_exp; lia].
        apply (vle_unit e) in Hv; [|lia..].
        now rewrite Z.sub_diag, Z.pow_0_r, Z.mul_1_r in Hv.
      - destruct (canonical_digits mc ec Hc) as (_ & Hec & _).
        pose proof (digits_pos mc). pose proof (digits_pos p).
        assert (Ht : t = Z.max (d - 53) (-1074)) by (unfold t; now rewrite fexp_eq).
        exists (2 ^ (d - 1 - t)). split; [|split].
        + apply pow2_pos. lia.
        + rewrite <- Z.pow_add_r by lia.
          replace (d - 1 - t + (t - e)) with (digits p - 1) by (unfold d; lia).
          apply digits_bounds.
        + apply (vle_unit ec); [lia..|].
          rewrite Z.sub_diag, Z.pow_0_r, Z.mul_1_r, <- Z.pow_add_r by lia.
          pose proof (digits_bounds mc) as [_ Hu].
          apply Z.lt_le_incl. eapply Z.lt_le_trans; [exact Hu|].
          apply Z.pow_le_mono_r; lia. }
    destruct HC as (C & HC0 & HCp & HCv).
    pose proof (rne_lower (Zpos p) (t - e) C ltac:(lia) HCp) as Hq.
    assert (Ht : t = Z.max (digits p + e - 53) (-1074)) by (unfold t, d; now rewrite fexp_eq).
    destruct (rne_digits p (t - e) ltac:(lia) ltac:(lia)) as [Hu _].
    unfold norm. destruct (rne (Zpos p) (t - e)) as [|q|q] eqn:Eq; try lia.
    destruct (Z.ltb_spec (Zpos q) (2 ^ 53)) as [Hq53|Hq53]; apply mk_atLeastOrInf.
    + eapply vle_trans; [exact HCv|]. now apply vle_same_exp.
    + eapply vle_trans; [exact HCv|].
      apply (vle_unit t); [lia..|].
      rewrite Z.sub_diag, Z.pow_0_r, Z.mul_1_r.
      replace (t + 1 - t) with 1 by lia.
      change (Zpos (Z.to_pos (2 ^ 52)) * 2 ^ 1) with (2 ^ 53). lia.
Qed.

(** A value between two representable values rounds to a finite value
    between them. *)
Lemma binary_round_between (p : positive) (e : Z) (mc : positive) (ec : Z)
    (mb : positive) (eb : Z) :
  canonical mc ec -> canonical mb eb -> eb <= 971 ->
  vle (Zpos mc) ec (Zpos p) e -> vle (Zpos p) e (Zpos mb) eb ->
  exists m e',
    binary_round prec emax false p e = S754_finite false m e'
    /\ canonical m e' /\ e' <= 971
    /\ vle (Zpos mc) ec (Zpos m) e' /\ vle (Zpos m) e' (Zpos mb) eb.
Proof.
  intros Hc Hb Heb Hlo Hhi.
  pose proof (binary_round_upper p e mb eb Hb Heb Hhi) as Hu.
  pose proof (binary_round_lower p e mc ec Hc Hlo) as Hl.
  pose proof (binary_round_valid false p e) as Hv.
  destruct (binary_round prec emax false p e) as [[]|[]| |[] m e']; simpl in *; try contradiction.
  exists m, e'. destruct Hv. auto.
Qed.

(** *** Comparison of valid values *)

Lemma le_refl_finite (m : positive) (e : Z) :
  SFleb (S754_finite false m e) (S754_finite false m e) = true.
Proof. unfold SFleb; simpl. now rewrite Z.compare_refl, Pos.compare_cont_refl. Qed.

Lemma le_of_vle (m1 : positive) (e1 : Z) (m2 : positive) (e2 : Z) :
  canonical m1 e1 -> canonical m2 e2 ->
  vle (Zpos m1) e1 (Zpos m2) e2 ->
  SFleb (S754_finite false m1 e1) (S754_finite false m2 e2) = true.
Proof.
  intros H1 H2 Hv. unfold SFleb; simpl.
  destruct (Z.compare_spec e1 e2) as [E|E|E]; [|reflexivity|].
  - subst e2. apply (vle_unit e1) in Hv; [|lia..].
    rewrite Z.sub_diag, Z.pow_0_r, !Z.mul_1_r in Hv.
    change (Pos.compare_cont Eq m1 m2) with (Pos.compare m1 m2).
    destruct (Pos.compare_spec m1 m2); try reflexivity. lia.
  - exfalso.
    destruct (canonical_digits m1 e1 H1) as (_ & _ & Hd1).
    destruct (canonical_digits m2 e2 H2) as (Hd2 & He2 & _).
    assert (Hm1 : digits m1 = 53) by lia.
    pose proof (digits_bounds m1) as [Hl _]. rewrite Hm1 in Hl.
    pose proof (digits_bounds m2) as [_ Hu].
    assert (Hm2 : Zpos m2 < 2 ^ 53).
    { eapply Z.lt_le_trans; [exact Hu|]. apply Z.pow_le_mono_r; lia. }
    apply (vle_unit e2) in Hv; [|lia..].
    rewrite Z.sub_diag, Z.pow_0_r, Z.mul_1_r in Hv.
    replace (e1 - e2) with (1 + (e1 - e2 - 1)) in Hv by lia.
    rewrite Z.pow_add_r in Hv by lia. change (2 ^ 1) with 2 in Hv.
    pose proof (pow2_pos (e1 - e2 - 1) ltac:(lia)).
    change (2 ^ (53 - 1)) with (2 ^ 52) in Hl.
    change (2 ^ 53) with (2 * 2 ^ 52) in Hm2. nia.
Qed.

(** *** Signs *)

Lemma hasSign_false (x : spec_float) : hasSign false x -> nonNegative x.
Proof. destruct x as [[]|[]| |[] m e]; simpl; auto; discriminate. Qed.

Lemma hasSign_true (x : spec_float) : hasSign true x -> negativeSign x.
Proof. destruct x as [[]|[]| |[] m e]; simpl; auto; discriminate. Qed.

Lemma iter_invariant {A : Type} (P : A -> Prop) (f : A -> A) (n : nat) (x : A) :
  (forall y, P y -> P (f y)) -> P x -> P (Nat.iter n f x).
Proof. intros Hf Hx. induction n; simpl; auto. Qed.

Lemma shr_nonneg (mrs : shr_record) (e n : Z) :
  0 <= shr_m mrs -> 0 <= shr_m (fst (shr mrs e n)).
Proof.
  intros H. unfold shr. destruct n as [|p|p]; simpl; try assumption.
  rewrite iter_pos_nat. apply iter_invariant; [|assumption].
  intros [m r s] Hm. simpl in Hm. rewrite shr_1_spec by assumption. simpl.
  apply Z.div_pos; lia.
Qed.

Lemma round_nearest_even_nonneg (m : Z) (l : location) :
  0 <= m -> 0 <= round_nearest_even m l.
Proof.
  intros H. unfold round_nearest_even.
  destruct l as [|[]]; try lia. destruct (Z.even m); lia.
Qed.

Lemma shr_record_of_loc_m (m : Z) (l : location) : shr_m (shr_record_of_loc m l) = m.
Proof. destruct l as [|[]]; reflexivity. Qed.

(** Rounding keeps the sign it is given and never yields NaN. *)
Lemma binary_round_aux_sign (sx : bool) (mx ex : Z) (lx : location) :
  0 <= mx -> hasSign sx (binary_round_aux prec emax sx mx ex lx).
Proof.
  intros Hm. unfold binary_round_aux, shr_fexp.
  set (r1 := shr (shr_record_of_loc mx lx) ex _).
  assert (H1 : 0 <= shr_m (fst r1)).
  { apply shr_nonneg. now rewrite shr_record_of_loc_m. }
  destruct r1 as [mrs' e']. simpl in H1.
  set (m1 := round_nearest_even (shr_m mrs') (loc_of_shr_record mrs')).
  assert (Hm1 : 0 <= m1) by now apply round_nearest_even_nonneg.
  set (r2 := shr (shr_record_of_loc m1 loc_Exact) e' _).
  assert (H2 : 0 <= shr_m (fst r2)).
  { apply shr_nonneg. now rewrite shr_record_of_loc_m. }
  destruct r2 as [mrs'' e'']. simpl in H2.
  destruct (shr_m mrs'') as [|m|m]; [exact eq_refl| |lia].
  destruct (e'' <=? emax - prec); exact eq_refl.
Qed.

Lemma binary_round_sign (sx : bool) (p : positive) (e : Z) :
  hasSign sx (binary_round prec emax sx p e).
Proof.
  unfold binary_round. destruct (shl_align p e _) as [mz ez].
  apply binary_round_aux_sign. lia.
Qed.

Lemma mul_nonNegative (x : number) (m : positive) (e : Z) :
  isPositive x = true -> nonNegative (mul x (S754_finite false m e)).
Proof.
  destruct x as [[]|[]| |[] mx ex]; try discriminate; intros _.
  - exact I.
  - apply hasSign_false. unfold mul, SFmul. simpl xorb.
    apply binary_round_aux_sign. lia.
Qed.

Lemma ofZ_nonNegative (z : Z) : 0 <= z -> nonNegative (ofZ z).
Proof.
  intros Hz. unfold ofZ, binary_normalize. destruct z as [|p|p]; [exact I| |lia].
  apply hasSign_false, binary_round_sign.
Qed.

Lemma Math_round_nonNegative (x : number) : nonNegative x -> nonNegative (Math_round x).
Proof.
  intros H. destruct x as [[]|[]| |[] m e]; try (simpl in H; contradiction);
    try exact I.
  unfold Math_round. destruct (Z.leb_spec 0 e) as [He|He]; [exact I|]. unfold integral.
  unfold cond_Zopp.
  set (z := (2 * Zpos m + 2 ^ (- e)) / 2 ^ (- e + 1)).
  assert (Hz : 0 <= z).
  { unfold z. pose proof (pow2_pos (- e) ltac:(lia)). apply Z.div_pos; [lia|].
    apply pow2_pos. lia. }
  destruct (z =? 0); [exact I|]. now apply ofZ_nonNegative.
Qed.

Lemma div_nonNegative (x : number) (m : positive) (e : Z) :
  nonNegative x -> nonNegative (div x (S754_finite false m e)).
Proof.
  intros H. destruct x as [[]|[]| |[] mx ex]; try (simpl in H; contradiction);
    try exact I.
  apply hasSign_false. unfold div, SFdiv.
  destruct (SFdiv_core_binary prec emax (Zpos mx) ex (Zpos m) e) as [[mz ez] lz] eqn:Hd.
  simpl xorb. apply binary_round_aux_sign.
  unfold SFdiv_core_binary in Hd.
  set (m' := match _ with Z0 => Zpos mx | Zpos _ => _ | Zneg _ => 0 end) in Hd.
  assert (Hm' : 0 <= m').
  { unfold m'. destruct (_ - _) as [|s|s]; try lia. apply Z.shiftl_nonneg. lia. }
  pose proof (Z.div_pos m' (Zpos m) Hm' ltac:(lia)) as Hq.
  unfold Z.div in Hq. destruct (Z.div_eucl m' (Zpos m)) as [q r].
  injection Hd as <- _ _. exact Hq.
Qed.

Lemma ofZ_100 : ofZ 100 = S754_finite false 7036874417766400 (-46).
Proof. reflexivity. Qed.

(** The amount of a staged transfer is never NaN and never negative. *)
Lemma staged_amount_nonNegative (v : number) :
  isPositive v = true ->
  nonNegative (div (Math_round (mul v (ofZ 100))) (ofZ 100)).
Proof.
  intros Hv. rewrite ofZ_100.
  apply div_nonNegative, Math_round_nonNegative, mul_nonNegative, Hv.
Qed.

(** *** The balance after a commit *)

Lemma Math_max_zero_negative (x : number) : negativeSign x -> Math_max pZero x = pZero.
Proof. destruct x as [[]|[]| |[] m e]; simpl; try contradiction; reflexivity. Qed.

Lemma goodBalance_le_zero (b : number) : goodBalance b -> le pZero b = true.
Proof. destruct b as [[]|[]| |[] m e]; simpl; try contradiction; reflexivity. Qed.

Lemma commit_balance (b a : number) :
  goodBalance b -> nonNegative a ->
  goodBalance (Math_max pZero (sub b a)) /\ le (Math_max pZero (sub b a)) b = true.
Proof.
  intros Hb Ha.
  destruct b as [[]|[]| |[] mb eb]; simpl in Hb; try contradiction;
    destruct a as [[]|[]| |[] ma ea]; simpl in Ha; try contradiction;
    try (split; [exact I | reflexivity]).
  - (* the amount is zero *)
    split; [exact Hb | apply le_refl_finite].
  - (* both finite *)
    destruct Hb as [Hc He].
    unfold sub, SFsub. unfold cond_Zopp.
    set (ez := Z.min eb ea).
    rewrite (fst_shl_align mb eb ez) by (unfold ez; lia).
    rewrite (fst_shl_align ma ea ez) by (unfold ez; lia).
    pose proof (pow2_pos (eb - ez) ltac:(unfold ez; lia)) as Hpb.
    pose proof (pow2_pos (ea - ez) ltac:(unfold ez; lia)) as Hpa.
    destruct (Zpos mb * 2 ^ (eb - ez) - Zpos ma * 2 ^ (ea - ez)) as [|p|p] eqn:Ed;
      unfold binary_normalize.
    + split; [exact I | reflexivity].
    + pose proof (binary_round_upper p ez mb eb Hc He) as Hu.
      pose proof (binary_round_valid false p ez) as Hv.
      assert (Hvle : vle (Zpos p) ez (Zpos mb) eb).
      { apply (vle_unit ez); [unfold ez; lia..|].
        rewrite Z.sub_diag, Z.pow_0_r, Z.mul_1_r. lia. }
      specialize (Hu Hvle).
      destruct (binary_round prec emax false p ez) as [[]|[]| |[] m e];
        simpl in Hu, Hv; try contradiction.
      * split; [exact I | reflexivity].
      * destruct Hv as [Hcm Hem].
        change (Math_max pZero (S754_finite false m e)) with (S754_finite false m e).
        split; [split; assumption|]. now apply le_of_vle.
    + pose proof (hasSign_true _ (binary_round_sign true p ez)) as Hn.
      rewrite (Math_max_zero_negative _ Hn). split; [exact I | reflexivity].
Qed.

(** *** The reference number *)

Lemma ofZ_90000 : ofZ 90000 = S754_finite false K90 (-36).
Proof. reflexivity. Qed.

Lemma ofZ_10000 : ofZ 10000 = S754_finite false K10 (-39).
Proof. reflexivity. Qed.

Lemma unit_interval_cases (rnd : number) :
  isUnitInterval rnd = true ->
  (exists s, rnd = S754_zero s)
  \/ (exists m e, rnd = S754_finite false m e /\ canonical m e /\ e <= -53 /\ Zpos m < 2 ^ 53).
Proof.
  unfold isUnitInterval. intros H.
  apply andb_true_iff in H as [H Hlt]. apply andb_true_iff in H as [Hv Hle].
  destruct rnd as [s|[]| |[] m e]; try discriminate.
  - left. now exists s.
  - right. exists m, e. simpl in Hv. apply bounded_iff in Hv as [Hc _].
    destruct (canonical_digits m e Hc) as (Hd & He & Hn).
    pose proof (digits_bounds m) as [Hl Hu].
    assert (Hm : Zpos m < 2 ^ 53).
    { eapply Z.lt_le_trans; [exact Hu|]. apply Z.pow_le_mono_r; lia. }
    repeat split; try assumption.
    unfold lt, SFltb in Hlt. change (ofZ 1) with (S754_finite false 4503599627370496 (-52)) in Hlt.
    unfold SFcompare in Hlt.
    destruct (Z.compare_spec e (-52)) as [E|E|E]; try discriminate; [|lia].
    exfalso. subst e.
    rewrite Pos.compare_cont_spec in Hlt.
    destruct (Pos.compare_spec m 4503599627370496) as [E|E|E]; try discriminate.
    apply Pos2Z.pos_lt_pos in E.
    assert (Hd53 : digits m = 53) by lia. rewrite Hd53 in Hl.
    change (2 ^ (53 - 1)) with 4503599627370496 in Hl. lia.
Qed.

Lemma canonical_K90m1 : canonical (K90 - 1) (-36).
Proof. reflexivity. Qed.

Lemma canonical_K100m1 : canonical (K100 - 1) (-36).
Proof. reflexivity. Qed.

Lemma canonical_K10 : canonical K10 (-39).
Proof. reflexivity. Qed.

(** [rnd * 90000] stays below 90000 by at least one unit in the last place. *)
Lemma mul_random_upper (m : positive) (e : Z) :
  canonical m e -> e <= -53 -> Zpos m < 2 ^ 53 ->
  atMost (mul (S754_finite false m e) (ofZ 90000)) (Zpos (K90 - 1)) (-36).
Proof.
  intros Hc He Hm. rewrite ofZ_90000. unfold mul, SFmul. simpl xorb.
  change (Zpos (m * K90)) with (Zpos (m * K90)%positive).
  set (p := (m * K90)%positive). set (E := e + -36).
  assert (Hp : Zpos p = Zpos m * Zpos K90) by reflexivity.
  pose proof (pow2_pos (- e - 53) ltac:(lia)) as Hpe.
  assert (H2e : 2 ^ (- e) = 2 ^ 53 * 2 ^ (- e - 53)).
  { rewrite <- Z.pow_add_r by lia. f_equal. lia. }
  rewrite binary_round_aux_exact. set (t := fexp prec emax (digits p + E)).
  assert (Ht : t = Z.max (digits p + E - 53) (-1074)) by (unfold t; now rewrite fexp_eq).
  destruct (Z.leb_spec t E) as [Hle|Hlt].
  - (* the product is already short enough: it is tiny *)
    unfold mk. destruct (Z.leb_spec E 971); [|unfold E in *; lia].
    unfold atMost. apply (vle_unit E); [unfold E; lia..|].
    rewrite Z.sub_diag, Z.pow_0_r, Z.mul_1_r.
    replace (-36 - E) with (- e) by (unfold E; lia).
    assert (Hdp : digits p <= 53) by lia.
    pose proof (digits_bounds p) as [_ Hu].
    assert (Zpos p < 2 ^ 53).
    { eapply Z.lt_le_trans; [exact Hu|]. apply Z.pow_le_mono_r; lia. }
    rewrite H2e. change (Zpos (K90 - 1)) with 6184752906239999.
    change (2 ^ 53) with 9007199254740992 in *. nia.
  - destruct (Z.le_gt_cases (Zpos p) (Zpos (K90 - 1) * 2 ^ (- e))) as [Hsmall|Hbig].
    + (* at most the bound before rounding *)
      pose proof (binary_round_upper p E (K90 - 1) (-36) canonical_K90m1 ltac:(lia)) as Hu.
      rewrite binary_round_spec in Hu. fold t in Hu.
      destruct (Z.leb_spec t E); [lia|]. apply Hu.
      apply (vle_unit E); [unfold E; lia..|].
      rewrite Z.sub_diag, Z.pow_0_r, Z.mul_1_r.
      now replace (-36 - E) with (- e) by (unfold E; lia).
    + (* just below 90000: the remainder is under one half *)
      change (Zpos (K90 - 1)) with 6184752906239999 in *.
      change (2 ^ 53) with 9007199254740992 in *.
      assert (He53 : e = -53).
      { destruct (Z.eq_dec e (-53)); [assumption|exfalso].
        assert (2 <= 2 ^ (- e - 53)).
        { change 2 with (2 ^ 1) at 1. apply Z.pow_le_mono_r; lia. }
        rewrite H2e in Hbig. unfold K90 in Hp. nia. }
      subst e. unfold K90 in Hp.
      assert (Hdp : digits p = 106).
      { apply digits_unique. change (2 ^ (106 - 1)) with (2 ^ 52 * 2 ^ 53).
        change (2 ^ 106) with (2 ^ 53 * 2 ^ 53).
        change (2 ^ (- -53)) with 9007199254740992 in Hbig.
        change (2 ^ 52) with 4503599627370496. change (2 ^ 53) with 9007199254740992.
        lia. }
      assert (Ht36 : t = -36) by (unfold E in Ht; lia).
      assert (Hq : rne (Zpos p) (t - E) = 6184752906239999).
      { replace (t - E) with 53 by (unfold E; lia). unfold rne.
        change (2 ^ 53) with 9007199254740992.
        change (2 ^ (- -53)) with 9007199254740992 in Hbig.
        assert (Hdiv : Zpos p / 9007199254740992 = 6184752906239999).
        { symmetry. apply (Z.div_unique _ _ _ (Zpos p - 6184752906239999 * 9007199254740992)); lia. }
        assert (Hmod : Zpos p mod 9007199254740992 = Zpos p - 6184752906239999 * 9007199254740992).
        { symmetry. apply (Z.mod_unique _ _ 6184752906239999); lia. }
        rewrite Hdiv, Hmod.
        destruct (Z.ltb_spec (2 * (Zpos p - 6184752906239999 * 9007199254740992)) 9007199254740992);
          [reflexivity | lia]. }
      rewrite Hq, Ht36. unfold norm, mk, atMost. simpl.
      apply vle_same_exp. lia.
Qed.

(** [10000 + x] for [0 <= x <= 90000 - 2^-36] is a valid value in
    [10000, 100000 - 2^-36]. *)
Lemma add_offset_between (x : number) :
  (exists s, x = S754_zero s) \/ atMost x (Zpos (K90 - 1)) (-36) ->
  exists m e,
    add (ofZ 10000) x = S754_finite false m e
    /\ canonical m e
    /\ vle (Zpos K10) (-39) (Zpos m) e
    /\ vle (Zpos m) e (Zpos (K100 - 1)) (-36).
Proof.
  intros Hx. rewrite ofZ_10000.
  assert (Hself : exists m e,
             S754_finite false K10 (-39) = S754_finite false m e
             /\ canonical m e
             /\ vle (Zpos K10) (-39) (Zpos m) e
             /\ vle (Zpos m) e (Zpos (K100 - 1)) (-36)).
  { exists K10, (-39). repeat split.
    - apply vle_same_exp; lia.
    - apply (vle_unit (-39)); [lia..|]. vm_compute. discriminate. }
  destruct Hx as [[s ->]|Hx]; [exact Hself|].
  destruct x as [[]|[]| |[] mx ex]; simpl in Hx; try contradiction; [exact Hself|].
  unfold add, SFadd, cond_Zopp. set (ez := Z.min (-39) ex).
  rewrite (fst_shl_align K10 (-39) ez) by (unfold ez; lia).
  rewrite (fst_shl_align mx ex ez) by (unfold ez; lia).
  pose proof (pow2_pos (-39 - ez) ltac:(unfold ez; lia)) as H1.
  pose proof (pow2_pos (ex - ez) ltac:(unfold ez; lia)) as H2.
  apply (vle_unit ez) in Hx; [|unfold ez; lia..].
  assert (H36 : 2 ^ (-36 - ez) = 8 * 2 ^ (-39 - ez)).
  { change 8 with (2 ^ 3). rewrite <- Z.pow_add_r by (unfold ez; lia). f_equal. lia. }
  destruct (Zpos K10 * 2 ^ (-39 - ez) + Zpos mx * 2 ^ (ex - ez)) as [|p|p] eqn:Ep; try lia.
  unfold binary_normalize.
  destruct (binary_round_between p ez K10 (-39) (K100 - 1) (-36)
              canonical_K10 canonical_K100m1 ltac:(lia)) as (m & e & Hr & Hc & _ & Hlo & Hhi).
  - apply (vle_unit ez); [unfold ez; lia..|].
    rewrite Z.sub_diag, Z.pow_0_r, Z.mul_1_r. lia.
  - apply (vle_unit ez); [unfold ez; lia..|].
    rewrite Z.sub_diag, Z.pow_0_r, Z.mul_1_r.
    rewrite H36 in *. unfold K10, K100, K90 in *.
    change (Zpos (6871947673600000 - 1)) with 6871947673599999.
    change (Zpos (6184752906240000 - 1)) with 6184752906239999 in Hx. lia.
  - exists m, e. auto.
Qed.

(** The floor of such a value is an integer with five digits. *)
Lemma floor_five_digits (m : positive) (e : Z) :
  canonical m e ->
  vle (Zpos K10) (-39) (Zpos m) e ->
  vle (Zpos m) e (Zpos (K100 - 1)) (-36) ->
  exists z, 10000 <= z <= 99999 /\ Math_floor (S754_finite false m e) = ofZ z.
Proof.
  intros Hc Hlo Hhi.
  pose proof (vle_digits _ _ _ _ Hhi) as Hd.
  change (digits (K100 - 1)) with 53 in Hd.
  assert (He : e <= -36) by (unfold canonical in Hc; rewrite fexp_eq in Hc; lia).
  pose proof (vle_digits _ _ _ _ Hlo) as Hd'.
  change (digits K10) with 53 in Hd'.
  assert (He' : -39 <= e) by (unfold canonical in Hc; rewrite fexp_eq in Hc; lia).
  apply (vle_unit (-39)) in Hlo; [|lia..].
  apply (vle_unit (-39)) in Hhi; [|lia..].
  change (2 ^ (-39 - -39)) with 1 in Hlo. change (2 ^ (-36 - -39)) with 8 in Hhi.
  unfold K10 in Hlo. change (Zpos (K100 - 1)) with 6871947673599999 in Hhi.
  unfold Math_floor. destruct (Z.leb_spec 0 e); [lia|].
  unfold cond_Zopp, integral.
  set (z := Zpos m / 2 ^ (- e)).
  pose proof (pow2_pos (- e) ltac:(lia)) as Hpe.
  pose proof (pow2_pos (e - -39) ltac:(lia)) as Hpk.
  assert (H39 : 2 ^ 39 = 2 ^ (- e) * 2 ^ (e - -39)).
  { rewrite <- Z.pow_add_r by lia. f_equal. lia. }
  change (2 ^ 39) with 549755813888 in H39.
  assert (Hz : 10000 <= z <= 99999).
  { unfold z. split.
    - apply Z.div_le_lower_bound; [lia|]. nia.
    - assert (Zpos m / 2 ^ (- e) < 100000); [|lia].
      apply Z.div_lt_upper_bound; [lia|]. nia. }
  exists z. split; [assumption|].
  destruct (Z.eqb_spec z 0); [lia | reflexivity].
Qed.

(** *** Integers as Numbers *)

Lemma toInteger_ofZ (z : Z) : 0 < z < 2 ^ 53 -> toInteger (ofZ z) = Some z.
Proof.
  intros Hz. destruct z as [|p|p]; try lia.
  unfold ofZ, binary_normalize. rewrite binary_round_spec.
  rewrite Z.add_0_r. set (t := fexp prec emax (digits p)).
  assert (Hd : digits p <= 53) by (apply digits_lt_pow; lia).
  pose proof (digits_pos p).
  assert (Ht : t = digits p - 53) by (unfold t; rewrite fexp_eq; lia).
  destruct (Z.leb_spec t 0); [|lia].
  unfold mk. destruct (Z.leb_spec t 971); [|lia].
  unfold toInteger. rewrite to_pos_mul_pow by lia.
  pose proof (pow2_pos (0 - t) ltac:(lia)) as Hp.
  destruct (Z.leb_spec 0 t).
  - assert (t = 0) by lia. replace (0 - t) with 0 by lia.
    replace t with 0 by lia. rewrite !Z.pow_0_r. unfold cond_Zopp. f_equal. lia.
  - replace (- t) with (0 - t) by lia.
    rewrite Z.mod_mul by lia. rewrite Z.eqb_refl. unfold cond_Zopp.
    rewrite Z.div_mul by lia. reflexivity.
Qed.

Lemma toString_ofZ (z : Z) : 0 < z < 2 ^ 53 -> toString (ofZ z) = intToString z.
Proof.
  intros Hz. pose proof (toInteger_ofZ z Hz) as Hi.
  unfold toString. rewrite Hi.
  destruct (ofZ z) as [s|s| |s m e]; try discriminate.
  - simpl in Hi. injection Hi as <-. lia.
  - assert (Z.abs z < 10 ^ 21).
    { change (2 ^ 53) with 9007199254740992 in Hz.
      change (10 ^ 21) with 1000000000000000000000. lia. }
    destruct (Z.ltb_spec (Z.abs z) (10 ^ 21)); [reflexivity | lia].
Qed.

End Binary64.

(** ** Printing integers *)

Section Printing.

Lemma isDigit_digitChar (d : Z) : 0 <= d <= 9 -> isDigit (digitChar d) = true.
Proof.
  intros H.
  assert (Hc : d = 0 \/ d = 1 \/ d = 2 \/ d = 3 \/ d = 4 \/ d = 5 \/ d = 6 \/ d = 7
               \/ d = 8 \/ d = 9) by lia.
  repeat (destruct Hc as [-> | Hc]; [reflexivity|]). subst d. reflexivity.
Qed.

Lemma digitChar_nonzero (d : Z) : 1 <= d <= 9 -> Ascii.eqb (digitChar d) "0"%char = false.
Proof.
  intros H.
  assert (Hc : d = 1 \/ d = 2 \/ d = 3 \/ d = 4 \/ d = 5 \/ d = 6 \/ d = 7
               \/ d = 8 \/ d = 9) by lia.
  repeat (destruct Hc as [-> | Hc]; [reflexivity|]). subst d. reflexivity.
Qed.

Lemma digitsFuel_step (fuel : nat) (z : Z) :
  digitsFuel (S fuel) z
  = if z <? 10 then String (digitChar z) EmptyString
    else digitsFuel fuel (z / 10) ++ String (digitChar (z mod 10)) EmptyString.
Proof. reflexivity. Qed.

Lemma intToString_five_digits (z : Z) :
  10000 <= z <= 99999 -> isFiveDigits (intToString z) = true.
Proof.
  intros Hz. unfold intToString.
  destruct (Z.ltb_spec z 0); [lia|].
  assert (Hlog : 13 <= Z.log2 z).
  { apply Z.log2_le_pow2; [lia|]. change (2 ^ 13) with 8192. lia. }
  destruct (Z.to_nat (Z.log2 z)) as [|[|[|[|n]]]] eqn:En; try lia.
  rewrite !digitsFuel_step.
  pose proof (Z.div_mod z 10 ltac:(lia)). pose proof (Z.mod_pos_bound z 10 ltac:(lia)).
  set (z1 := z / 10) in *.
  pose proof (Z.div_mod z1 10 ltac:(lia)). pose proof (Z.mod_pos_bound z1 10 ltac:(lia)).
  set (z2 := z1 / 10) in *.
  pose proof (Z.div_mod z2 10 ltac:(lia)). pose proof (Z.mod_pos_bound z2 10 ltac:(lia)).
  set (z3 := z2 / 10) in *.
  pose proof (Z.div_mod z3 10 ltac:(lia)). pose proof (Z.mod_pos_bound z3 10 ltac:(lia)).
  set (z4 := z3 / 10) in *.
  destruct (Z.ltb_spec z 10); [lia|].
  destruct (Z.ltb_spec z1 10); [lia|].
  destruct (Z.ltb_spec z2 10); [lia|].
  destruct (Z.ltb_spec z3 10); [lia|].
  destruct (Z.ltb_spec z4 10); [|lia].
  cbn [append isFiveDigits].
  rewrite !isDigit_digitChar, digitChar_nonzero by lia. reflexivity.
Qed.

Lemma digitVal_digitChar (d : Z) : 0 <= d <= 9 -> digitVal (digitChar d) = d.
Proof.
  intros H.
  assert (Hc : d = 0 \/ d = 1 \/ d = 2 \/ d = 3 \/ d = 4 \/ d = 5 \/ d = 6 \/ d = 7
               \/ d = 8 \/ d = 9) by lia.
  repeat (destruct Hc as [-> | Hc]; [reflexivity|]). subst d. reflexivity.
Qed.

Lemma readDigits_digit (d : Z) (rest : string) (acc cnt : Z) :
  0 <= d <= 9 ->
  readDigits (String (digitChar d) rest) acc cnt = readDigits rest (10 * acc + d) (cnt + 1).
Proof.
  intros H. cbn [readDigits]. now rewrite isDigit_digitChar, digitVal_digitChar.
Qed.

Lemma readDigits_digitsFuel (fuel : nat) :
  forall (z : Z) (rest : string) (acc cnt : Z),
    0 <= z < 2 ^ Z.of_nat (S fuel) ->
    exists len,
      0 < len
      /\ readDigits (digitsFuel (S fuel) z ++ rest) acc cnt
         = readDigits rest (acc * 10 ^ len + z) (cnt + len).
Proof.
  induction fuel as [|fuel IH]; intros z rest acc cnt Hz; rewrite digitsFuel_step.
  - change (2 ^ Z.of_nat 1) with 2 in Hz.
    destruct (Z.ltb_spec z 10); [|lia].
    exists 1. split; [lia|]. cbn [append]. rewrite readDigits_digit by lia.
    f_equal. lia.
  - destruct (Z.ltb_spec z 10) as [Hlt|Hge].
    + exists 1. split; [lia|]. cbn [append]. rewrite readDigits_digit by lia.
      f_equal. lia.
    + assert (Hq : 0 <= z / 10 < 2 ^ Z.of_nat (S fuel)).
      { rewrite (Nat2Z.inj_succ (S fuel)), Z.pow_succ_r in Hz by lia.
        split; [apply Z.div_pos; lia|].
        apply Z.div_lt_upper_bound; lia. }
      pose proof (Z.mod_pos_bound z 10 ltac:(lia)) as Hm.
      rewrite append_assoc. cbn [append].
      destruct (IH (z / 10) (String (digitChar (z mod 10)) rest) acc cnt Hq) as (len & Hl & ->).
      exists (len + 1). split; [lia|].
      rewrite readDigits_digit by lia.
      rewrite Z.pow_add_r by lia. change (10 ^ 1) with 10.
      pose proof (Z.div_mod z 10 ltac:(lia)).
      f_equal; lia.
Qed.

(** Printing is exact: reading the digits of a printed non-negative integer
    gives the integer back, so the fuel of [digitsFuel] never runs out. *)
Lemma intToString_reads_back (z : Z) :
  0 <= z -> exists len, readDigits (intToString z) 0 0 = (z, len, "").
Proof.
  intros Hz. unfold intToString. destruct (Z.ltb_spec z 0); [lia|].
  assert (Hb : 0 <= z < 2 ^ Z.of_nat (S (Z.to_nat (Z.log2 z)))).
  { rewrite Nat2Z.inj_succ, Z2Nat.id by apply Z.log2_nonneg.
    split; [assumption|].
    destruct (Z.eq_dec z 0) as [->|]; [reflexivity|]. apply Z.log2_spec. lia. }
  destruct (readDigits_digitsFuel _ z "" 0 0 Hb) as (len & _ & Hr).
  exists len. rewrite <- (append_empty_r (digitsFuel _ z)).
  rewrite Hr. reflexivity.
Qed.

(** The reference generated from a value of [Math.random()] is "TP-", the
    year, "-" and an integer between 10000 and 99999. *)
Lemma generateReferenceId_shape (year : Z) (rnd : number) :
  isUnitInterval rnd = true ->
  exists n, 10000 <= n <= 99999
    /\ generateReferenceId year rnd = "TP-" ++ intToString year ++ "-" ++ intToString n.
Proof.
  intros Hr. unfold generateReferenceId.
  assert (Hx : (exists s, mul rnd (ofZ 90000) = S754_zero s)
               \/ atMost (mul rnd (ofZ 90000)) (Zpos (K90 - 1)) (-36)).
  { destruct (unit_interval_cases rnd Hr) as [[s ->]|(m & e & -> & Hc & He & Hm)].
    - left. exists s. rewrite ofZ_90000. unfold mul, SFmul. now destruct s.
    - right. now apply mul_random_upper. }
  destruct (add_offset_between _ Hx) as (m & e & Hadd & Hc & Hlo & Hhi).
  destruct (floor_five_digits m e Hc Hlo Hhi) as (z & Hz & Hf).
  exists z. split; [assumption|].
  rewrite Hadd, Hf, toString_ofZ; [reflexivity|].
  change (2 ^ 53) with 9007199254740992. lia.
Qed.

End Printing.

(** ** The history view *)

Section HistoryView.

Lemma filter_Subsequence {A : Type} (p : A -> bool) (l : list A) :
  Subsequence (filter p l) l.
Proof.
  induction l as [|x l IH]; simpl.
  - constructor.
  - destruct (p x); now constructor.
Qed.

Lemma filter_all {A : Type} (p : A -> bool) (l : list A) :
  (forall x, p x = true) -> filter p l = l.
Proof.
  intros Hp. induction l as [|x l IH]; simpl; [reflexivity|].
  now rewrite Hp, IH.
Qed.

Lemma view_predicate_agrees (f : HistoryFilter) (search : string) (entry : HistoryEntry.t) :
  matchesFilter f entry
  && matchesSearch (JsString.toLowerCase (JsString.trim search)) entry
  = viewPredicate f (JsString.trim search) entry.
Proof.
  unfold viewPredicate, matchesSearch, matchesFilter, includesIgnoringCase.
  now rewrite toLowerCase_truthy, truthy_trim, negb_involutive, isBlank_trim.
Qed.

(** C9.  The history view is the list of the entries of the history that
    satisfy the predicate of the specification, in the order of the history
    (it is a subsequence of it), the query being the search text without the
    white space around it; changing the filter or the search text leaves the
    history itself alone; and with an empty query, choosing sent, then
    received, then all shows the whole history again. *)
Theorem filteredHistory_is_pure_filter :
  (forall st,
     filteredHistory st
     = filter (viewPredicate (historyFilter st) (JsString.trim (historySearch st)))
         (history st)
     /\ Subsequence (filteredHistory st) (history st))
  /\ (forall supported st f v,
        history (dispatch supported (ChangeHistoryFilter f) st) = history st
        /\ history (dispatch supported (ChangeHistorySearch v) st) = history st)
  /\ (forall supported st,
        historySearch st = "" ->
        let st1 := dispatch supported (ChangeHistoryFilter (only Direction.sent)) st in
        let st2 := dispatch supported (ChangeHistoryFilter (only Direction.received)) st1 in
        let st3 := dispatch supported (ChangeHistoryFilter all) st2 in
        filteredHistory st1 = filter (fun e => Direction.eqb (HistoryEntry.direction e) Direction.sent) (history st)
        /\ filteredHistory st2 = filter (fun e => Direction.eqb (HistoryEntry.direction e) Direction.received) (history st)
        /\ filteredHistory st3 = history st).
Proof.
  split; [|split].
  - intros st. unfold filteredHistory, filterHistory. split.
    + apply filter_ext. intros e. apply view_predicate_agrees.
    + apply filter_Subsequence.
  - intros supported st f v. split; reflexivity.
  - intros supported st Hq st1 st2 st3.
    unfold filteredHistory, filterHistory; simpl. rewrite Hq; simpl.
    repeat split.
    + apply filter_ext. intros e. unfold matchesSearch; simpl. apply andb_true_r.
    + apply filter_ext. intros e. unfold matchesSearch; simpl. apply andb_true_r.
    + now apply filter_all.
Qed.

End HistoryView.

(** ** Commit *)

Section Commit.

(** C1.  [finalizeTransfer] puts one entry in front of the history, built
    from the detail's reference, recipient, note and amount with direction
    sent and stamped with the commit time; the earlier entries keep their
    places behind it.  The balance becomes [Math.max(0, balance - amount)],
    the detail with the new time stamp becomes [lastTransfer], the draft is
    reset, the pending detail cleared, the biometric status idle and the
    screen success.  The 300 ms timer runs exactly this function. *)
Theorem finalizeTransfer_commits (time : Z) (detail : TransferDetail.t) (st : AppState) :
  let st' := finalizeTransfer time detail st in
  history st'
  = {| HistoryEntry.id := TransferDetail.reference detail;
       HistoryEntry.recipient := TransferDetail.recipient detail;
       HistoryEntry.note := TransferDetail.note detail;
       HistoryEntry.amount := TransferDetail.amount detail;
       HistoryEntry.direction := Direction.sent;
       HistoryEntry.timestamp := time |} :: history st
  /\ List.length (history st') = S (List.length (history st))
  /\ (forall i, nth_error (history st') (S i) = nth_error (history st) i)
  /\ balance st' = Math_max pZero (sub (balance st) (TransferDetail.amount detail))
  /\ lastTransfer st'
     = Some {| TransferDetail.recipient := TransferDetail.recipient detail;
               TransferDetail.amount := TransferDetail.amount detail;
               TransferDetail.note := TransferDetail.note detail;
               TransferDetail.reference := TransferDetail.reference detail;
               TransferDetail.timestamp := time |}
  /\ draft st' = defaultDraft
  /\ pendingTransfer st' = None
  /\ biometricStatus st' = Biometric.idle
  /\ screen st' = Screen.success
  /\ (forall o, runTask o (TaskFinalize detail) st = finalizeTransfer (now (clock o)) detail st).
Proof.
  intros st'. subst st'. unfold finalizeTransfer; simpl.
  repeat split.
Qed.

End Commit.

(** ** Validation *)

Section Validation.

Variable env : Clock.
Variable st : AppState.

Let recipientText := TransferDraft.recipient (draft st).
Let amountValue := parseAmount (TransferDraft.amount (draft st)).

Lemma invalid_iff_not_positive (v : number) :
  negb (ToBoolean v) || le v pZero = negb (isPositive v).
Proof. destruct v as [[]|[]| |[] m e]; reflexivity. Qed.

Lemma lt_irrefl (v : number) : SFltb v v = false.
Proof.
  unfold SFltb. destruct v as [[]|[]| |[] m e]; simpl; try reflexivity;
    rewrite Z.compare_refl, Pos.compare_cont_refl; reflexivity.
Qed.

(** C6.  A blank recipient (empty, or white space only) is refused with
    EmptyRecipient whatever the amount is; the pending transfer and the
    screen stay as they were. *)
Theorem blank_recipient_is_refused :
  isBlank recipientText = true ->
  handleContinueToConfirm env st = setTransferError EmptyRecipient st
  /\ transferError (handleContinueToConfirm env st) = EmptyRecipient
  /\ pendingTransfer (handleContinueToConfirm env st) = pendingTransfer st
  /\ screen (handleContinueToConfirm env st) = screen st.
Proof.
  intros Hb. unfold handleContinueToConfirm.
  fold recipientText. rewrite truthy_trim, Hb. simpl.
  repeat split.
Qed.

(** C4.  With a recipient that is not blank, a parsed amount above zero and
    above the balance is refused with InsufficientBalance, and the error
    message is the only cell that changes.  An amount equal to the balance
    is never refused with InsufficientBalance. *)
Theorem amount_above_balance_is_refused :
  isBlank recipientText = false ->
  (isPositive amountValue = true ->
   gt amountValue (balance st) = true ->
   handleContinueToConfirm env st = setTransferError InsufficientBalance st
   /\ balance (handleContinueToConfirm env st) = balance st
   /\ history (handleContinueToConfirm env st) = history st
   /\ draft (handleContinueToConfirm env st) = draft st
   /\ pendingTransfer (handleContinueToConfirm env st) = pendingTransfer st
   /\ screen (handleContinueToConfirm env st) = screen st)
  /\ (amountValue = balance st ->
      transferError (handleContinueToConfirm env st) <> InsufficientBalance).
Proof.
  intros Hb. unfold handleContinueToConfirm.
  fold recipientText amountValue. rewrite truthy_trim, Hb. simpl.
  rewrite invalid_iff_not_positive. split.
  - intros Hpos Hgt. rewrite Hpos, Hgt. simpl. repeat split.
  - intros Heq. destruct (isPositive amountValue); simpl; [|discriminate].
    unfold gt. rewrite <- Heq, lt_irrefl. simpl. discriminate.
Qed.

(** C5, as the code has it.  With a recipient that is not blank, the draft
    is refused with InvalidAmount exactly when the parsed amount is not above
    zero: NaN, a zero, or negative (finite or -Infinity).  Then nothing but
    the error message changes: no pending transfer is created and the screen
    stays.  +Infinity is above zero and is left to the balance check. *)
Theorem invalid_amount_iff_not_positive :
  isBlank recipientText = false ->
  (transferError (handleContinueToConfirm env st) = InvalidAmount
   <-> isPositive amountValue = false)
  /\ (isPositive amountValue = false ->
      handleContinueToConfirm env st = setTransferError InvalidAmount st
      /\ pendingTransfer (handleContinueToConfirm env st) = pendingTransfer st
      /\ screen (handleContinueToConfirm env st) = screen st)
  /\ (isPositive amountValue = false
      <-> isPositiveFinite amountValue = false /\ amountValue <> pInfinity).
Proof.
  intros Hb. unfold handleContinueToConfirm.
  fold recipientText amountValue. rewrite truthy_trim, Hb. simpl.
  rewrite invalid_iff_not_positive.
  split; [|split].
  - destruct (isPositive amountValue); simpl.
    + split; [|discriminate].
      destruct (gt amountValue (balance st)); simpl; discriminate.
    + split; reflexivity.
  - intros Hn. rewrite Hn. simpl. repeat split.
  - destruct amountValue as [[]|[]| |[] m e]; simpl; split; intros H;
      try discriminate; try (split; [reflexivity | discriminate]); try reflexivity;
      destruct H as [H1 H2]; try discriminate; now elim H2.
Qed.

End Validation.

(** C4, the concrete scenario: over a balance of 500 the amount "600" is
    refused with InsufficientBalance and the balance is still 500. *)
Lemma amount_above_balance_is_refused_witness :
  transferError (handleContinueToConfirm noon lowBalanceState) = InsufficientBalance
  /\ balance (handleContinueToConfirm noon lowBalanceState) = ofZ 500.
Proof.
  destruct (amount_above_balance_is_refused noon lowBalanceState) as [H _].
  - reflexivity.
  - destruct H as (H1 & H2 & _).
    + vm_compute; reflexivity.
    + vm_compute; reflexivity.
    + split; [rewrite H1; reflexivity | exact H2].
Defined.

(** C6 on a recipient of three spaces. *)
Lemma blank_recipient_is_refused_witness :
  transferError
    (handleContinueToConfirm noon (setDraftRecipient "   " lowBalanceState))
  = EmptyRecipient.
Proof.
  apply (blank_recipient_is_refused noon (setDraftRecipient "   " lowBalanceState)).
  reflexivity.
Defined.

(** C5 on the amount "abc", which parses as NaN. *)
Lemma invalid_amount_iff_not_positive_witness :
  transferError (handleContinueToConfirm noon (setDraftAmount "abc" lowBalanceState))
  = InvalidAmount.
Proof.
  apply (invalid_amount_iff_not_positive noon (setDraftAmount "abc" lowBalanceState)).
  - reflexivity.
  - vm_compute; reflexivity.
Defined.

(** C5 as the specification states it fails on the amount "Infinity": it is
    not a positive finite number, yet the draft is refused with
    InsufficientBalance, not with InvalidAmount. *)
Lemma infinity_is_not_invalid_amount :
  isBlank (TransferDraft.recipient (draft infinityState)) = false
  /\ parseAmount (TransferDraft.amount (draft infinityState)) = pInfinity
  /\ isPositiveFinite (parseAmount (TransferDraft.amount (draft infinityState))) = false
  /\ transferError (handleContinueToConfirm noon infinityState) = InsufficientBalance
  /\ transferError (handleContinueToConfirm noon infinityState) <> InvalidAmount.
Proof.
  repeat split; try (vm_compute; reflexivity).
  vm_compute. discriminate.
Qed.

(** ** Staging a transfer *)

Lemma le_not_gt (v b : number) : le v b = true -> gt v b = false.
Proof.
  unfold le, gt, SFleb, SFltb.
  destruct v as [[]|[]| |[] mv ev], b as [[]|[]| |[] mb eb]; simpl; try discriminate;
    try reflexivity;
    rewrite (Z.compare_antisym ev eb);
    change (Pos.compare_cont Eq mb mv) with (Pos.compare_cont (CompOpp Eq) mb mv);
    rewrite <- (Pos.compare_cont_antisym mv mb Eq);
    destruct (Z.compare ev eb); simpl; try discriminate; try reflexivity;
    destruct (Pos.compare_cont Eq mv mb); simpl; try discriminate; reflexivity.
Qed.

Lemma Math_round_half_away (x : number) :
  nonNegative x -> Math_round x = roundHalfAwayFromZero x.
Proof.
  intros H. destruct x as [[]|[]| |[] m e]; try (simpl in H; contradiction); reflexivity.
Qed.

Section Staging.

Variable env : Clock.
Variable st : AppState.

Let recipientText := TransferDraft.recipient (draft st).
Let amountValue := parseAmount (TransferDraft.amount (draft st)).

(** When the Continue button is enabled, none of the three guards fires. *)
Lemma enabled_continue_stages :
  canContinue st = true ->
  transferError (handleContinueToConfirm env st) = ""
  /\ screen (handleContinueToConfirm env st) = Screen.confirm
  /\ pendingTransfer (handleContinueToConfirm env st) <> None.
Proof.
  unfold canContinue, currentDraftAmount. fold amountValue. intros H.
  apply andb_true_iff in H as [H Hle]. apply andb_true_iff in H as [Hr Hgt].
  assert (Hpos : isPositive amountValue = true).
  { unfold gt, SFltb in Hgt. destruct amountValue as [[]|[]| |[] m e]; try discriminate;
      reflexivity. }
  unfold handleContinueToConfirm. fold amountValue.
  rewrite Hr, invalid_iff_not_positive, Hpos, (le_not_gt _ _ Hle). simpl.
  repeat split. discriminate.
Qed.

(** C3.  A draft with a recipient that is not blank and a parsed amount
    above zero and at most the balance is staged: the pending detail holds
    the trimmed recipient and note, the amount [Math.round(v * 100) / 100]
    (which rounds half away from zero, [v * 100] being positive), the
    reference "TP-", the year, "-" and a five-digit number, and the current
    time; the screen becomes confirm.  Balance, history, last transfer and
    draft are untouched.  [Math.random()] is taken to return a valid value
    in [0, 1), as ECMAScript requires. *)
Theorem valid_draft_is_staged :
  isBlank recipientText = false ->
  isPositive amountValue = true ->
  le amountValue (balance st) = true ->
  isUnitInterval (random env) = true ->
  exists n,
    10000 <= n <= 99999
    /\ isFiveDigits (intToString n) = true
    /\ pendingTransfer (handleContinueToConfirm env st)
       = Some {| TransferDetail.recipient := JsString.trim recipientText;
                 TransferDetail.amount :=
                   div (roundHalfAwayFromZero (mul amountValue (ofZ 100))) (ofZ 100);
                 TransferDetail.note := JsString.trim (TransferDraft.note (draft st));
                 TransferDetail.reference :=
                   "TP-" ++ intToString (fullYear env) ++ "-" ++ intToString n;
                 TransferDetail.timestamp := now env |}
    /\ div (roundHalfAwayFromZero (mul amountValue (ofZ 100))) (ofZ 100)
       = div (Math_round (mul amountValue (ofZ 100))) (ofZ 100)
    /\ screen (handleContinueToConfirm env st) = Screen.confirm
    /\ balance (handleContinueToConfirm env st) = balance st
    /\ history (handleContinueToConfirm env st) = history st
    /\ lastTransfer (handleContinueToConfirm env st) = lastTransfer st
    /\ draft (handleContinueToConfirm env st) = draft st.
Proof.
  intros Hb Hpos Hle Hrnd.
  destruct (generateReferenceId_shape (fullYear env) (random env) Hrnd) as (n & Hn & Href).
  exists n. split; [assumption|]. split; [now apply intToString_five_digits|].
  assert (Hround : Math_round (mul amountValue (ofZ 100))
                   = roundHalfAwayFromZero (mul amountValue (ofZ 100))).
  { apply Math_round_half_away. rewrite ofZ_100. now apply mul_nonNegative. }
  unfold handleContinueToConfirm. fold recipientText amountValue.
  rewrite truthy_trim, Hb. simpl negb. cbv iota.
  rewrite invalid_iff_not_positive, Hpos. simpl negb. cbv iota.
  rewrite (le_not_gt _ _ Hle). rewrite Href, Hround.
  repeat split.
Qed.

End Staging.

(** C3 on the first concrete scenario of the specification: over the seeded
    balance of 125000 the draft Asha / "2000" / "lunch" is staged with the
    amount 2000. *)
Lemma valid_draft_is_staged_witness :
  exists n,
    pendingTransfer (handleContinueToConfirm noon draftedState)
    = Some {| TransferDetail.recipient := "Asha";
              TransferDetail.amount := ofZ 2000;
              TransferDetail.note := "lunch";
              TransferDetail.reference := "TP-2026-" ++ intToString n;
              TransferDetail.timestamp := 1000 |}.
Proof.
  destruct (valid_draft_is_staged noon draftedState) as (n & _ & _ & Hp & _).
  - reflexivity.
  - vm_compute; reflexivity.
  - vm_compute; reflexivity.
  - vm_compute; reflexivity.
  - exists n. rewrite Hp. vm_compute. reflexivity.
Defined.

(** ** The wallet *)

Section Wallet.

Variable supported : bool.
Variable t0 : Z.

Lemma takeTask_Forall (P : Task -> Prop) (k : nat) (ts : list Task) (t : Task)
    (rest : list Task) :
  Forall P ts -> takeTask k ts = Some (t, rest) -> P t /\ Forall P rest.
Proof.
  revert k t rest. induction ts as [|u ts IH]; intros k t rest Hf Ht.
  - destruct k; discriminate.
  - inversion Hf as [|? ? Hu Hts]; subst.
    destruct k as [|k]; simpl in Ht.
    + injection Ht as <- <-. now split.
    + destruct (takeTask k ts) as [[v r]|] eqn:Hk; [|discriminate].
      injection Ht as <- <-. destruct (IH k v r Hts Hk) as [Hv Hr]. auto.
Qed.

Lemma goodBalance_ofZ_125000 : goodBalance (ofZ 125000).
Proof. split; [reflexivity | vm_compute; discriminate]. Qed.

Lemma walletInvariant_init : walletInvariant (initialState t0).
Proof.
  split; [exact goodBalance_ofZ_125000|]. split; [discriminate|].
  repeat constructor.
Qed.

Lemma walletInvariant_dispatch (ev : Event) (st : AppState) :
  walletInvariant st -> walletInvariant (dispatch supported ev st).
Proof.
  unfold walletInvariant. intros (Hb & Hp & Ht).
  destruct ev; simpl; auto.
  - unfold handleLogin. destruct (negb (JsString.truthy _)); simpl; auto.
    destruct (negb (rememberMe st)); simpl; auto.
  - unfold handleBack. destruct (screen st); simpl; auto.
  - destruct (nth_error quickAmounts k); simpl; auto.
  - unfold handleContinueToConfirm.
    destruct (negb (JsString.truthy _)); simpl; auto.
    rewrite invalid_iff_not_positive.
    destruct (isPositive _) eqn:Hv; simpl; auto.
    destruct (gt _ _); simpl; auto.
    split; [assumption|]. split; [|assumption].
    intros detail Hd. injection Hd as <-. simpl.
    now apply staged_amount_nonNegative.
  - unfold handleFingerprint. destruct (pendingTransfer st) as [detail|] eqn:Hd; simpl.
    + split; [assumption|]. split; [now rewrite Hd|].
      apply Forall_app. split; [assumption|]. repeat constructor. simpl. now apply Hp.
    + rewrite Hd. auto.
  - unfold handleStartQrScan. destruct (cameraStatus st), supported; simpl; auto;
      (split; [assumption|]; split; [assumption|]);
      apply Forall_app; split; try assumption; repeat constructor.
  - unfold handleBottomNav. destruct (negb (isLoggedIn st)); auto.
    destruct next; simpl; auto.
  - destruct (takeTask k (tasks st)) as [[t rest]|] eqn:Hk; auto.
    destruct (takeTask_Forall _ _ _ _ _ Ht Hk) as [Hok Hrest].
    destruct t; simpl; auto.
    + split; [assumption|]. split; [assumption|].
      apply Forall_app. split; [assumption|]. repeat constructor. exact Hok.
    + split; [|split; [discriminate | assumption]].
      now apply commit_balance.
    + destruct (granted o); simpl; auto.
      split; [assumption|]. split; [assumption|].
      apply Forall_app. split; [assumption|]. repeat constructor.
    + destruct captured; simpl; auto.
  - destruct stop; simpl; auto.
  - destruct stop; simpl; auto.
Qed.

Lemma walletInvariant_renderScreen (st : AppState) :
  walletInvariant st -> walletInvariant (renderScreen st).
Proof. unfold renderScreen. destruct (_ && _); auto. Qed.

Lemma walletInvariant_reachable (st : AppState) :
  reachable supported t0 st -> walletInvariant st.
Proof.
  induction 1 as [|st ev Hr IH].
  - apply walletInvariant_init.
  - unfold step. now apply walletInvariant_renderScreen, walletInvariant_dispatch.
Qed.

Lemma balance_renderScreen (st : AppState) : balance (renderScreen st) = balance st.
Proof. unfold renderScreen. destruct (_ && _); reflexivity. Qed.

(** Only the commit callback writes the balance. *)
Lemma balance_step (ev : Event) (st : AppState) :
  balance (step supported ev st) = balance st
  \/ exists k o detail rest,
       ev = Due k o
       /\ takeTask k (tasks st) = Some (TaskFinalize detail, rest)
       /\ balance (step supported ev st)
          = Math_max pZero (sub (balance st) (TransferDetail.amount detail)).
Proof.
  unfold step. rewrite balance_renderScreen.
  destruct ev; simpl; try (left; reflexivity).
  - left. unfold handleLogin. destruct (negb (JsString.truthy _)); [reflexivity|].
    destruct (negb (rememberMe st)); reflexivity.
  - left. unfold handleBack. destruct (screen st); reflexivity.
  - left. destruct (nth_error quickAmounts k); reflexivity.
  - left. unfold handleContinueToConfirm.
    repeat match goal with |- context [if ?b then _ else _] => destruct b end; reflexivity.
  - left. unfold handleFingerprint. destruct (pendingTransfer st); reflexivity.
  - left. unfold handleStartQrScan. destruct (cameraStatus st), supported; reflexivity.
  - left. unfold handleBottomNav. destruct (negb (isLoggedIn st)); [reflexivity|].
    destruct next; reflexivity.
  - destruct (takeTask k (tasks st)) as [[t rest]|] eqn:Hk; [|left; reflexivity].
    destruct t; simpl; try (left; reflexivity).
    + right. exists k, o, pending, rest. auto.
    + left. destruct (granted o); reflexivity.
    + left. destruct captured; reflexivity.
  - left. destruct stop; reflexivity.
  - left. destruct stop; reflexivity.
Qed.

Lemma goodBalance_le_refl (b : number) : goodBalance b -> le b b = true.
Proof.
  destruct b as [[]|[]| |[] m e]; simpl; try contradiction; intros _;
    [reflexivity | apply le_refl_finite].
Qed.

(** C2.  In every reachable state the balance is at least zero; no step of
    the event loop raises it; the only step that writes it is the commit
    callback, which sets it to [Math.max(0, balance - amount)]; and a draft
    whose parsed amount is above the balance is turned down with nothing but
    the error message changed. *)
Theorem balance_never_negative_never_increases :
  (forall st, reachable supported t0 st -> le pZero (balance st) = true)
  /\ (forall st ev, reachable supported t0 st ->
        le (balance (step supported ev st)) (balance st) = true)
  /\ (forall st ev,
        balance (step supported ev st) = balance st
        \/ exists k o detail rest,
             ev = Due k o
             /\ takeTask k (tasks st) = Some (TaskFinalize detail, rest)
             /\ balance (step supported ev st)
                = Math_max pZero (sub (balance st) (TransferDetail.amount detail)))
  /\ (forall st env,
        gt (parseAmount (TransferDraft.amount (draft st))) (balance st) = true ->
        exists message,
          message <> ""
          /\ handleContinueToConfirm env st = setTransferError message st).
Proof.
  split; [|split; [|split]].
  - intros st Hr. apply goodBalance_le_zero. now apply walletInvariant_reachable.
  - intros st ev Hr.
    pose proof (walletInvariant_reachable st Hr) as (Hb & Hp & Ht).
    destruct (balance_step ev st) as [-> | (k & o & detail & rest & _ & Hk & ->)].
    + now apply goodBalance_le_refl.
    + destruct (takeTask_Forall _ _ _ _ _ Ht Hk) as [Hok _].
      now apply commit_balance.
  - intros st ev. apply balance_step.
  - intros st env Hgt. unfold handleContinueToConfirm.
    destruct (negb (JsString.truthy _)).
    + exists EmptyRecipient. split; [discriminate | reflexivity].
    + destruct (negb (ToBoolean _) || le _ pZero).
      * exists InvalidAmount. split; [discriminate | reflexivity].
      * rewrite Hgt. exists InsufficientBalance. split; [discriminate | reflexivity].
Qed.

End Wallet.

(** ** Navigation *)

Section Navigation.

Variable supported : bool.
Variable t0 : Z.

Lemma reachable_run (evs : list Event) (st : AppState) :
  reachable supported t0 st -> reachable supported t0 (run supported evs st).
Proof.
  revert st. induction evs as [|ev evs IH]; intros st H; simpl.
  - exact H.
  - apply IH. now constructor.
Qed.

Lemma renderScreen_guards (st : AppState) :
  userName (renderScreen st) = userName st
  /\ (userName st = "" -> screen (renderScreen st) = Screen.login).
Proof.
  unfold renderScreen, isLoggedIn. split.
  - destruct (_ && _); reflexivity.
  - intros H. rewrite H. simpl.
    destruct (screen st) eqn:Hs; simpl; try reflexivity; exact Hs.
Qed.

(** C8.  While nobody is logged in ([userName] empty) the bottom navigation
    does nothing, the guard of [renderScreen] turns every other screen into
    login, and so every reachable state with an empty [userName] shows the
    login screen. *)
Theorem logged_out_means_login_screen :
  (forall st next, userName st = "" -> handleBottomNav next st = st)
  /\ (forall st, userName st = "" ->
        screen (renderScreen st) = Screen.login /\ userName (renderScreen st) = "")
  /\ (forall st, reachable supported t0 st -> userName st = "" ->
        screen st = Screen.login
        /\ screen st <> Screen.transfer /\ screen st <> Screen.history
        /\ screen st <> Screen.confirm).
Proof.
  split; [|split].
  - intros st next H. unfold handleBottomNav, isLoggedIn. now rewrite H.
  - intros st H. destruct (renderScreen_guards st) as [Hu Hs].
    split; [auto | congruence].
  - intros st Hr Hu.
    assert (Hl : screen st = Screen.login).
    { destruct Hr as [|st ev Hr].
      - reflexivity.
      - unfold step in *. destruct (renderScreen_guards (dispatch supported ev st)) as [Hn Hs].
        apply Hs. congruence. }
    rewrite Hl. repeat split; discriminate.
Qed.

(** C7, as the code has it.  The Cancel button and the header's
    back arrow on the confirm screen only change the screen.  The draft is
    kept as entered and the pending detail stays where it is; only a
    successful continue-to-confirm or the commit timer changes the pending
    detail. *)
Theorem cancel_keeps_draft_and_pending :
  (forall st,
     screen (cancelConfirm st) = Screen.transfer
     /\ draft (cancelConfirm st) = draft st
     /\ pendingTransfer (cancelConfirm st) = pendingTransfer st
     /\ balance (cancelConfirm st) = balance st
     /\ history (cancelConfirm st) = history st
     /\ lastTransfer (cancelConfirm st) = lastTransfer st)
  /\ (forall st, screen st = Screen.confirm -> handleBack st = cancelConfirm st)
  /\ (forall ev st,
        pendingTransfer (step supported ev st) = pendingTransfer st
        \/ (exists env, ev = ContinueToConfirm env)
        \/ (exists k o detail rest,
              ev = Due k o /\ takeTask k (tasks st) = Some (TaskFinalize detail, rest))).
Proof.
  split; [|split].
  - intros st. repeat split.
  - intros st H. unfold handleBack. now rewrite H.
  - intros ev st.
    assert (Hr : forall s, pendingTransfer (renderScreen s) = pendingTransfer s).
    { intros s. unfold renderScreen. destruct (_ && _); reflexivity. }
    unfold step. rewrite Hr.
    destruct ev; simpl; try (left; reflexivity).
    + left. unfold handleLogin.
      destruct (negb (JsString.truthy _)); [reflexivity|].
      destruct (negb (rememberMe st)); reflexivity.
    + left. unfold handleBack. destruct (screen st); reflexivity.
    + left. destruct (nth_error quickAmounts k); reflexivity.
    + right; left. now exists env.
    + left. unfold handleFingerprint.
      destruct (pendingTransfer st) eqn:Hp; simpl; congruence.
    + left. unfold handleStartQrScan.
      destruct (cameraStatus st), supported; reflexivity.
    + left. unfold handleBottomNav.
      destruct (negb (isLoggedIn st)); [reflexivity|]. destruct next; reflexivity.
    + destruct (takeTask k (tasks st)) as [[t rest]|] eqn:Ht; [|left; reflexivity].
      destruct t; simpl; try (left; reflexivity).
      * right; right. now exists k, o, pending, rest.
      * left. destruct (granted o); reflexivity.
      * left. destruct captured; reflexivity.
    + left. destruct stop; reflexivity.
    + left. destruct stop; reflexivity.
Qed.

End Navigation.

(** C7 as the specification states it fails: the staged transfer of the
    scenario is still pending after Cancel. *)
Lemma cancel_does_not_discard_pending :
  reachable true 0 stagedState
  /\ screen stagedState = Screen.confirm
  /\ pendingTransfer (cancelConfirm stagedState)
     = Some {| TransferDetail.recipient := "Asha";
               TransferDetail.amount := ofZ 2000;
               TransferDetail.note := "lunch";
               TransferDetail.reference := "TP-2026-10000";
               TransferDetail.timestamp := 1000 |}
  /\ pendingTransfer (step true GoTransfer stagedState) <> None.
Proof.
  split; [|split; [|split]].
  - apply reachable_step, reachable_run. constructor.
  - vm_compute; reflexivity.
  - vm_compute; reflexivity.
  - vm_compute. discriminate.
Qed.

(** The first concrete scenario of the specification, run through the event
    loop: the staged transfer is approved, both timers come due, and the
    balance is 123000 with the transfer to Asha in front of the history. *)
Example asha_scenario :
  let later := {| clock := {| now := 2000; fullYear := 2026; random := pZero |};
                  granted := None |} in
  let st := run true [Fingerprint; Due 1 later; Due 1 later] stagedState in
  balance st = ofZ 123000
  /\ hd_error (history st)
     = Some {| HistoryEntry.id := "TP-2026-10000";
               HistoryEntry.recipient := "Asha";
               HistoryEntry.note := "lunch";
               HistoryEntry.amount := ofZ 2000;
               HistoryEntry.direction := Direction.sent;
               HistoryEntry.timestamp := 2000 |}
  /\ screen st = Screen.success
  /\ pendingTransfer st = None.
Proof. vm_compute. repeat split. Qed.

(** ** The offline scan without a camera *)

Section NoCamera.

Variable t0 : Z.

Lemma takeTask_no_camera (k : nat) (ts : list Task) (t : Task) (rest : list Task) :
  existsb isCameraTask ts = false ->
  takeTask k ts = Some (t, rest) ->
  isCameraTask t = false /\ existsb isCameraTask rest = false.
Proof.
  revert k t rest. induction ts as [|u ts IH]; intros k t rest Hn Ht.
  - destruct k; discriminate.
  - simpl in Hn. apply orb_false_iff in Hn as [Hu Hts].
    destruct k as [|k]; simpl in Ht.
    + injection Ht as <- <-. now split.
    + destruct (takeTask k ts) as [[v r]|] eqn:Hk; [|discriminate].
      injection Ht as <- <-.
      destruct (IH k v r Hts Hk) as [Hv Hr].
      split; [assumption|]. simpl. now rewrite Hu, Hr.
Qed.

Lemma existsb_snoc (ts : list Task) (t : Task) :
  existsb isCameraTask (ts ++ [t]) = existsb isCameraTask ts || isCameraTask t.
Proof. rewrite existsb_app. simpl. now rewrite orb_false_r. Qed.

Lemma cameraUntouched_dispatch (ev : Event) (st : AppState) :
  cameraUntouched st -> cameraUntouched (dispatch false ev st).
Proof.
  unfold cameraUntouched. intros (Hs & Hc & Hr & Ha & Ht).
  destruct ev; simpl; auto.
  - unfold handleLogin. destruct (negb (JsString.truthy _)); simpl; auto.
    destruct (negb (rememberMe st)); simpl; auto.
  - unfold handleBack. destruct (screen st); simpl; auto.
  - destruct (nth_error quickAmounts k); simpl; auto.
  - unfold handleContinueToConfirm.
    repeat match goal with |- context [if ?b then _ else _] => destruct b end; simpl; auto.
  - unfold handleFingerprint. destruct (pendingTransfer st); simpl; auto.
    rewrite existsb_snoc, Ht. auto 6.
  - unfold handleStartQrScan. destruct Hs as [E | E]; rewrite E; simpl; auto 6.
  - unfold handleBottomNav. destruct (negb (isLoggedIn st)); auto.
    destruct next; simpl; auto.
  - destruct (takeTask k (tasks st)) as [[t rest]|] eqn:Hk; auto.
    destruct (takeTask_no_camera _ _ _ _ Ht Hk) as [Hn Hrest].
    destruct t; try discriminate; simpl; auto.
    rewrite existsb_snoc, Hrest. auto 6.
  - destruct stop; simpl; auto 6.
  - destruct stop; simpl; auto.
Qed.

Lemma cameraUntouched_reachable (st : AppState) :
  reachable false t0 st -> cameraUntouched st.
Proof.
  induction 1 as [|st ev Hr IH].
  - unfold cameraUntouched; simpl; auto.
  - unfold step, renderScreen.
    apply (cameraUntouched_dispatch ev) in IH.
    destruct (_ && _); [|assumption].
    exact IH.
Qed.

(** C10.  In a runtime without camera capability, starting a scan sets the
    camera status to error with the message "Camera not supported in this
    browser."; the screen does not change, no stream is held, no callback is
    scheduled, and neither a scan result nor its time stamp is recorded. *)
Theorem startScan_without_camera (st : AppState) :
  reachable false t0 st ->
  let st' := handleStartQrScan false st in
  cameraStatus st' = Camera.error
  /\ cameraError st' = "Camera not supported in this browser."
  /\ cameraError st' <> ""
  /\ screen st' = screen st
  /\ cameraStream st' = None
  /\ tasks st' = tasks st
  /\ offlineScanResult st' = ""
  /\ offlineRecordedAt st' = None
  /\ screen (step false StartQrScan st) = screen st.
Proof.
  intros Hr st'. subst st'.
  pose proof (cameraUntouched_reachable st Hr) as (Hs & Hc & Hres & Hat & Ht).
  assert (Hh : handleStartQrScan false st
               = setCameraStatus Camera.error
                   (setCameraError "Camera not supported in this browser."
                      (setOfflineScanResult "" (setCameraError "" st)))).
  { unfold handleStartQrScan. destruct Hs as [-> | ->]; reflexivity. }
  unfold step, dispatch. rewrite Hh. simpl.
  repeat split; try assumption; try discriminate.
  unfold renderScreen; simpl.
  destruct (negb (isLoggedIn _) && negb (Screen.eqb (screen st) Screen.login)) eqn:Hg;
    [|reflexivity].
  simpl. apply andb_true_iff in Hg as [Hl _].
  destruct Hr as [|s ev Hr]; [reflexivity|].
  unfold step. unfold step in Hl.
  unfold isLoggedIn in Hl. simpl in Hl.
  destruct (renderScreen_guards (dispatch false ev s)) as [Hu Hlogin].
  destruct (userName (renderScreen (dispatch false ev s))) eqn:Hn; [|discriminate].
  symmetry. apply Hlogin. congruence.
Qed.

End NoCamera.

(** C10 in the initial state. *)
Lemma startScan_without_camera_witness :
  cameraStatus (handleStartQrScan false (initialState 0)) = Camera.error
  /\ screen (handleStartQrScan false (initialState 0)) = Screen.login.
Proof.
  pose proof (startScan_without_camera 0 (initialState 0) (reachable_init false 0)) as H.
  simpl in H. destruct H as (H1 & _ & _ & H4 & _).
  split; [exact H1 | exact H4].
Defined.

(** * Further properties *)

(** ** Session *)

Section Session.

Variable supported : bool.
Variable t0 : Z.

(** X1.  [handleLogin]: a blank name (empty, or white space only) sets the
    error message and nothing else, so the user name and the screen stay.
    Otherwise the user name becomes the name without the white space around
    it, the session is open, the error is cleared, the PIN is kept exactly
    when "remember me" is ticked, and the screen is home, also after the
    render that follows. *)
Theorem login_opens_session (st : AppState) :
  (isBlank (loginName st) = true ->
     handleLogin st = setLoginError "Please enter your name" st
     /\ userName (handleLogin st) = userName st
     /\ screen (handleLogin st) = screen st)
  /\ (isBlank (loginName st) = false ->
        userName (handleLogin st) = JsString.trim (loginName st)
        /\ isLoggedIn (handleLogin st) = true
        /\ loginError (handleLogin st) = ""
        /\ loginPin (handleLogin st) = (if rememberMe st then loginPin st else "")
        /\ screen (handleLogin st) = Screen.home
        /\ screen (step supported Login st) = Screen.home).
Proof.
  unfold step, dispatch, handleLogin. rewrite truthy_trim. split; intros Hb; rewrite Hb; simpl.
  - repeat split.
  - assert (Ht : JsString.truthy (JsString.trim (loginName st)) = true)
      by (rewrite truthy_trim, Hb; reflexivity).
    unfold renderScreen, isLoggedIn.
    destruct (rememberMe st); simpl; rewrite Ht; simpl; repeat split.
Qed.

Lemma trimEnd_idempotent (s : string) :
  JsString.trimEnd (JsString.trimEnd s) = JsString.trimEnd s.
Proof.
  induction s as [|c s IH]; [reflexivity|]. simpl.
  destruct (JsString.trimEnd s) as [|a u] eqn:Hs.
  - destruct (JsString.isWhiteSpace c) eqn:Hc; simpl; [reflexivity | now rewrite Hc].
  - change (JsString.trimEnd (String c (String a u)))
      with (match JsString.trimEnd (String a u) with
            | "" => if JsString.isWhiteSpace c then "" else String c ""
            | t => String c t
            end).
    now rewrite IH.
Qed.

Lemma trim_idempotent (s : string) : JsString.trim (JsString.trim s) = JsString.trim s.
Proof.
  unfold JsString.trim.
  destruct (isBlank s) eqn:Hb.
  - now rewrite (trimStart_blank s Hb).
  - destruct (trimStart_not_blank s Hb) as (c & t & -> & Hc).
    assert (Hh : exists u, JsString.trimEnd (String c t) = String c u).
    { simpl. destruct (JsString.trimEnd t); [rewrite Hc|]; eauto. }
    destruct Hh as [u Hu]. rewrite Hu. simpl JsString.trimStart. rewrite Hc.
    rewrite <- Hu. apply trimEnd_idempotent.
Qed.

Lemma userName_dispatch (ev : Event) (st : AppState) :
  userName (dispatch supported ev st) = userName st
  \/ (ev = Login /\ isBlank (loginName st) = false
      /\ userName (dispatch supported ev st) = JsString.trim (loginName st)).
Proof.
  destruct ev; simpl; try (left; reflexivity).
  - unfold handleLogin. rewrite truthy_trim.
    destruct (isBlank (loginName st)) eqn:Hb; simpl; [left; reflexivity|].
    right. destruct (rememberMe st); simpl; auto.
  - left. unfold handleBack. destruct (screen st); reflexivity.
  - left. destruct (nth_error quickAmounts k); reflexivity.
  - left. unfold handleContinueToConfirm.
    repeat match goal with |- context [if ?b then _ else _] => destruct b end; reflexivity.
  - left. unfold handleFingerprint. destruct (pendingTransfer st); reflexivity.
  - left. unfold handleStartQrScan. destruct (cameraStatus st), supported; reflexivity.
  - left. unfold handleBottomNav. destruct (negb (isLoggedIn st)); [reflexivity|].
    destruct next; reflexivity.
  - left. destruct (takeTask k (tasks st)) as [[t rest]|]; [|reflexivity].
    destruct t; simpl; try reflexivity.
    + destruct (granted o); reflexivity.
    + destruct captured; reflexivity.
  - left. destruct stop; reflexivity.
  - left. destruct stop; reflexivity.
Qed.

(** X2.  There is no way out of a session: once [userName] is not empty no
    event of the loop empties it.  In every reachable state the user name
    has no white space around it and is either empty or not blank. *)
Theorem session_never_ends :
  (forall ev st, userName st <> "" -> userName (step supported ev st) <> "")
  /\ (forall st, reachable supported t0 st ->
        JsString.trim (userName st) = userName st
        /\ (userName st = "" \/ isBlank (userName st) = false)).
Proof.
  assert (Hstep : forall ev st,
             userName (step supported ev st) = userName st
             \/ (isBlank (loginName st) = false
                 /\ userName (step supported ev st) = JsString.trim (loginName st))).
  { intros ev st. unfold step.
    rewrite (proj1 (renderScreen_guards (dispatch supported ev st))).
    destruct (userName_dispatch ev st) as [H | (_ & Hb & H)]; auto. }
  split.
  - intros ev st Hn. destruct (Hstep ev st) as [-> | [Hb ->]]; [assumption|].
    intros Ht. apply trim_blank in Ht. congruence.
  - induction 1 as [|st ev Hr [IH1 IH2]].
    + split; [reflexivity | now left].
    + destruct (Hstep ev st) as [-> | [Hb ->]]; [now split|].
      split; [apply trim_idempotent|]. right. now rewrite isBlank_trim.
Qed.

End Session.

(** ** Back arrow and workflow screens *)

Section BackAndNav.

Variable supported : bool.
Variable t0 : Z.

Lemma setScreen_same (st : AppState) : setScreen (screen st) st = st.
Proof. now destruct st. Qed.

(** X3.  [handleBack] changes nothing but the screen; the header shows the
    back arrow ([showBack]) exactly on the screens that [handleBack] leaves;
    without the arrow [handleBack] is the identity; two steps back end on
    home (or stay on login), and a third one changes nothing. *)
Theorem back_arrow_matches_handleBack (st : AppState) :
  handleBack st = setScreen (screen (handleBack st)) st
  /\ (showBack st = true <-> screen (handleBack st) <> screen st)
  /\ (showBack st = false -> handleBack st = st)
  /\ (screen (handleBack (handleBack st)) = Screen.home
      \/ screen (handleBack (handleBack st)) = Screen.login)
  /\ handleBack (handleBack (handleBack st)) = handleBack (handleBack st).
Proof.
  unfold showBack, handleBack.
  destruct (screen st) eqn:Hs; simpl; rewrite ?Hs; simpl;
    (split; [try reflexivity; symmetry; rewrite <- Hs; apply setScreen_same|]);
    (split; [split; [try discriminate; intros _; discriminate | intros H; try reflexivity; now elim H]|]);
    (split; [try discriminate; intros _; reflexivity|]);
    (split; [auto|]); rewrite ?Hs; reflexivity.
Qed.







End BackAndNav.

(** ** The Continue button *)

Section ContinueButton.

Variable supported : bool.
Variable t0 : Z.

Lemma not_gt_le (v b : number) :
  isPositive v = true -> goodBalance b -> gt v b = false -> le v b = true.
Proof.
  unfold le, gt, SFleb, SFltb.
  destruct v as [[]|[]| |[] mv ev], b as [[]|[]| |[] mb eb]; simpl;
    try discriminate; try contradiction; try reflexivity.
  intros _ _.
  rewrite (Z.compare_antisym ev eb).
  change (Pos.compare_cont Eq mb mv) with (Pos.compare_cont (CompOpp Eq) mb mv).
  rewrite <- (Pos.compare_cont_antisym mv mb Eq).
  destruct (Z.compare ev eb); simpl; try discriminate; try reflexivity.
  destruct (Pos.compare_cont Eq mv mb); simpl; try discriminate; reflexivity.
Qed.

Lemma gt_goodBalance_positive (v b : number) :
  goodBalance b -> gt v b = true -> isPositive v = true.
Proof.
  unfold gt, SFltb.
  destruct v as [[]|[]| |[] mv ev], b as [[]|[]| |[] mb eb]; simpl;
    try discriminate; try contradiction; reflexivity.
Qed.

(** X6.  In every reachable state the Continue button and its handler
    agree: [canContinue] holds exactly when [handleContinueToConfirm] accepts
    the draft (it clears the error message); where the button is disabled
    the handler would change nothing but the error message; the inline
    "Insufficient balance" hint is shown only when the button is disabled,
    and, for a recipient that is not blank, exactly when the handler would
    refuse the draft with InsufficientBalance. *)
Theorem continue_button_agrees_with_handler (env : Clock) (st : AppState) :
  reachable supported t0 st ->
  (canContinue st = true <-> transferError (handleContinueToConfirm env st) = "")
  /\ (canContinue st = false ->
      handleContinueToConfirm env st
      = setTransferError (transferError (handleContinueToConfirm env st)) st)
  /\ (showsInsufficientHint st = true -> canContinue st = false)
  /\ (isBlank (TransferDraft.recipient (draft st)) = false ->
      (showsInsufficientHint st = true
       <-> transferError (handleContinueToConfirm env st) = InsufficientBalance)).
Proof.
  intros Hr. destruct (walletInvariant_reachable supported t0 st Hr) as [Hb _].
  unfold canContinue, showsInsufficientHint, currentDraftAmount, handleContinueToConfirm.
  set (v := parseAmount (TransferDraft.amount (draft st))).
  rewrite truthy_trim, invalid_iff_not_positive.
  assert (Hgt0 : gt v pZero = isPositive v).
  { unfold gt, SFltb. destruct v as [[]|[]| |[] m e]; reflexivity. }
  rewrite Hgt0.
  destruct (isBlank (TransferDraft.recipient (draft st))) eqn:Hrc; simpl.
  { repeat split; discriminate. }
  destruct (isPositive v) eqn:Hp; simpl.
  - destruct (gt v (balance st)) eqn:Hg; simpl.
    + assert (Hle : le v (balance st) = false).
      { destruct (le v (balance st)) eqn:Hle; [|reflexivity].
        apply le_not_gt in Hle. congruence. }
      rewrite Hle. repeat split; try discriminate; auto.
    + rewrite (not_gt_le _ _ Hp Hb Hg). repeat split; try discriminate; auto.
  - repeat split; try discriminate.
    intros Hg. apply (gt_goodBalance_positive _ _ Hb) in Hg. congruence.
Qed.

End ContinueButton.

(** X6 on the drafted scenario: the button is enabled and the handler accepts. *)
Lemma continue_button_agrees_with_handler_witness :
  canContinue draftedState = true
  /\ transferError (handleContinueToConfirm noon draftedState) = "".
Proof.
  assert (Hr : reachable true 0 draftedState).
  { apply reachable_run. constructor. }
  split.
  - vm_compute; reflexivity.
  - apply (continue_button_agrees_with_handler true 0 noon draftedState Hr).
    vm_compute; reflexivity.
Defined.

(** ** The ledger *)

Section Ledger.

Variable supported : bool.
Variable t0 : Z.

Lemma ledger_renderScreen (st : AppState) :
  history (renderScreen st) = history st
  /\ lastTransfer (renderScreen st) = lastTransfer st.
Proof. unfold renderScreen. destruct (_ && _); split; reflexivity. Qed.

(** Only the commit callback writes the history and the last transfer. *)
Lemma ledger_step (ev : Event) (st : AppState) :
  (history (step supported ev st) = history st
   /\ lastTransfer (step supported ev st) = lastTransfer st)
  \/ exists k o detail rest,
       ev = Due k o
       /\ takeTask k (tasks st) = Some (TaskFinalize detail, rest)
       /\ history (step supported ev st)
          = entryOf (completedAt (now (clock o)) detail) :: history st
       /\ lastTransfer (step supported ev st)
          = Some (completedAt (now (clock o)) detail).
Proof.
  unfold step. destruct (ledger_renderScreen (dispatch supported ev st)) as [-> ->].
  destruct ev; simpl; try (left; split; reflexivity).
  - left. unfold handleLogin. destruct (negb (JsString.truthy _)); [split; reflexivity|].
    destruct (negb (rememberMe st)); split; reflexivity.
  - left. unfold handleBack. destruct (screen st); split; reflexivity.
  - left. destruct (nth_error quickAmounts k); split; reflexivity.
  - left. unfold handleContinueToConfirm.
    repeat match goal with |- context [if ?b then _ else _] => destruct b end;
      split; reflexivity.
  - left. unfold handleFingerprint. destruct (pendingTransfer st); split; reflexivity.
  - left. unfold handleStartQrScan. destruct (cameraStatus st), supported; split; reflexivity.
  - left. unfold handleBottomNav. destruct (negb (isLoggedIn st)); [split; reflexivity|].
    destruct next; split; reflexivity.
  - destruct (takeTask k (tasks st)) as [[t rest]|] eqn:Hk; [|left; split; reflexivity].
    destruct t; simpl; try (left; split; reflexivity).
    + right. exists k, o, pending, rest. repeat split. exact Hk.
    + left. destruct (granted o); split; reflexivity.
    + left. destruct captured; split; reflexivity.
  - left. destruct stop; split; reflexivity.
  - left. destruct stop; split; reflexivity.
Qed.

Lemma ledgerInvariant_reachable (st : AppState) :
  reachable supported t0 st -> ledgerInvariant t0 st.
Proof.
  induction 1 as [|st ev Hr (added & Hh & Hf & Hl)].
  - exists []. repeat split. constructor.
  - destruct (ledger_step ev st) as [[Eh El] | (k & o & detail & rest & _ & Hk & Eh & El)].
    + exists added. rewrite Eh, El. auto.
    + exists (entryOf (completedAt (now (clock o)) detail) :: added).
      rewrite Eh, El, Hh. split; [reflexivity|]. split.
      * constructor; [|assumption]. split; [reflexivity|]. simpl.
        destruct (walletInvariant_reachable supported t0 st Hr) as (_ & _ & Ht).
        exact (proj1 (takeTask_Forall _ _ _ _ _ Ht Hk)).
      * now exists added.
Qed.

(** X7.  The history grows in front and only by commits: a step leaves the
    history and the last transfer alone unless it runs a commit callback,
    which puts the entry of the completed detail in front and makes that
    detail the last transfer.  So in every reachable state the seeded
    entries are the end of the history, every entry before them is a sent
    transfer with an amount that is not NaN and not negative, the last
    transfer is the newest of them, the home screen's recent activity has
    three entries, and the only received entry is the seeded payroll. *)
Theorem history_grows_only_in_front :
  (forall ev st,
     (history (step supported ev st) = history st
      /\ lastTransfer (step supported ev st) = lastTransfer st)
     \/ exists k o detail rest,
          ev = Due k o
          /\ takeTask k (tasks st) = Some (TaskFinalize detail, rest)
          /\ history (step supported ev st)
             = entryOf (completedAt (now (clock o)) detail) :: history st
          /\ lastTransfer (step supported ev st)
             = Some (completedAt (now (clock o)) detail))
  /\ (forall st, reachable supported t0 st ->
        ledgerInvariant t0 st
        /\ List.length (recentActivity st) = 3%nat
        /\ filter (fun e => Direction.eqb (HistoryEntry.direction e) Direction.received)
             (history st)
           = [HistoryEntry.mk "TP-2026-00016" "Salary" "November payroll"
                (ofZ 145000) Direction.received (t0 - hour * 72)]).
Proof.
  split; [exact ledger_step|].
  intros st Hr. pose proof (ledgerInvariant_reachable st Hr) as Hi.
  split; [exact Hi|]. destruct Hi as (added & Hh & Hf & _).
  unfold recentActivity. rewrite Hh. split.
  - rewrite length_firstn, length_app. unfold seededHistory.
    cbn [List.length]. lia.
  - rewrite filter_app. simpl.
    replace (filter _ added) with (@nil HistoryEntry.t); [reflexivity|].
    symmetry. clear Hh. induction Hf as [|e l [He _] _ IH]; simpl; [reflexivity|].
    now rewrite He.
Qed.

End Ledger.

(** ** Approval *)

Section Approval.

Variable supported : bool.

Lemma takeTask_at_length (ts : list Task) (t : Task) (rest : list Task) :
  takeTask (List.length ts) (ts ++ t :: rest)%list = Some (t, (ts ++ rest)%list).
Proof.
  induction ts as [|u ts IH]; simpl; [reflexivity|]. now rewrite IH.
Qed.

Lemma renderScreen_loggedIn (st : AppState) :
  userName st <> "" -> renderScreen st = st.
Proof.
  intros H. unfold renderScreen, isLoggedIn.
  destruct (userName st); [now elim H | reflexivity].
Qed.

(** X8.  The approval chain composes to [finalizeTransfer]: with a pending
    detail, in a session, the fingerprint press sets the status to verifying,
    the 600 ms callback sets it to verified with ledger untouched, and after
    the 300 ms callback the state is exactly [finalizeTransfer] of the detail
    captured at the press, applied to the state before the press. *)
Theorem approval_runs_finalizeTransfer (st : AppState) (detail : TransferDetail.t)
    (o1 o2 : Outcome) :
  pendingTransfer st = Some detail ->
  userName st <> "" ->
  let k := List.length (tasks st) in
  biometricStatus (step supported Fingerprint st) = Biometric.verifying
  /\ biometricStatus (run supported [Fingerprint; Due k o1] st) = Biometric.verified
  /\ history (run supported [Fingerprint; Due k o1] st) = history st
  /\ balance (run supported [Fingerprint; Due k o1] st) = balance st
  /\ run supported [Fingerprint; Due k o1; Due k o2] st
     = finalizeTransfer (now (clock o2)) detail st.
Proof.
  intros Hp Hu k. subst k.
  set (st1 := addTask (TaskVerified detail) (setBiometricStatus Biometric.verifying st)).
  set (st2 := addTask (TaskFinalize detail) (setBiometricStatus Biometric.verified st)).
  assert (E1 : step supported Fingerprint st = st1).
  { unfold step. simpl. unfold handleFingerprint. rewrite Hp.
    now apply renderScreen_loggedIn. }
  assert (E2 : step supported (Due (List.length (tasks st)) o1) st1 = st2).
  { unfold step, st1. simpl. rewrite takeTask_at_length. simpl. rewrite app_nil_r.
    now apply renderScreen_loggedIn. }
  assert (E3 : step supported (Due (List.length (tasks st)) o2) st2
               = finalizeTransfer (now (clock o2)) detail st).
  { unfold step, st2. simpl. rewrite takeTask_at_length. simpl. rewrite app_nil_r.
    rewrite renderScreen_loggedIn by exact Hu. destruct st; reflexivity. }
  change (run supported [Fingerprint; Due (List.length (tasks st)) o1] st)
    with (step supported (Due (List.length (tasks st)) o1) (step supported Fingerprint st)).
  change (run supported [Fingerprint; Due (List.length (tasks st)) o1;
                         Due (List.length (tasks st)) o2] st)
    with (step supported (Due (List.length (tasks st)) o2)
            (step supported (Due (List.length (tasks st)) o1)
               (step supported Fingerprint st))).
  rewrite E1, E2, E3. repeat split.
Qed.

Lemma tasks_renderScreen (st : AppState) : tasks (renderScreen st) = tasks st.
Proof. unfold renderScreen. destruct (_ && _); reflexivity. Qed.

(** No handler cancels a scheduled callback or touches the ledger. *)
Lemma ui_step_frame (ev : Event) (st : AppState) :
  isDue ev = false ->
  history (step supported ev st) = history st
  /\ balance (step supported ev st) = balance st
  /\ lastTransfer (step supported ev st) = lastTransfer st
  /\ exists new, tasks (step supported ev st) = (tasks st ++ new)%list.
Proof.
  intros Hd. unfold step.
  destruct (ledger_renderScreen (dispatch supported ev st)) as [-> ->].
  rewrite balance_renderScreen, tasks_renderScreen.
  destruct ev; try discriminate Hd; simpl;
    try (repeat split; exists []; now rewrite app_nil_r).
  - unfold handleLogin. destruct (negb (JsString.truthy _)); simpl;
      [|destruct (negb (rememberMe st)); simpl];
      repeat split; exists []; now rewrite app_nil_r.
  - unfold handleBack. destruct (screen st); simpl;
      repeat split; exists []; now rewrite app_nil_r.
  - destruct (nth_error quickAmounts k); simpl;
      repeat split; exists []; now rewrite app_nil_r.
  - unfold handleContinueToConfirm.
    repeat match goal with |- context [if ?b then _ else _] => destruct b end; simpl;
      repeat split; exists []; now rewrite app_nil_r.
  - unfold handleFingerprint. destruct (pendingTransfer st) as [d|]; simpl; repeat split.
    + now exists [TaskVerified d].
    + exists []; now rewrite app_nil_r.
  - unfold handleStartQrScan. destruct (cameraStatus st), supported; simpl; repeat split;
      try (exists []; now rewrite app_nil_r);
      now exists [TaskCameraRequest (cameraStream st)].
  - unfold handleBottomNav. destruct (negb (isLoggedIn st)); [|destruct next]; simpl;
      repeat split; exists []; now rewrite app_nil_r.
  - destruct stop; simpl; repeat split; exists []; now rewrite app_nil_r.
  - destruct stop; simpl; repeat split; exists []; now rewrite app_nil_r.
Qed.

Lemma ui_run_frame (evs : list Event) (st : AppState) :
  forallb (fun ev => negb (isDue ev)) evs = true ->
  history (run supported evs st) = history st
  /\ balance (run supported evs st) = balance st
  /\ lastTransfer (run supported evs st) = lastTransfer st
  /\ exists new, tasks (run supported evs st) = (tasks st ++ new)%list.
Proof.
  revert st. induction evs as [|ev evs IH]; intros st H.
  - repeat split. exists []. now rewrite app_nil_r.
  - simpl in H. apply andb_true_iff in H as [Hev Hevs].
    apply negb_true_iff in Hev.
    destruct (ui_step_frame ev st Hev) as (Hh & Hb & Hl & new1 & Ht).
    destruct (IH (step supported ev st) Hevs) as (Hh' & Hb' & Hl' & new2 & Ht').
    change (run supported (ev :: evs) st) with (run supported evs (step supported ev st)).
    rewrite Hh', Hb', Hl', Ht', Hh, Hb, Hl, Ht. repeat split.
    exists (new1 ++ new2)%list. now rewrite app_assoc.
Qed.

Lemma run_app (evs1 evs2 : list Event) (st : AppState) :
  run supported (evs1 ++ evs2) st = run supported evs2 (run supported evs1 st).
Proof. apply fold_left_app. Qed.

(** X9.  Nothing the user does after the fingerprint press stops the
    transfer: whatever events other than callbacks (Cancel, back, editing the
    draft, the navigation, ...) come between the press and its two callbacks,
    the detail captured at the press is committed when the second callback
    runs: its entry is in front of the history, the balance is
    [Math.max(0, balance - amount)], and the pending detail is cleared. *)
Theorem approval_survives_navigation (st : AppState) (detail : TransferDetail.t)
    (evs1 evs2 : list Event) (o1 o2 : Outcome) :
  pendingTransfer st = Some detail ->
  forallb (fun ev => negb (isDue ev)) evs1 = true ->
  forallb (fun ev => negb (isDue ev)) evs2 = true ->
  let pressed := run supported evs1 (step supported Fingerprint st) in
  let verified := step supported (Due (List.length (tasks st)) o1) pressed in
  let st' :=
    step supported (Due (Nat.pred (List.length (tasks pressed))) o2)
      (run supported evs2 verified) in
  history st' = entryOf (completedAt (now (clock o2)) detail) :: history st
  /\ balance st' = Math_max pZero (sub (balance st) (TransferDetail.amount detail))
  /\ lastTransfer st' = Some (completedAt (now (clock o2)) detail)
  /\ pendingTransfer st' = None.
Proof.
  intros Hp H1 H2 pressed verified st'.
  (* the press *)
  assert (E0 : history (step supported Fingerprint st) = history st
               /\ balance (step supported Fingerprint st) = balance st
               /\ tasks (step supported Fingerprint st)
                  = (tasks st ++ [TaskVerified detail])%list).
  { unfold step. destruct (ledger_renderScreen (dispatch supported Fingerprint st)) as [-> _].
    rewrite balance_renderScreen, tasks_renderScreen. simpl.
    unfold handleFingerprint. rewrite Hp. repeat split. }
  destruct E0 as (Hh0 & Hb0 & Ht0).
  destruct (ui_run_frame evs1 (step supported Fingerprint st) H1)
    as (Hh1 & Hb1 & _ & new1 & Ht1).
  fold pressed in Hh1, Hb1, Ht1. rewrite Ht0, <- app_assoc in Ht1. simpl in Ht1.
  (* the first timer *)
  assert (E2 : history verified = history st
               /\ balance verified = balance st
               /\ tasks verified = ((tasks st ++ new1) ++ [TaskFinalize detail])%list).
  { unfold verified, step.
    destruct (ledger_renderScreen
                (dispatch supported (Due (List.length (tasks st)) o1) pressed)) as [-> _].
    rewrite balance_renderScreen, tasks_renderScreen. simpl.
    rewrite Ht1, takeTask_at_length. simpl. rewrite Hh1, Hb1, Hh0, Hb0. repeat split. }
  destruct E2 as (Hh2 & Hb2 & Ht2).
  destruct (ui_run_frame evs2 verified H2) as (Hh3 & Hb3 & _ & new2 & Ht3).
  rewrite Ht2, <- app_assoc in Ht3. simpl in Ht3.
  (* the second timer *)
  assert (Hk : Nat.pred (List.length (tasks pressed)) = List.length (tasks st ++ new1)%list).
  { rewrite Ht1, !length_app. simpl. lia. }
  unfold st', step. rewrite Hk.
  set (last := run supported evs2 verified) in *.
  assert (E4 : dispatch supported (Due (List.length (tasks st ++ new1)%list) o2) last
               = finalizeTransfer (now (clock o2)) detail
                   (setTasks ((tasks st ++ new1) ++ new2)%list last)).
  { simpl. rewrite Ht3, takeTask_at_length. reflexivity. }
  rewrite E4.
  destruct (ledger_renderScreen
              (finalizeTransfer (now (clock o2)) detail
                 (setTasks ((tasks st ++ new1) ++ new2)%list last))) as [-> ->].
  rewrite balance_renderScreen.
  unfold renderScreen. 
  match goal with |- context [if ?b then _ else _] => destruct b end;
    simpl; rewrite Hh3, Hb3, Hh2, Hb2; repeat split.
Qed.

(** X10.  The approve button is disabled only while the status is
    verifying.  After the 600 ms callback the status is verified, the confirm
    screen still shows the pending detail and the button is enabled again; a
    second press then schedules a second chain, and once all callbacks have
    run the same detail is committed twice: two entries in front of the
    history and the amount taken from the balance twice. *)
Theorem second_press_commits_twice (st : AppState) (detail : TransferDetail.t)
    (o1 o2 o3 o4 : Outcome) :
  pendingTransfer st = Some detail ->
  userName st <> "" ->
  screen st = Screen.confirm ->
  let k := List.length (tasks st) in
  let verified := run supported [Fingerprint; Due k o1] st in
  let st' := run supported [Fingerprint; Due k o2; Due k o3; Due k o4] verified in
  fingerprintDisabled (step supported Fingerprint st) = true
  /\ screen verified = Screen.confirm
  /\ fingerprintDisabled verified = false
  /\ pendingTransfer verified = Some detail
  /\ history st'
     = entryOf (completedAt (now (clock o4)) detail)
       :: entryOf (completedAt (now (clock o2)) detail) :: history st
  /\ balance st'
     = Math_max pZero
         (sub (Math_max pZero (sub (balance st) (TransferDetail.amount detail)))
            (TransferDetail.amount detail)).
Proof.
  intros Hp Hu Hs k verified st'. subst k.
  set (k := List.length (tasks st)) in *.
  set (st1 := addTask (TaskVerified detail) (setBiometricStatus Biometric.verifying st)).
  set (st2 := addTask (TaskFinalize detail) (setBiometricStatus Biometric.verified st)).
  assert (E1 : step supported Fingerprint st = st1).
  { unfold step. simpl. unfold handleFingerprint. rewrite Hp.
    now apply renderScreen_loggedIn. }
  assert (E2 : step supported (Due k o1) st1 = st2).
  { unfold step, st1, k. simpl. rewrite takeTask_at_length. simpl. rewrite app_nil_r.
    now apply renderScreen_loggedIn. }
  assert (Ev : verified = st2).
  { unfold verified.
    change (run supported [Fingerprint; Due k o1] st)
      with (step supported (Due k o1) (step supported Fingerprint st)).
    now rewrite E1, E2. }
  set (st3 := addTask (TaskVerified detail) (setBiometricStatus Biometric.verifying st2)).
  assert (E3 : step supported Fingerprint st2 = st3).
  { unfold step. simpl. unfold handleFingerprint. simpl. rewrite Hp.
    now apply renderScreen_loggedIn. }
  set (st4 := finalizeTransfer (now (clock o2)) detail
                (setTasks (tasks st ++ [TaskVerified detail])%list st3)).
  assert (E4 : step supported (Due k o2) st3 = st4).
  { unfold step, st3, st2, k. simpl. rewrite <- app_assoc. simpl.
    rewrite takeTask_at_length. simpl.
    now apply renderScreen_loggedIn. }
  set (st5 := addTask (TaskFinalize detail)
                (setBiometricStatus Biometric.verified (setTasks (tasks st) st4))).
  assert (E5 : step supported (Due k o3) st4 = st5).
  { unfold step, st4, k. simpl. rewrite takeTask_at_length. simpl. rewrite app_nil_r.
    now apply renderScreen_loggedIn. }
  assert (E6 : step supported (Due k o4) st5
               = finalizeTransfer (now (clock o4)) detail (setTasks (tasks st) st5)).
  { unfold step, st5, k. simpl. rewrite takeTask_at_length. simpl. rewrite app_nil_r.
    now apply renderScreen_loggedIn. }
  assert (E' : st' = finalizeTransfer (now (clock o4)) detail (setTasks (tasks st) st5)).
  { unfold st'. rewrite Ev.
    change (run supported [Fingerprint; Due k o2; Due k o3; Due k o4] st2)
      with (step supported (Due k o4) (step supported (Due k o3)
              (step supported (Due k o2) (step supported Fingerprint st2)))).
    now rewrite E3, E4, E5, E6. }
  rewrite E1, Ev, E'. unfold fingerprintDisabled. simpl.
  repeat split; assumption.
Qed.

End Approval.

(** ** The boot overlay *)

Section Boot.

Variable supported : bool.
Variable t0 : Z.

Lemma takeTask_filter (p : Task -> bool) (k : nat) (ts : list Task) (t : Task)
    (rest : list Task) :
  takeTask k ts = Some (t, rest) ->
  List.length (filter p ts)
  = ((if p t then 1 else 0) + List.length (filter p rest))%nat.
Proof.
  revert k t rest. induction ts as [|u ts IH]; intros k t rest Ht.
  - destruct k; discriminate.
  - destruct k as [|k]; simpl in Ht.
    + injection Ht as <- <-. simpl. destruct (p u); reflexivity.
    + destruct (takeTask k ts) as [[v r]|] eqn:Hk; [|discriminate].
      injection Ht as <- <-. pose proof (IH k v r Hk) as E. simpl.
      destruct (p u), (p v); simpl; simpl in E; lia.
Qed.

Lemma filter_snoc_other (ts : list Task) (t : Task) :
  isBootTask t = false ->
  filter isBootTask (ts ++ [t])%list = filter isBootTask ts.
Proof. intros H. rewrite filter_app. simpl. rewrite H. apply app_nil_r. Qed.

(** What a handler does to the boot overlay and its timer. *)
Lemma boot_dispatch (ev : Event) (st : AppState) :
  (isBooting (dispatch supported ev st) = isBooting st
   /\ bootTimers (dispatch supported ev st) = bootTimers st)
  \/ (exists k o rest,
        ev = Due k o /\ takeTask k (tasks st) = Some (TaskBoot, rest)
        /\ isBooting (dispatch supported ev st) = false
        /\ bootTimers st = S (bootTimers (dispatch supported ev st))).
Proof.
  unfold bootTimers.
  destruct ev; simpl; try (left; split; reflexivity).
  - left. unfold handleLogin. destruct (negb (JsString.truthy _)); [split; reflexivity|].
    destruct (negb (rememberMe st)); split; reflexivity.
  - left. unfold handleBack. destruct (screen st); split; reflexivity.
  - left. destruct (nth_error quickAmounts k); split; reflexivity.
  - left. unfold handleContinueToConfirm.
    repeat match goal with |- context [if ?b then _ else _] => destruct b end;
      split; reflexivity.
  - left. unfold handleFingerprint. destruct (pendingTransfer st); simpl;
      [|split; reflexivity].
    now rewrite filter_snoc_other.
  - left. unfold handleStartQrScan. destruct (cameraStatus st), supported; simpl;
      rewrite ?filter_snoc_other by reflexivity; split; reflexivity.
  - left. unfold handleBottomNav. destruct (negb (isLoggedIn st)); [split; reflexivity|].
    destruct next; split; reflexivity.
  - destruct (takeTask k (tasks st)) as [[t rest]|] eqn:Hk; [|left; split; reflexivity].
    rewrite (takeTask_filter isBootTask _ _ _ _ Hk).
    destruct t; simpl; rewrite ?filter_snoc_other by reflexivity;
      try (left; split; reflexivity).
    + right. exists k, o, rest. repeat split. exact Hk.
    + left. destruct (granted o); simpl; rewrite ?filter_snoc_other by reflexivity;
        split; reflexivity.
    + left. destruct captured; split; reflexivity.
  - left. destruct stop; split; reflexivity.
  - left. destruct stop; split; reflexivity.
Qed.

Lemma boot_renderScreen (st : AppState) :
  isBooting (renderScreen st) = isBooting st /\ bootTimers (renderScreen st) = bootTimers st.
Proof. unfold renderScreen, bootTimers. destruct (_ && _); split; reflexivity. Qed.

Lemma boot_reachable (st : AppState) :
  reachable supported t0 st -> bootTimers st = if isBooting st then 1%nat else 0%nat.
Proof.
  induction 1 as [|st ev Hr IH]; [reflexivity|].
  unfold step. destruct (boot_renderScreen (dispatch supported ev st)) as [-> ->].
  destruct (boot_dispatch ev st) as [[-> ->] | (k & o & rest & _ & _ & -> & Hn)];
    [assumption|].
  rewrite Hn in IH. destruct (isBooting st); [lia | discriminate].
Qed.

(** X11.  The boot overlay ends with its timer and only with it: in every
    reachable state exactly one boot callback is scheduled while [isBooting]
    holds and none afterwards; a step changes [isBooting] only by running
    that callback; and once false it stays false. *)
Theorem boot_overlay_ends_with_its_timer :
  (forall st, reachable supported t0 st ->
     bootTimers st = if isBooting st then 1%nat else 0%nat)
  /\ (forall ev st,
        isBooting (step supported ev st) = isBooting st
        \/ exists k o rest,
             ev = Due k o /\ takeTask k (tasks st) = Some (TaskBoot, rest)
             /\ isBooting (step supported ev st) = false)
  /\ (forall ev st, isBooting st = false -> isBooting (step supported ev st) = false).
Proof.
  split; [exact boot_reachable|]. split.
  - intros ev st. unfold step.
    rewrite (proj1 (boot_renderScreen (dispatch supported ev st))).
    destruct (boot_dispatch ev st) as [[-> _] | (k & o & rest & He & Hk & Hb & _)];
      [now left|].
    right. now exists k, o, rest.
  - intros ev st Hb. unfold step.
    rewrite (proj1 (boot_renderScreen (dispatch supported ev st))).
    destruct (boot_dispatch ev st) as [[-> _] | (k & o & rest & He & Hk & Hb' & _)];
      assumption.
Qed.

End Boot.

(** ** The amount text *)

Section AmountText.

Lemma removeCommas_app (a b : string) :
  JsString.removeCommas (a ++ b) = JsString.removeCommas a ++ JsString.removeCommas b.
Proof.
  induction a as [|c a IH]; simpl; [reflexivity|].
  destruct (Ascii.eqb c ","%char); simpl; now rewrite IH.
Qed.

Lemma removeCommas_blank (s : string) :
  onlyCommasAndSpace s = true -> isBlank (JsString.removeCommas s) = true.
Proof.
  induction s as [|c s IH]; simpl; [reflexivity|].
  intros H. apply andb_true_iff in H as [Hc Hs].
  destruct (Ascii.eqb c ","%char); simpl in *; [auto|].
  rewrite Hc. auto.
Qed.

Lemma Number_blank (s : string) : isBlank s = true -> Number s = pZero.
Proof. intros H. unfold Number. now rewrite (proj2 (trim_blank s) H). Qed.

(** X12.  Commas in the amount text are dropped wherever they stand; a
    text of commas and white space only (the empty text included) parses as
    +0, so the Continue button is disabled and the handler, for a recipient
    that is not blank, refuses it with InvalidAmount and changes nothing
    else. *)
Theorem amount_text_commas_and_blanks :
  (forall a b, parseAmount (a ++ "," ++ b) = parseAmount (a ++ b))
  /\ (forall s, onlyCommasAndSpace s = true -> parseAmount s = pZero)
  /\ (forall env st,
        onlyCommasAndSpace (TransferDraft.amount (draft st)) = true ->
        canContinue st = false
        /\ (isBlank (TransferDraft.recipient (draft st)) = false ->
            handleContinueToConfirm env st = setTransferError InvalidAmount st)).
Proof.
  assert (Hz : forall s, onlyCommasAndSpace s = true -> parseAmount s = pZero).
  { intros s H. unfold parseAmount. now apply Number_blank, removeCommas_blank. }
  split; [|split; [exact Hz|]].
  - intros a b. unfold parseAmount. now rewrite !removeCommas_app.
  - intros env st H. apply Hz in H. split.
    + unfold canContinue, currentDraftAmount. rewrite H.
      now rewrite andb_false_r.
    + intros Hb. unfold handleContinueToConfirm. rewrite H, truthy_trim, Hb. reflexivity.
Qed.

End AmountText.

(** ** Printing and parsing integers *)

Section RoundTrip.

Lemma allDigits_app (a b : string) :
  allDigits (a ++ b) = allDigits a && allDigits b.
Proof.
  induction a as [|c a IH]; simpl; [reflexivity|]. now rewrite IH, andb_assoc.
Qed.

Lemma allDigits_digitsFuel (fuel : nat) (z : Z) :
  0 <= z -> allDigits (digitsFuel fuel z) = true.
Proof.
  revert z. induction fuel as [|fuel IH]; intros z Hz; [reflexivity|].
  rewrite digitsFuel_step. destruct (Z.ltb_spec z 10).
  - simpl. now rewrite isDigit_digitChar by lia.
  - rewrite allDigits_app, IH by (apply Z.div_pos; lia). simpl.
    pose proof (Z.mod_pos_bound z 10 ltac:(lia)).
    now rewrite isDigit_digitChar by lia.
Qed.

Lemma isDigit_not_special (c : ascii) :
  isDigit c = true ->
  JsString.isWhiteSpace c = false /\ Ascii.eqb c ","%char = false.
Proof.
  destruct c as [[] [] [] [] [] [] [] []]; try discriminate; intros _; split; reflexivity.
Qed.

Lemma removeCommas_digits (s : string) :
  allDigits s = true -> JsString.removeCommas s = s.
Proof.
  induction s as [|c s IH]; simpl; [reflexivity|].
  intros H. apply andb_true_iff in H as [Hc Hs].
  rewrite (proj2 (isDigit_not_special c Hc)), IH by assumption. reflexivity.
Qed.

Lemma trimEnd_digits (s : string) : allDigits s = true -> JsString.trimEnd s = s.
Proof.
  induction s as [|c s IH]; simpl; [reflexivity|].
  intros H. apply andb_true_iff in H as [Hc Hs].
  rewrite IH by assumption. rewrite (proj1 (isDigit_not_special c Hc)).
  now destruct s.
Qed.

Lemma trim_digits (s : string) : allDigits s = true -> JsString.trim s = s.
Proof.
  intros H. unfold JsString.trim.
  replace (JsString.trimStart s) with s; [now apply trimEnd_digits|].
  destruct s as [|c s]; [reflexivity|]. simpl in *.
  apply andb_true_iff in H as [Hc _].
  now rewrite (proj1 (isDigit_not_special c Hc)).
Qed.

(** The printed form of a positive integer starts with a digit from 1 to 9. *)
Lemma digitsFuel_head (fuel : nat) :
  forall z, 0 < z < 2 ^ Z.of_nat (S fuel) ->
    exists d t, 1 <= d <= 9 /\ digitsFuel (S fuel) z = String (digitChar d) t.
Proof.
  induction fuel as [|fuel IH]; intros z Hz; rewrite digitsFuel_step.
  - change (2 ^ Z.of_nat 1) with 2 in Hz.
    destruct (Z.ltb_spec z 10); [|lia]. exists z, "". split; [lia | reflexivity].
  - destruct (Z.ltb_spec z 10) as [Hlt|Hge].
    + exists z, "". split; [lia | reflexivity].
    + assert (Hq : 0 < z / 10 < 2 ^ Z.of_nat (S fuel)).
      { rewrite (Nat2Z.inj_succ (S fuel)), Z.pow_succ_r in Hz by lia.
        split; [apply Z.div_str_pos; lia|].
        apply Z.div_lt_upper_bound; lia. }
      destruct (IH (z / 10) Hq) as (d & t & Hd & ->).
      exists d, (t ++ String (digitChar (z mod 10)) ""). split; [assumption | reflexivity].
Qed.

Lemma readLiteral_leading_digit (d : Z) (t : string) :
  1 <= d <= 9 ->
  readLiteral (String (digitChar d) t)
  = let '(ip, ni, r1) := readDigits (String (digitChar d) t) 0 0 in
    let '(m, nf, r2) :=
      match r1 with
      | String "."%char t => readDigits t ip 0
      | _ => (ip, 0, r1)
      end in
    if 0 <? ni + nf then
      match readExponent r2 with
      | Some ex => ofSignedDecimal false m (ex - nf)
      | None => NaN
      end
    else NaN.
Proof.
  intros H.
  assert (Hc : d = 1 \/ d = 2 \/ d = 3 \/ d = 4 \/ d = 5 \/ d = 6 \/ d = 7
               \/ d = 8 \/ d = 9) by lia.
  repeat (destruct Hc as [-> | Hc]; [reflexivity|]). subst d. reflexivity.
Qed.

Lemma Number_intToString (z : Z) : 0 < z -> Number (intToString z) = ofZ z.
Proof.
  intros Hz.
  assert (Hb : 0 < z < 2 ^ Z.of_nat (S (Z.to_nat (Z.log2 z)))).
  { rewrite Nat2Z.inj_succ, Z2Nat.id by apply Z.log2_nonneg.
    split; [assumption|]. apply Z.log2_spec. lia. }
  assert (Hs : intToString z = digitsFuel (S (Z.to_nat (Z.log2 z))) z).
  { unfold intToString. destruct (Z.ltb_spec z 0); [lia | reflexivity]. }
  assert (Hall : allDigits (intToString z) = true).
  { rewrite Hs. apply allDigits_digitsFuel. lia. }
  destruct (digitsFuel_head _ z Hb) as (d & t & Hd & Hhead).
  destruct (readDigits_digitsFuel (Z.to_nat (Z.log2 z)) z "" 0 0 ltac:(lia))
    as (len & Hlen & Hread).
  rewrite append_empty_r, <- Hs in Hread. simpl in Hread.
  unfold Number. rewrite trim_digits by assumption.
  rewrite <- Hs in Hhead. rewrite Hhead in *.
  rewrite readLiteral_leading_digit by assumption.
  rewrite Hread. cbv iota beta.
  replace (0 <? len + 0) with true by (symmetry; apply Z.ltb_lt; lia).
  cbn [readExponent]. destruct z as [|p|p]; try lia.
  unfold ofSignedDecimal, ofDecimal. rewrite Z.sub_0_r. cbn [Z.leb Z.compare].
  unfold cond_Zopp, ofZ. rewrite Z.pow_0_r, Z.mul_1_r. reflexivity.
Qed.

(** X13.  Printing and parsing agree on integers: for 0 < z < 2^53 the
    amount parsed from [String(z)] is z.  So a quick-amount button sets the
    parsed draft amount to exactly its amount, and changes neither the
    recipient, the note, the screen nor the error message. *)
Theorem quick_amount_round_trip :
  (forall z, 0 < z < 2 ^ 53 -> parseAmount (toString (ofZ z)) = ofZ z)
  /\ (forall supported k amt st,
        nth_error quickAmounts k = Some amt ->
        let st' := dispatch supported (QuickAmount k) st in
        currentDraftAmount st' = amt
        /\ TransferDraft.recipient (draft st') = TransferDraft.recipient (draft st)
        /\ TransferDraft.note (draft st') = TransferDraft.note (draft st)
        /\ screen st' = screen st
        /\ transferError st' = transferError st).
Proof.
  assert (Hrt : forall z, 0 < z < 2 ^ 53 -> parseAmount (toString (ofZ z)) = ofZ z).
  { intros z Hz. rewrite toString_ofZ by assumption. unfold parseAmount.
    rewrite removeCommas_digits; [apply Number_intToString; lia|].
    unfold intToString. destruct (Z.ltb_spec z 0); [lia|].
    apply allDigits_digitsFuel. lia. }
  split; [exact Hrt|].
  intros supported k amt st Hk st'. subst st'. simpl. rewrite Hk.
  unfold currentDraftAmount. simpl.
  assert (Hamt : exists z, 0 < z < 2 ^ 53 /\ amt = ofZ z).
  { change (2 ^ 53) with 9007199254740992.
    unfold quickAmounts in Hk.
    destruct k as [|[|[|[|k]]]]; cbn [nth_error] in Hk;
      [exists 500 | exists 1000 | exists 2000 | exists 5000 | destruct k; discriminate];
      (split; [lia | congruence]). }
  destruct Hamt as (z & Hz & ->). rewrite Hrt by assumption. repeat split.
Qed.

End RoundTrip.

(** ** The scan number *)

Section ScanNumber.










End ScanNumber.

(** ** The offline scan with a camera *)

Section Scan.


Variable supported : bool.


(** X15.  The scan button guards itself and can be retried: a second
    press right after the first changes nothing; when the request is denied
    (in a session, from an idle or failed camera) only the camera error, the
    camera status and the cleared scan result differ from before the press,
    no callback is left, and the next press starts a new request. *)
Theorem scan_press_is_guarded_and_retriable (st : AppState) (o1 : Outcome) :
  userName st <> "" ->
  granted o1 = None ->
  handleStartQrScan supported (handleStartQrScan supported st)
  = handleStartQrScan supported st
  /\ (cameraStatus st = Camera.idle \/ cameraStatus st = Camera.error ->
      let denied := run true [StartQrScan; Due (List.length (tasks st)) o1] st in
      denied = setCameraStatus Camera.error
                 (setCameraError "Camera permission denied or unavailable."
                    (setOfflineScanResult "" st))
      /\ tasks (step true StartQrScan denied)
         = (tasks st ++ [TaskCameraRequest (cameraStream st)])%list
      /\ cameraStatus (step true StartQrScan denied) = Camera.requesting).
Proof.
  intros Hu Hg. split.
  - unfold handleStartQrScan.
    destruct (cameraStatus st) eqn:E, supported; simpl; rewrite ?E; try reflexivity;
      destruct st; reflexivity.
  - intros Hs denied.
    assert (Ed : denied = setCameraStatus Camera.error
                   (setCameraError "Camera permission denied or unavailable."
                      (setOfflineScanResult "" st))).
    { unfold denied.
      change (run true [StartQrScan; Due (List.length (tasks st)) o1] st)
        with (step true (Due (List.length (tasks st)) o1) (step true StartQrScan st)).
      assert (E1 : step true StartQrScan st
                   = addTask (TaskCameraRequest (cameraStream st))
                       (setCameraStatus Camera.requesting
                          (setOfflineScanResult "" (setCameraError "" st)))).
      { unfold step. simpl. unfold handleStartQrScan.
        rewrite renderScreen_loggedIn;
          [|destruct Hs as [E|E]; rewrite E; exact Hu].
        destruct Hs as [E|E]; rewrite E; reflexivity. }
      rewrite E1. unfold step. simpl. rewrite takeTask_at_length. simpl.
      rewrite Hg, app_nil_r. simpl.
      rewrite renderScreen_loggedIn by exact Hu. destruct st; reflexivity. }
    rewrite Ed. unfold step. simpl. unfold handleStartQrScan. simpl.
    rewrite renderScreen_loggedIn by exact Hu. split; [reflexivity|]. split; reflexivity.
Qed.

End Scan.

(** ** Searching the history *)

Section HistorySearch.

Lemma prefix_spec (q s : string) :
  String.prefix q s = true <-> exists b, s = q ++ b.
Proof.
  revert s. induction q as [|c q IH]; intros s.
  - destruct s; simpl; split; intros _; try reflexivity; eexists; reflexivity.
  - destruct s as [|d s]; simpl.
    + split; [discriminate | intros [b H]; discriminate].
    + destruct (ascii_dec c d) as [->|Hn].
      * rewrite IH. split; intros [b H]; exists b; [now rewrite H | now injection H].
      * split; [discriminate | intros [b H]; injection H as H1 H2; now elim Hn].
Qed.

Lemma includes_spec (q s : string) :
  JsString.includes q s = true <-> exists a b, s = a ++ q ++ b.
Proof.
  induction s as [|c s IH].
  - cbn [JsString.includes]. rewrite orb_false_r, prefix_spec. split.
    + intros [b H]. now exists "", b.
    + intros (a & b & H). destruct a; [now exists b | discriminate].
  - cbn [JsString.includes]. rewrite orb_true_iff, prefix_spec, IH. split.
    + intros [[b H] | (a & b & H)].
      * now exists "", b.
      * exists (String c a), b. now rewrite H.
    + intros (a & b & H). destruct a as [|c' a].
      * left. now exists b.
      * right. injection H as _ H. now exists a, b.
Qed.

Lemma includes_trans (q1 q2 s : string) :
  JsString.includes q1 q2 = true -> JsString.includes q2 s = true ->
  JsString.includes q1 s = true.
Proof.
  rewrite !includes_spec. intros (a1 & b1 & ->) (a2 & b2 & ->).
  exists (a2 ++ a1), (b1 ++ b2). now rewrite !append_assoc.
Qed.

Lemma includes_in_empty (q : string) : JsString.includes q "" = true -> q = "".
Proof.
  rewrite includes_spec. intros (a & b & H).
  destruct a; [|discriminate]. destruct q; [reflexivity | discriminate].
Qed.

Lemma matchesSearch_narrows (q1 q2 : string) (entry : HistoryEntry.t) :
  JsString.includes q1 q2 = true ->
  matchesSearch q2 entry = true -> matchesSearch q1 entry = true.
Proof.
  intros Hq. unfold matchesSearch.
  destruct q2 as [|c q2].
  - apply includes_in_empty in Hq. now subst q1.
  - simpl negb. rewrite !orb_false_l, !orb_true_iff.
    intros [H | H]; [left; right | right]; eapply includes_trans; eassumption.
Qed.

Lemma filter_narrows {A : Type} (p1 p2 : A -> bool) (l : list A) :
  (forall x, p2 x = true -> p1 x = true) -> Subsequence (filter p2 l) (filter p1 l).
Proof.
  intros Hp. induction l as [|x l IH]; simpl; [constructor|].
  destruct (p2 x) eqn:E2.
  - rewrite (Hp x E2). now constructor.
  - destruct (p1 x); [now constructor | assumption].
Qed.

Lemma filter_and {A : Type} (p g : A -> bool) (l : list A) :
  filter (fun x => p x && g x) l = filter p (filter g l).
Proof.
  induction l as [|x l IH]; simpl; [reflexivity|].
  destruct (g x); simpl; rewrite ?andb_true_r, ?andb_false_r;
    [destruct (p x)|]; now rewrite IH.
Qed.

Lemma filter_direction_count (l : list HistoryEntry.t) :
  List.length l
  = (List.length
       (filter (fun e => Direction.eqb (HistoryEntry.direction e) Direction.sent) l)
     + List.length
         (filter (fun e => Direction.eqb (HistoryEntry.direction e) Direction.received) l))%nat.
Proof.
  induction l as [|x l IH]; simpl; [reflexivity|].
  destruct (HistoryEntry.direction x); simpl; lia.
Qed.

(** X16.  Narrowing the history view: a query that contains another one
    (both trimmed and lowered) shows a sublist of what the other shows; the
    view of a direction is the view of "all" restricted to that direction;
    and the sent and received views together have as many entries as the
    view of "all". *)
Theorem history_search_narrows_and_partitions :
  (forall f s1 s2 h,
     JsString.includes (JsString.toLowerCase (JsString.trim s1))
       (JsString.toLowerCase (JsString.trim s2)) = true ->
     Subsequence (filterHistory f s2 h) (filterHistory f s1 h))
  /\ (forall d s h,
        filterHistory (only d) s h
        = filter (fun e => Direction.eqb (HistoryEntry.direction e) d)
            (filterHistory all s h))
  /\ (forall s h,
        List.length (filterHistory all s h)
        = (List.length (filterHistory (only Direction.sent) s h)
           + List.length (filterHistory (only Direction.received) s h))%nat).
Proof.
  assert (Hd : forall d s h,
             filterHistory (only d) s h
             = filter (fun e => Direction.eqb (HistoryEntry.direction e) d)
                 (filterHistory all s h)).
  { intros d s h. unfold filterHistory. cbv zeta.
    rewrite <- filter_and. reflexivity. }
  split; [|split; [exact Hd|]].
  - intros f s1 s2 h Hq. unfold filterHistory. apply filter_narrows.
    intros e H. apply andb_true_iff in H as [Hf Hs]. rewrite Hf. simpl.
    eapply matchesSearch_narrows; eassumption.
  - intros s h. rewrite !Hd. apply filter_direction_count.
Qed.

End HistorySearch.

(** ** Concrete runs *)


(** X8 on the staged scenario: press, 600 ms, 300 ms. *)
Lemma approval_runs_finalizeTransfer_witness :
  run true [Fingerprint; Due 1 later; Due 1 later] stagedState
  = finalizeTransfer 2000 stagedDetail stagedState.
Proof.
  apply (approval_runs_finalizeTransfer true stagedState stagedDetail later later).
  - vm_compute; reflexivity.
  - vm_compute; discriminate.
Defined.

(** X9 on the staged scenario: Cancel and a new amount after the press, home
    between the two callbacks. *)
Lemma approval_survives_navigation_witness :
  let pressed :=
    run true [GoTransfer; ChangeAmount "1"] (step true Fingerprint stagedState) in
  let verified := step true (Due (List.length (tasks stagedState)) later) pressed in
  let st' :=
    step true (Due (Nat.pred (List.length (tasks pressed))) later)
      (run true [GoHome] verified) in
  balance st'
  = Math_max pZero (sub (balance stagedState) (TransferDetail.amount stagedDetail)).
Proof.
  intros pressed verified st'.
  destruct (approval_survives_navigation true stagedState stagedDetail
              [GoTransfer; ChangeAmount "1"] [GoHome] later later) as (_ & H & _).
  - vm_compute; reflexivity.
  - reflexivity.
  - reflexivity.
  - exact H.
Defined.

(** X10 on the staged scenario: after the first callback the button is enabled
    and the detail still pending. *)
Lemma second_press_commits_twice_witness :
  let k := List.length (tasks stagedState) in
  let verified := run true [Fingerprint; Due k later] stagedState in
  fingerprintDisabled verified = false /\ pendingTransfer verified = Some stagedDetail.
Proof.
  intros k verified.
  destruct (second_press_commits_twice true stagedState stagedDetail later later later later)
    as (_ & _ & H1 & H2 & _).
  - vm_compute; reflexivity.
  - vm_compute; discriminate.
  - reflexivity.
  - split; [exact H1 | exact H2].
Defined.


(** X15 on the drafted scenario. *)
Lemma scan_press_is_guarded_and_retriable_witness :
  handleStartQrScan true (handleStartQrScan true draftedState)
  = handleStartQrScan true draftedState.
Proof.
  destruct (scan_press_is_guarded_and_retriable true draftedState later) as [H _].
  - vm_compute; discriminate.
  - reflexivity.
  - exact H.
Defined.

(** ** Whole amounts *)

Section WholeAmounts.

Lemma rne_exact (q n : Z) : 0 <= n -> rne (q * 2 ^ n) n = q.
Proof.
  intros Hn. pose proof (pow2_pos n Hn). unfold rne. cbv zeta.
  rewrite Z.div_mul, Z.mod_mul by lia.
  destruct (Z.ltb_spec (2 * 0) (2 ^ n)); [reflexivity | lia].
Qed.

Lemma digits_int (p : positive) : Zpos p < 2 ^ 53 -> 1 <= digits p <= 53.
Proof.
  intros H. pose proof (digits_pos p). split; [lia|]. apply digits_lt_pow; lia.
Qed.

Lemma fexp_int (d : Z) : 1 <= d -> fexp prec emax d = d - 53.
Proof. intros H. rewrite fexp_eq. lia. Qed.

(** An integer below [2^53] written as [P * 2^E] rounds to itself. *)
Lemma binary_round_int (P : positive) (E : Z) (p : positive) :
  Zpos p < 2 ^ 53 -> E <= 0 -> Zpos P = Zpos p * 2 ^ (- E) ->
  binary_round prec emax false P E = ofZ (Zpos p).
Proof.
  intros Hp HE HP. unfold ofZ, binary_normalize. rewrite !binary_round_spec.
  pose proof (digits_int p Hp) as Hd.
  rewrite (digits_shift p (- E) P ltac:(lia) HP), Z.add_0_r.
  replace (digits p + - E + E) with (digits p) by lia.
  rewrite fexp_int by lia. set (t := digits p - 53).
  destruct (Z.leb_spec t 0); [|lia].
  assert (HPt : Zpos P = Zpos p * 2 ^ (0 - t) * 2 ^ (t - E) \/ t <= E).
  { destruct (Z.le_gt_cases t E); [now right | left].
    rewrite <- Z.mul_assoc, <- Z.pow_add_r by lia.
    now replace (0 - t + (t - E)) with (- E) by lia. }
  destruct (Z.leb_spec t E) as [Hle|Hlt].
  - f_equal. f_equal. rewrite HP, <- Z.mul_assoc, <- Z.pow_add_r by lia.
    f_equal. f_equal. lia.
  - destruct HPt as [HPt|]; [|lia]. rewrite HPt, rne_exact by lia.
    set (q := Z.to_pos (Zpos p * 2 ^ (0 - t))).
    assert (Hq : Zpos q = Zpos p * 2 ^ (0 - t)) by (apply to_pos_mul_pow; lia).
    rewrite <- Hq. unfold norm.
    assert (Hq53 : Zpos q < 2 ^ 53).
    { pose proof (digits_shift p (0 - t) q ltac:(lia) Hq) as Hdq.
      pose proof (digits_bounds q) as [_ Hu].
      replace (digits q) with 53 in Hu by (unfold t in Hdq; lia). exact Hu. }
    destruct (Z.ltb_spec (Zpos q) (2 ^ 53)); [reflexivity | lia].
Qed.

(** The same for the rounding [SFmul] and [SFdiv] end with, when the
    mantissa is at least as long as the format asks. *)
Lemma binary_round_aux_int (P : positive) (E : Z) (p : positive) :
  Zpos p < 2 ^ 53 -> E <= 0 -> Zpos P = Zpos p * 2 ^ (- E) ->
  E <= fexp prec emax (digits P + E) ->
  binary_round_aux prec emax false (Zpos P) E loc_Exact = ofZ (Zpos p).
Proof.
  intros Hp HE HP Ht. rewrite <- (binary_round_int P E p Hp HE HP).
  rewrite binary_round_aux_exact, binary_round_spec.
  set (t := fexp prec emax (digits P + E)) in *.
  destruct (Z.leb_spec t E); [|reflexivity].
  replace t with E by lia. rewrite Z.sub_diag, Z.pow_0_r, Z.mul_1_r. reflexivity.
Qed.

Lemma ofZ_finite (p : positive) :
  Zpos p < 2 ^ 53 ->
  ofZ (Zpos p)
  = S754_finite false (Z.to_pos (Zpos p * 2 ^ (53 - digits p))) (digits p - 53).
Proof.
  intros Hp. pose proof (digits_int p Hp) as Hd.
  unfold ofZ, binary_normalize. rewrite binary_round_spec, Z.add_0_r.
  rewrite fexp_int by lia.
  destruct (Z.leb_spec (digits p - 53) 0); [|lia].
  unfold mk. destruct (Z.leb_spec (digits p - 53) 971); [|lia].
  f_equal. f_equal. f_equal. f_equal. lia.
Qed.

Lemma mantissa_int (p : positive) :
  Zpos p < 2 ^ 53 ->
  Zpos (Z.to_pos (Zpos p * 2 ^ (53 - digits p))) = Zpos p * 2 ^ (53 - digits p)
  /\ digits (Z.to_pos (Zpos p * 2 ^ (53 - digits p))) = 53.
Proof.
  intros Hp. pose proof (digits_int p Hp) as Hd.
  assert (H : Zpos (Z.to_pos (Zpos p * 2 ^ (53 - digits p)))
              = Zpos p * 2 ^ (53 - digits p)) by (apply to_pos_mul_pow; lia).
  split; [exact H|].
  rewrite (digits_shift p (53 - digits p) _ ltac:(lia) H). lia.
Qed.

Lemma digits_mul (a b : positive) :
  digits a + digits b - 1 <= digits (a * b) <= digits a + digits b.
Proof.
  pose proof (digits_bounds a) as [Hla Hua]. pose proof (digits_bounds b) as [Hlb Hub].
  pose proof (digits_pos a). pose proof (digits_pos b).
  split.
  - assert (2 ^ (digits a + digits b - 2) <= Zpos (a * b)).
    { replace (digits a + digits b - 2) with ((digits a - 1) + (digits b - 1)) by lia.
      rewrite Z.pow_add_r by lia. rewrite Pos2Z.inj_mul.
      apply Z.mul_le_mono_nonneg; try lia; apply Z.pow_nonneg; lia. }
    pose proof (digits_ge_pow (a * b) _ H1). lia.
  - apply digits_lt_pow; [lia|]. rewrite Z.pow_add_r by lia. rewrite Pos2Z.inj_mul.
    apply Z.mul_lt_mono_nonneg; lia.
Qed.

Lemma mul_ofZ (a b : Z) :
  0 < a -> 0 < b -> a * b < 2 ^ 53 -> mul (ofZ a) (ofZ b) = ofZ (a * b).
Proof.
  intros Ha Hb Hab. destruct a as [|a|a], b as [|b|b]; try lia.
  assert (Ha53 : Zpos a < 2 ^ 53) by nia.
  assert (Hb53 : Zpos b < 2 ^ 53) by nia.
  rewrite (ofZ_finite a Ha53), (ofZ_finite b Hb53).
  destruct (mantissa_int a Ha53) as [Hma Hda]. destruct (mantissa_int b Hb53) as [Hmb Hdb].
  set (ma := Z.to_pos (Zpos a * 2 ^ (53 - digits a))) in *.
  set (mb := Z.to_pos (Zpos b * 2 ^ (53 - digits b))) in *.
  pose proof (digits_int a Ha53). pose proof (digits_int b Hb53).
  unfold mul, SFmul. cbn [xorb].
  change (Zpos a * Zpos b) with (Zpos (a * b)) in *.
  set (E := digits a - 53 + (digits b - 53)).
  assert (HP : Zpos (ma * mb) = Zpos (a * b) * 2 ^ (- E)).
  { rewrite !Pos2Z.inj_mul, Hma, Hmb. unfold E.
    replace (- (digits a - 53 + (digits b - 53)))
      with ((53 - digits a) + (53 - digits b)) by lia.
    rewrite Z.pow_add_r by lia. ring. }
  apply binary_round_aux_int; try assumption; [unfold E; lia|].
  rewrite (digits_shift (a * b) (- E) (ma * mb) ltac:(unfold E; lia) HP).
  replace (digits (a * b) + - E + E) with (digits (a * b)) by lia.
  pose proof (digits_mul a b). pose proof (digits_int (a * b) Hab).
  rewrite fexp_int by lia. unfold E. lia.
Qed.

Lemma Math_round_ofZ (z : Z) : 0 < z < 2 ^ 53 -> Math_round (ofZ z) = ofZ z.
Proof.
  intros Hz. destruct z as [|p|p]; try lia. destruct Hz as [_ Hp].
  pose proof (ofZ_finite p Hp) as E. destruct (mantissa_int p Hp) as [Hm _].
  pose proof (digits_int p Hp) as Hd.
  set (m := Z.to_pos (Zpos p * 2 ^ (53 - digits p))) in *.
  unfold Math_round. rewrite E at 1.
  destruct (Z.leb_spec 0 (digits p - 53)); [now rewrite E|].
  unfold cond_Zopp. rewrite Hm.
  replace (- (digits p - 53)) with (53 - digits p) by lia.
  set (k := 53 - digits p). pose proof (pow2_pos k ltac:(unfold k; lia)).
  replace (2 * (Zpos p * 2 ^ k) + 2 ^ k) with ((2 * Zpos p + 1) * 2 ^ k) by ring.
  rewrite Z.pow_add_r by (unfold k; lia). rewrite Z.pow_1_r.
  rewrite (Z.mul_comm (2 ^ k) 2), Z.div_mul_cancel_r by lia.
  replace ((2 * Zpos p + 1) / 2) with (Zpos p).
  - reflexivity.
  - apply (Z.div_unique _ _ _ 1); lia.
Qed.

Lemma div_ofZ (a b : Z) :
  0 < a -> 0 < b -> a * b < 2 ^ 53 -> div (ofZ (a * b)) (ofZ b) = ofZ a.
Proof.
  intros Ha Hb Hab. destruct a as [|a|a], b as [|b|b]; try lia.
  assert (Ha53 : Zpos a < 2 ^ 53) by nia.
  assert (Hb53 : Zpos b < 2 ^ 53) by nia.
  change (Zpos a * Zpos b) with (Zpos (a * b)) in *.
  rewrite (ofZ_finite (a * b) Hab), (ofZ_finite b Hb53).
  destruct (mantissa_int (a * b) Hab) as [Hm1 Hd1].
  destruct (mantissa_int b Hb53) as [Hm2 Hd2].
  set (m1 := Z.to_pos (Zpos (a * b) * 2 ^ (53 - digits (a * b)))) in *.
  set (m2 := Z.to_pos (Zpos b * 2 ^ (53 - digits b))) in *.
  pose proof (digits_int a Ha53). pose proof (digits_int b Hb53).
  pose proof (digits_int (a * b) Hab). pose proof (digits_mul a b) as Hdm.
  assert (Hge : digits b <= digits (a * b)).
  { pose proof (digits_bounds b) as [Hl _].
    assert (2 ^ (digits b - 1) <= Zpos (a * b)) by (rewrite Pos2Z.inj_mul; nia).
    pose proof (digits_ge_pow (a * b) _ H2). lia. }
  unfold div, SFdiv, SFdiv_core_binary. cbn [xorb].
  change (Zdigits2 (Zpos m1)) with (digits m1). change (Zdigits2 (Zpos m2)) with (digits m2).
  rewrite Hd1, Hd2.
  replace (53 + (digits (a * b) - 53) - (53 + (digits b - 53)))
    with (digits (a * b) - digits b) by lia.
  rewrite fexp_eq.
  set (e' := digits (a * b) - digits b - 53).
  replace (Z.min (Z.max e' (-1074)) (digits (a * b) - 53 - (digits b - 53)))
    with e' by (unfold e'; lia).
  replace (digits (a * b) - 53 - (digits b - 53) - e') with 53 by (unfold e'; lia).
  rewrite Z.shiftl_mul_pow2 by lia.
  set (k := 53 - digits (a * b) + digits b).
  set (Q := Z.to_pos (Zpos a * 2 ^ k)).
  assert (HQ : Zpos Q = Zpos a * 2 ^ k) by (apply to_pos_mul_pow; unfold k; lia).
  assert (Hm' : Zpos m1 * 2 ^ 53 = Zpos Q * Zpos m2).
  { rewrite Hm1, HQ, Hm2, Pos2Z.inj_mul. unfold k.
    replace (Zpos a * Zpos b * 2 ^ (53 - digits (a * b)) * 2 ^ 53)
      with (Zpos a * Zpos b * (2 ^ (53 - digits (a * b)) * 2 ^ 53)) by ring.
    replace (Zpos a * 2 ^ (53 - digits (a * b) + digits b) * (Zpos b * 2 ^ (53 - digits b)))
      with (Zpos a * Zpos b * (2 ^ (53 - digits (a * b) + digits b) * 2 ^ (53 - digits b)))
      by ring.
    rewrite <- !Z.pow_add_r by lia. f_equal. f_equal. lia. }
  rewrite Hm'.
  assert (Hdiv : Zpos Q * Zpos m2 / Zpos m2 = Zpos Q) by (apply Z.div_mul; lia).
  assert (Hmod : (Zpos Q * Zpos m2) mod Zpos m2 = 0) by (apply Z.mod_mul; lia).
  unfold Z.div, Z.modulo in Hdiv, Hmod.
  destruct (Z.div_eucl (Zpos Q * Zpos m2) (Zpos m2)) as [q r]. subst q r.
  assert (Hloc : new_location (Zpos m2) 0 = loc_Exact).
  { unfold new_location, new_location_even, new_location_odd.
    destruct (Z.even (Zpos m2)); reflexivity. }
  rewrite Hloc.
  apply binary_round_aux_int; try assumption.
  - unfold e'. lia.
  - rewrite HQ. f_equal. f_equal. unfold k, e'. lia.
  - rewrite (digits_shift a k Q ltac:(unfold k; lia) HQ).
    rewrite fexp_int by (unfold k, e'; lia). unfold k, e'. lia.
Qed.

Lemma sub_ofZ (b n : Z) :
  0 < n <= b -> b < 2 ^ 53 -> sub (ofZ b) (ofZ n) = ofZ (b - n).
Proof.
  intros [Hn Hnb] Hb. destruct n as [|n|n], b as [|b|b]; try lia.
  assert (Hn53 : Zpos n < 2 ^ 53) by lia.
  rewrite (ofZ_finite b Hb), (ofZ_finite n Hn53).
  destruct (mantissa_int b Hb) as [Hmb _]. destruct (mantissa_int n Hn53) as [Hmn _].
  set (mb := Z.to_pos (Zpos b * 2 ^ (53 - digits b))) in *.
  set (mn := Z.to_pos (Zpos n * 2 ^ (53 - digits n))) in *.
  pose proof (digits_int b Hb). pose proof (digits_int n Hn53).
  unfold sub, SFsub, cond_Zopp.
  set (ez := Z.min (digits b - 53) (digits n - 53)).
  rewrite (fst_shl_align mb (digits b - 53) ez) by (unfold ez; lia).
  rewrite (fst_shl_align mn (digits n - 53) ez) by (unfold ez; lia).
  rewrite Hmb, Hmn, <- !Z.mul_assoc, <- !Z.pow_add_r by (unfold ez; lia).
  replace (53 - digits b + (digits b - 53 - ez)) with (- ez) by lia.
  replace (53 - digits n + (digits n - 53 - ez)) with (- ez) by lia.
  rewrite <- Z.mul_sub_distr_r.
  pose proof (pow2_pos (- ez) ltac:(unfold ez; lia)) as Hpow.
  destruct (Z.eq_dec (Zpos b) (Zpos n)) as [E|E].
  - rewrite E, Z.sub_diag. reflexivity.
  - destruct (Zpos b - Zpos n) as [|d|d] eqn:Ed; try lia.
    assert (HP : Zpos (Z.to_pos (Zpos d * 2 ^ (- ez))) = Zpos d * 2 ^ (- ez))
      by (apply to_pos_mul_pow; unfold ez; lia).
    rewrite <- HP. unfold binary_normalize.
    apply binary_round_int; [lia | unfold ez; lia | exact HP].
Qed.

Lemma le_ofZ (n b : Z) : 0 < n <= b -> b < 2 ^ 53 -> le (ofZ n) (ofZ b) = true.
Proof.
  intros [Hn Hnb] Hb. destruct n as [|n|n], b as [|b|b]; try lia.
  assert (Hn53 : Zpos n < 2 ^ 53) by lia.
  pose proof (binary_round_valid false n 0) as Vn.
  pose proof (binary_round_valid false b 0) as Vb.
  change (binary_round prec emax false n 0) with (ofZ (Zpos n)) in Vn.
  change (binary_round prec emax false b 0) with (ofZ (Zpos b)) in Vb.
  rewrite (ofZ_finite b Hb) in *. rewrite (ofZ_finite n Hn53) in *.
  destruct (mantissa_int b Hb) as [Hmb _]. destruct (mantissa_int n Hn53) as [Hmn _].
  pose proof (digits_int b Hb). pose proof (digits_int n Hn53).
  destruct Vn as [Cn _]. destruct Vb as [Cb _].
  apply le_of_vle; try assumption.
  set (k := Z.min (digits n - 53) (digits b - 53)).
  apply (vle_unit k); [unfold k; lia..|].
  rewrite Hmb, Hmn, <- !Z.mul_assoc, <- !Z.pow_add_r by (unfold k; lia).
  replace (53 - digits n + (digits n - 53 - k)) with (- k) by lia.
  replace (53 - digits b + (digits b - 53 - k)) with (- k) by lia.
  pose proof (pow2_pos (- k) ltac:(unfold k; lia)). nia.
Qed.

Lemma Math_max_zero_ofZ (z : Z) : 0 <= z < 2 ^ 53 -> Math_max pZero (ofZ z) = ofZ z.
Proof.
  intros [Hz Hz53]. destruct z as [|p|p]; try lia; [reflexivity|].
  rewrite (ofZ_finite p Hz53). reflexivity.
Qed.

(** X17.  Whole amounts are exact.  When the amount text, commas dropped,
    is the decimal form of an integer n with 0 < n <= b, the balance is the
    integer b, and 100 b < 2^53, then the parsed amount is n, the Continue
    button is enabled, the staged amount [Math.round(n * 100) / 100] is
    exactly n, and committing the staged detail over the balance b leaves
    exactly b - n: no rounding error enters on the way. *)
Theorem whole_amount_is_sent_exactly (env : Clock) (st : AppState) (n b : Z) :
  0 < n <= b -> 100 * b < 2 ^ 53 ->
  isBlank (TransferDraft.recipient (draft st)) = false ->
  JsString.removeCommas (TransferDraft.amount (draft st)) = intToString n ->
  balance st = ofZ b ->
  currentDraftAmount st = ofZ n
  /\ canContinue st = true
  /\ exists detail,
       pendingTransfer (handleContinueToConfirm env st) = Some detail
       /\ TransferDetail.amount detail = ofZ n
       /\ forall time st',
            balance st' = ofZ b ->
            balance (finalizeTransfer time detail st') = ofZ (b - n).
Proof.
  intros [Hn Hnb] Hb Hr Ha Hbal.
  assert (H53 : 2 ^ 53 = 9007199254740992) by reflexivity.
  assert (Hv : parseAmount (TransferDraft.amount (draft st)) = ofZ n).
  { unfold parseAmount. rewrite Ha. now apply Number_intToString. }
  assert (Hpos : isPositive (ofZ n) = true).
  { destruct n as [|p|p]; try lia. rewrite ofZ_finite by lia. reflexivity. }
  assert (Hle : le (ofZ n) (ofZ b) = true) by (apply le_ofZ; lia).
  assert (Hamt : div (Math_round (mul (ofZ n) (ofZ 100))) (ofZ 100) = ofZ n).
  { rewrite mul_ofZ, Math_round_ofZ, div_ofZ by lia. reflexivity. }
  split; [exact Hv|]. split.
  - unfold canContinue, currentDraftAmount. rewrite Hv, Hbal, truthy_trim, Hr, Hle.
    destruct (ofZ n) as [[]|[]| |[] m e]; try discriminate Hpos; reflexivity.
  - unfold handleContinueToConfirm.
    rewrite Hv, Hbal, truthy_trim, Hr, invalid_iff_not_positive, Hpos, (le_not_gt _ _ Hle).
    cbn [negb]. cbv iota. eexists. split; [reflexivity|]. split; [exact Hamt|].
    intros time st' Hb'. unfold finalizeTransfer. cbn [balance setScreen setBiometricStatus
      setPendingTransfer setDraft setLastTransfer setBalance setHistory TransferDetail.amount].
    rewrite Hb', Hamt, sub_ofZ by lia. apply Math_max_zero_ofZ. lia.
Qed.

End WholeAmounts.

(** X17 on the drafted scenario: "2000" over the balance 125000. *)
Lemma whole_amount_is_sent_exactly_witness :
  currentDraftAmount draftedState = ofZ 2000 /\ canContinue draftedState = true.
Proof.
  destruct (whole_amount_is_sent_exactly noon draftedState 2000 125000) as (H1 & H2 & _).
  - lia.
  - reflexivity.
  - reflexivity.
  - vm_compute; reflexivity.
  - reflexivity.
  - split; [exact H1 | exact H2].
Defined.

(** ** Initials *)

Section Initials.

Lemma splitSpace_not_nil (s : string) : splitSpace s <> [].
Proof.
  induction s as [|c s IH]; simpl; [discriminate|].
  destruct (Ascii.eqb c " "%char); [discriminate|].
  destruct (splitSpace s); discriminate.
Qed.

Lemma splitSpace_nospace (s : string) : hasSpace s = false -> splitSpace s = [s].
Proof.
  induction s as [|c s IH]; simpl; [reflexivity|].
  destruct (Ascii.eqb c " "%char); simpl; [discriminate|].
  intros H. now rewrite IH.
Qed.

Lemma splitSpace_app (pre t : string) :
  splitSpace (pre ++ String " "%char t) = (splitSpace pre ++ splitSpace t)%list.
Proof.
  induction pre as [|c pre IH]; [reflexivity|].
  cbn [append splitSpace]. rewrite IH.
  destruct (Ascii.eqb c " "%char); [reflexivity|].
  destruct (splitSpace pre) eqn:E; [now apply splitSpace_not_nil in E | reflexivity].
Qed.

Lemma splitSpace_head (c : ascii) (s : string) :
  Ascii.eqb c " "%char = false ->
  exists part parts, splitSpace (String c s) = String c part :: parts.
Proof.
  intros Hc. cbn [splitSpace]. rewrite Hc.
  destruct (splitSpace s) as [|p ps]; eauto.
Qed.

(** A string with a space splits at its last space. *)
Lemma last_space (s : string) :
  hasSpace s = true ->
  exists pre tail, s = pre ++ String " "%char tail /\ hasSpace tail = false.
Proof.
  induction s as [|c s IH]; [discriminate|]. cbn [hasSpace].
  destruct (hasSpace s) eqn:Hs.
  - intros _. destruct (IH eq_refl) as (pre & tail & -> & Ht).
    exists (String c pre), tail. split; [reflexivity | assumption].
  - rewrite orb_false_r. intros Hc. apply Ascii.eqb_eq in Hc. subst c.
    exists "", s. split; [reflexivity | assumption].
Qed.

Lemma trimEnd_last_unit (s pre : string) (w : ascii) :
  JsString.isWhiteSpace w = true -> JsString.trimEnd s <> pre ++ String w "".
Proof.
  intros Hw. revert pre. induction s as [|c s IH]; intros pre.
  - destruct pre; discriminate.
  - cbn [JsString.trimEnd]. destruct (JsString.trimEnd s) as [|a u] eqn:E.
    + destruct (JsString.isWhiteSpace c) eqn:Hc.
      * destruct pre; discriminate.
      * destruct pre as [|x [|y pre]]; try discriminate.
        intros H. injection H as ->. congruence.
    + destruct pre as [|x pre]; [discriminate|].
      intros H. injection H as _ H. now apply IH in H.
Qed.

Lemma space_is_white : JsString.isWhiteSpace " "%char = true.
Proof. reflexivity. Qed.

Lemma white_not_space (c : ascii) :
  JsString.isWhiteSpace c = false -> Ascii.eqb c " "%char = false.
Proof.
  intros H. destruct (Ascii.eqb_spec c " "%char) as [->|]; [discriminate | reflexivity].
Qed.

Lemma upperChar_unit (c u : ascii) :
  upperChar c = Some u -> toUpperCase (String c "") = Some (String u "").
Proof. intros H. simpl. now rewrite H. Qed.

(** The initials of a name that starts with a unit that is not white space
    and does not end with a space. *)
Lemma initials_of_trimmed (c : ascii) (rest : string) :
  JsString.isWhiteSpace c = false ->
  (forall pre, String c rest <> pre ++ String " "%char "") ->
  (hasSpace rest = false ->
   match splitSpace (String c rest) with
   | [part] => charAt0 part = Some c
   | _ => False
   end)
  /\ (hasSpace rest = true ->
      exists pre d post,
        rest = pre ++ String " "%char (String d post)
        /\ hasSpace (String d post) = false
        /\ exists first more,
             splitSpace (String c rest) = first :: (more ++ [String d post])%list
             /\ charAt0 first = Some c).
Proof.
  intros Hc Hend. pose proof (white_not_space c Hc) as Hsp. split.
  - intros Hs. rewrite splitSpace_nospace; [reflexivity|].
    cbn [hasSpace]. now rewrite Hsp, Hs.
  - intros Hs. destruct (last_space rest Hs) as (pre & tail & -> & Ht).
    destruct tail as [|d post].
    { exfalso. apply (Hend (String c pre)). reflexivity. }
    exists pre, d, post. split; [reflexivity|]. split; [assumption|].
    change (String c (pre ++ String " "%char (String d post)))
      with (String c pre ++ String " "%char (String d post)).
    rewrite splitSpace_app, (splitSpace_nospace (String d post) Ht).
    destruct (splitSpace_head c pre Hsp) as (part & parts & ->).
    exists (String c part), parts. split; reflexivity.
Qed.

Lemma last_snoc {A : Type} (l : list A) (x d : A) : List.last (l ++ [x]) d = x.
Proof. induction l as [|y l IH]; [reflexivity|]. simpl. rewrite IH. now destruct l. Qed.

Lemma trim_shape (name : string) :
  isBlank name = false ->
  exists c rest,
    JsString.trim name = String c rest
    /\ JsString.isWhiteSpace c = false
    /\ (forall pre, String c rest <> pre ++ String " "%char "").
Proof.
  intros Hb. destruct (trimStart_not_blank name Hb) as (c & t & Hst & Hc).
  unfold JsString.trim. rewrite Hst.
  assert (Hh : exists u, JsString.trimEnd (String c t) = String c u).
  { simpl. destruct (JsString.trimEnd t); [rewrite Hc|]; eauto. }
  destruct Hh as [u Hu]. exists c, u. split; [exact Hu|]. split; [exact Hc|].
  intros pre. rewrite <- Hu. apply trimEnd_last_unit. reflexivity.
Qed.

Lemma initials_blank (name : string) :
  isBlank name = true -> initialsFromName name = Some "U".
Proof.
  intros Hb. unfold initialsFromName.
  destruct name as [|a name]; [reflexivity|]. cbn [JsString.truthy negb].
  now rewrite (proj2 (trim_blank _) Hb).
Qed.

Lemma initials_not_blank (name : string) :
  isBlank name = false ->
  exists c rest,
    JsString.trim name = String c rest
    /\ JsString.isWhiteSpace c = false
    /\ (hasSpace rest = false ->
        initialsFromName name = toUpperCase (String c ""))
    /\ (hasSpace rest = true ->
        exists pre d post,
          rest = pre ++ String " "%char (String d post)
          /\ hasSpace (String d post) = false
          /\ initialsFromName name = toUpperCase (String c (String d ""))).
Proof.
  intros Hb. destruct (trim_shape name Hb) as (c & rest & Ht & Hc & Hend).
  destruct (initials_of_trimmed c rest Hc Hend) as [H1 H2].
  assert (Htr : JsString.truthy name = true) by (destruct name; [discriminate | reflexivity]).
  exists c, rest. split; [exact Ht|]. split; [exact Hc|]. split.
  - intros Hs. specialize (H1 Hs). unfold initialsFromName. rewrite Htr, Ht. cbn [negb].
    destruct (splitSpace (String c rest)) as [|part [|p ps]]; try contradiction.
    rewrite H1. simpl. destruct (upperChar c); reflexivity.
  - intros Hs. destruct (H2 Hs) as (pre & d & post & Hr & Hn & first & more & Hsp & Hf).
    exists pre, d, post. split; [exact Hr|]. split; [exact Hn|].
    unfold initialsFromName. rewrite Htr, Ht, Hsp. cbn [negb].
    rewrite Hf.
    assert (Hl : List.last (more ++ [String d post]) "" = String d post) by apply last_snoc.
    destruct more as [|m more]; cbn [app]; cbn [app] in Hl; [reflexivity|].
    rewrite Hl. reflexivity.
Qed.

(** X18.  [initialsFromName]: a blank name (empty, or white space only)
    gives "U".  Any other name, trimmed, starts with a unit c that is not
    white space; without a space in it the initials are the upper case of c,
    and with one they are the upper case of c and of the unit d after the
    last space, which always exists: the last part is never empty, so
    [undefined] is never glued into the initials.  Within the fragment the
    initials have one or two units. *)
Theorem initials_come_from_the_name (name : string) :
  (isBlank name = true -> initialsFromName name = Some "U")
  /\ (isBlank name = false ->
      exists c rest,
        JsString.trim name = String c rest
        /\ JsString.isWhiteSpace c = false
        /\ (hasSpace rest = false ->
            initialsFromName name = toUpperCase (String c ""))
        /\ (hasSpace rest = true ->
            exists pre d post,
              rest = pre ++ String " "%char (String d post)
              /\ hasSpace (String d post) = false
              /\ initialsFromName name = toUpperCase (String c (String d ""))))
  /\ (forall initials,
        initialsFromName name = Some initials ->
        String.length initials = 1%nat \/ String.length initials = 2%nat).
Proof.
  split; [apply initials_blank|]. split; [apply initials_not_blank|].
  intros initials Hi. destruct (isBlank name) eqn:Hb.
  - rewrite (initials_blank name Hb) in Hi. injection Hi as <-. now left.
  - destruct (initials_not_blank name Hb) as (c & rest & _ & _ & H1 & H2).
    destruct (hasSpace rest) eqn:Hs.
    + destruct (H2 eq_refl) as (pre & d & post & _ & _ & E). rewrite E in Hi. simpl in Hi.
      destruct (upperChar c), (upperChar d); try discriminate.
      injection Hi as <-. now right.
    + rewrite (H1 eq_refl) in Hi. simpl in Hi.
      destruct (upperChar c); try discriminate. injection Hi as <-. now left.
Qed.

End Initials.

(** ** Stored names *)

Section Names.

Variable supported : bool.
Variable t0 : Z.

Lemma storedName_trim (s : string) : isBlank s = false -> storedName (JsString.trim s).
Proof. intros H. split; [now rewrite isBlank_trim | apply trim_idempotent]. Qed.

Lemma namesInvariant_init : namesInvariant (initialState t0).
Proof.
  split; [now left|]. split; [discriminate|]. split; [repeat constructor|].
  repeat constructor.
Qed.

Lemma namesInvariant_dispatch (ev : Event) (st : AppState) :
  namesInvariant st -> namesInvariant (dispatch supported ev st).
Proof.
  unfold namesInvariant. intros (Hu & Hp & Ht & Hh).
  destruct ev; simpl; auto.
  - unfold handleLogin. rewrite truthy_trim.
    destruct (isBlank (loginName st)) eqn:Hb; simpl; auto.
    destruct (negb (rememberMe st)); simpl;
      (split; [right; now apply storedName_trim | auto]).
  - unfold handleBack. destruct (screen st); simpl; auto.
  - destruct (nth_error quickAmounts k); simpl; auto.
  - unfold handleContinueToConfirm. rewrite truthy_trim.
    destruct (isBlank (TransferDraft.recipient (draft st))) eqn:Hb; simpl; auto.
    repeat match goal with |- context [if ?b then _ else _] => destruct b end; simpl; auto.
    split; [assumption|]. split; [|auto].
    intros detail Hd. injection Hd as <-. simpl. now apply storedName_trim.
  - unfold handleFingerprint. destruct (pendingTransfer st) as [detail|] eqn:Hd; simpl.
    + split; [assumption|]. split; [now rewrite Hd|]. split; [|assumption].
      apply Forall_app. split; [assumption|]. constructor; [|constructor].
      simpl. now apply Hp.
    + rewrite Hd. auto.
  - unfold handleStartQrScan. destruct (cameraStatus st), supported; simpl; auto;
      (split; [assumption|]; split; [assumption|]; split; [|assumption]);
      apply Forall_app; split; try assumption; repeat constructor.
  - unfold handleBottomNav. destruct (negb (isLoggedIn st)); auto.
    destruct next; simpl; auto.
  - destruct (takeTask k (tasks st)) as [[t rest]|] eqn:Hk; auto.
    destruct (takeTask_Forall _ _ _ _ _ Ht Hk) as [Hok Hrest].
    destruct t; simpl; auto.
    + split; [assumption|]. split; [assumption|]. split; [|assumption].
      apply Forall_app. split; [assumption|]. constructor; [exact Hok | constructor].
    + split; [assumption|]. split; [discriminate|]. split; [assumption|].
      constructor; assumption.
    + destruct (granted o); simpl; auto.
      split; [assumption|]. split; [assumption|]. split; [|assumption].
      apply Forall_app. split; [assumption|]. repeat constructor.
    + destruct captured; simpl; auto.
  - destruct stop; simpl; auto.
  - destruct stop; simpl; auto.
Qed.

Lemma namesInvariant_reachable (st : AppState) :
  reachable supported t0 st -> namesInvariant st.
Proof.
  induction 1 as [|st ev Hr IH].
  - apply namesInvariant_init.
  - unfold step. apply (namesInvariant_dispatch ev) in IH.
    unfold renderScreen. destruct (_ && _); exact IH.
Qed.

Lemma initials_of_stored (name initials : string) :
  storedName name ->
  initialsFromName name = Some initials ->
  exists c rest u,
    name = String c rest /\ upperChar c = Some u /\ charAt0 initials = Some u.
Proof.
  intros [Hb Ht] Hi.
  destruct (initials_not_blank name Hb) as (c & rest & Hn & _ & H1 & H2).
  rewrite Ht in Hn. exists c, rest.
  destruct (hasSpace rest) eqn:Hs.
  - destruct (H2 eq_refl) as (pre & d & post & _ & _ & E). rewrite E in Hi. simpl in Hi.
    destruct (upperChar c) as [u|], (upperChar d); try discriminate.
    injection Hi as <-. now exists u.
  - rewrite (H1 eq_refl) in Hi. simpl in Hi.
    destruct (upperChar c) as [u|]; try discriminate. injection Hi as <-. now exists u.
Qed.

(** X19.  The names the avatars are drawn from: in every reachable state
    the user name is empty or stored (not blank, no white space around it),
    and so is every recipient of the pending detail, of the scheduled
    callbacks and of the history.  Logged out, the header avatar is "U";
    otherwise it starts with the upper case of the first unit of the user
    name, and the avatar of every history row starts with the upper case of
    the first unit of its recipient. *)
Theorem avatars_show_stored_names (st : AppState) :
  reachable supported t0 st ->
  namesInvariant st
  /\ (userName st = "" -> initialsFromName (userName st) = Some "U")
  /\ (forall initials,
        userName st <> "" ->
        initialsFromName (userName st) = Some initials ->
        exists c rest u,
          userName st = String c rest /\ upperChar c = Some u
          /\ charAt0 initials = Some u)
  /\ (forall entry initials,
        In entry (history st) ->
        initialsFromName (HistoryEntry.recipient entry) = Some initials ->
        exists c rest u,
          HistoryEntry.recipient entry = String c rest /\ upperChar c = Some u
          /\ charAt0 initials = Some u).
Proof.
  intros Hr. pose proof (namesInvariant_reachable st Hr) as Hi.
  split; [exact Hi|]. destruct Hi as (Hu & _ & _ & Hh).
  split; [intros ->; reflexivity|]. split.
  - intros initials Hn. destruct Hu as [Hu|Hu]; [contradiction|].
    now apply initials_of_stored.
  - intros entry initials Hin. apply initials_of_stored.
    rewrite Forall_forall in Hh. now apply Hh.
Qed.

End Names.

(** X19 on the staged scenario. *)
Lemma avatars_show_stored_names_witness :
  userName stagedState = "" \/ storedName (userName stagedState).
Proof.
  apply (avatars_show_stored_names true 0 stagedState).
  apply reachable_step, reachable_run. constructor.
Defined.
